(** * SkyDrop airspace converter: per-point level computation

    A shallow embedding of [skydrop/utils/airspace/convert.py]: the height
    sweep, the three compaction passes, the point encoder [dumpPoint], the
    level decoder of [main] and the tile driver [dump].

    Conventions of the embedding.
    - Altitudes are what [Airspace.getMin]/[getMax] return: a pair
      (feet, AGL flag), compared the way Python compares tuples.
    - Distances and bearings are floats in the program.  Only their order and
      their quantised bytes are used, so they are integers here.
    - A Python object compared with [==]/[!=] and without an [__eq__] of its
      own is compared by identity.  Records carry an identity field
      ([aid], [vid]) and are compared structurally, so that equal records
      have equal fields, as identical objects do.
    - A [dict] is an insertion-ordered association list.
    - The debugging output ([check], [bVerbose]) is left out; [checkpoints]
      is the empty array it is in the source. *)

From Stdlib Require Import ZArith List Bool Lia QArith Qround.
From stdpp Require Import gmap strings list pretty.
Import ListNotations.

Local Open Scope Z_scope.

(* ===================================================================== *)
(** ** Altitudes *)
(* ===================================================================== *)

(** [(feet, agl)], the value of [airspace.getMin()] and [getMax()]
    ([printAirspaces] reads [floor[0]] and [floor[1]]). *)
Definition height : Type := Z * bool.

(** Python's [a < b] on such tuples: first components decide unless equal,
    then [False < True]. *)
Definition ht_ltb (a b : height) : bool :=
  (fst a <? fst b) || ((fst a =? fst b) && (negb (snd a) && snd b)).

(** Python's [a <= b] on tuples. *)
Definition ht_leb (a b : height) : bool :=
  (fst a <? fst b) || ((fst a =? fst b) && (negb (snd a) || snd b)).

(** [a > b] and [a >= b] are the mirrored comparisons. *)
Definition ht_gtb (a b : height) : bool := ht_ltb b a.
Definition ht_geb (a b : height) : bool := ht_leb b a.

(** [min(a, b)] of Python: [b] only when [b < a]. *)
Definition ht_min (a b : height) : height := if ht_ltb b a then b else a.

(** An order embedding into [Z], used to hand comparisons to [lia]. *)
Definition hcode (a : height) : Z := 2 * fst a + (if snd a then 1 else 0).

(* ===================================================================== *)
(** ** Data model *)
(* ===================================================================== *)

(** Modelled from the spec: the [Airspace] class ([Airspace.py] is not part
    of the sources).  Section 3 gives it a name, a floor and a ceiling, each
    an altitude with its reference; the boundary geometry is only used by the
    geometry provider.  [aid] is the object's identity. *)
Record Airspace : Type := mkAirspace {
  aid : nat;
  name : string;
  floor : height;
  ceiling : height
}.

Definition getMin (a : Airspace) : height := floor a.
Definition getMax (a : Airspace) : height := ceiling a.

(** Modelled from the spec: the [AirspaceVector] class
    ([AirspaceVector.py] is not part of the sources).  Section 3: an airspace
    reference, a distance, a bearing and the inside flag.  [vid] is the
    object's identity. *)
Record AirspaceVector : Type := mkVector {
  vid : nat;
  airspace : Airspace;
  distance : Z;
  angle : Z;
  inside : bool
}.

Global Instance height_eq_dec : EqDecision height.
Proof. solve_decision. Defined.

Global Instance Airspace_eq_dec : EqDecision Airspace.
Proof. solve_decision. Defined.

Global Instance AirspaceVector_eq_dec : EqDecision AirspaceVector.
Proof. solve_decision. Defined.

(* ===================================================================== *)
(** ** The selection helpers of convert.py *)
(* ===================================================================== *)

(** [height >= getMin() and height < getMax()] *)
Definition covers (h : height) (v : AirspaceVector) : bool :=
  ht_geb h (getMin (airspace v)) && ht_ltb h (getMax (airspace v)).

Definition findAirspacesInHeight (airspaceVectors : list AirspaceVector)
    (h : height) : list AirspaceVector :=
  List.filter (covers h) airspaceVectors.

Definition findAirspacesInside (airspaceVectors : list AirspaceVector)
    : list AirspaceVector :=
  List.filter inside airspaceVectors.

Definition findAirspacesNotInside (airspaceVectors : list AirspaceVector)
    : list AirspaceVector :=
  List.filter (fun v => negb (inside v)) airspaceVectors.

(** One turn of the loop of [findLowestHeightInAirspaces]. *)
Definition lowest_step (minHeight : option height) (v : AirspaceVector)
    : option height :=
  match minHeight with
  | None => Some (getMin (airspace v))
  | Some m => if ht_leb (getMin (airspace v)) m
              then Some (getMin (airspace v)) else Some m
  end.

Definition findLowestHeightInAirspaces (airspace_vectors : list AirspaceVector)
    : option height :=
  fold_left lowest_step airspace_vectors None.

(** One turn of the loop of [findHighestHeightInAirspaces]. *)
Definition highest_step (maxHeight : option height) (v : AirspaceVector)
    : option height :=
  match maxHeight with
  | None => Some (getMax (airspace v))
  | Some m => if ht_gtb (getMax (airspace v)) m
              then Some (getMax (airspace v)) else Some m
  end.

Definition findHighestHeightInAirspaces (airspace_vectors : list AirspaceVector)
    : option height :=
  fold_left highest_step airspace_vectors None.

(** The twice repeated update of [findNextHeightInAirspaces]:
    [if newHeight > h: nextHeight = newHeight if None else min(..)]. *)
Definition next_update (h : height) (nextHeight : option height)
    (newHeight : height) : option height :=
  if ht_gtb newHeight h then
    match nextHeight with
    | None => Some newHeight
    | Some n => Some (ht_min n newHeight)
    end
  else nextHeight.

Definition next_step (h : height) (nextHeight : option height)
    (v : AirspaceVector) : option height :=
  next_update h (next_update h nextHeight (getMin (airspace v)))
              (getMax (airspace v)).

Definition findNextHeightInAirspaces (airspace_vectors : list AirspaceVector)
    (h : height) : option height :=
  fold_left (next_step h) airspace_vectors None.

(** One turn of the loop of [findNearestAirspace]. *)
Definition nearest_step (nearestAirspace : option AirspaceVector)
    (v : AirspaceVector) : option AirspaceVector :=
  match nearestAirspace with
  | None => Some v
  | Some n => if distance v <? distance n then Some v else Some n
  end.

Definition findNearestAirspace (airspaceVectors : list AirspaceVector)
    : option AirspaceVector :=
  fold_left nearest_step airspaceVectors None.

(** One turn of the loop of [findFarestAirspace]. *)
Definition farest_step (farestAirspace : option AirspaceVector)
    (v : AirspaceVector) : option AirspaceVector :=
  match farestAirspace with
  | None => Some v
  | Some f => if distance v >? distance f then Some v else Some f
  end.

Definition findFarestAirspace (airspaceVectors : list AirspaceVector)
    : option AirspaceVector :=
  fold_left farest_step airspaceVectors None.

(** The body of the sweep loop that picks the vector of one band
    ([nearestAirspace] of [dumpPoint]). *)
Definition chooseBand (avs : list AirspaceVector) (h : height)
    : option AirspaceVector :=
  let airspacesInThisHeight := findAirspacesInHeight avs h in
  let airspacesInside := findAirspacesInside airspacesInThisHeight in
  if negb (length airspacesInside =? 0)%nat
  then findNearestAirspace airspacesInside
  else findNearestAirspace airspacesInThisHeight.

(* ===================================================================== *)
(** ** Errors *)
(* ===================================================================== *)

(** A point of the raster, [shapely.geometry.Point(lon_i, lat_i)].  The
    coordinates are floats in the program and exact rationals here. *)
Record Point : Type := mkPoint { px : Q; py : Q }.

(** The ways a computation can end other than by returning.
    [SystemExit p] is [dumpPoint]'s
    [print("Too much airspaces and none is far away at", p); sys.exit(1)].
    [OutOfFuel] is the embedding's own: a loop that outlived its fuel. *)
Inductive error : Type :=
| SystemExit (p : Point)
| IndexError
| KeyError
| TypeError
| AttributeError
| ZeroDivisionError
| OutOfFuel.

Inductive result (A : Type) : Type :=
| Ok (a : A)
| Err (e : error).
Arguments Ok {A} a.
Arguments Err {A} e.

Global Instance result_bind : MBind result :=
  fun A B f m => match m with Ok a => f a | Err e => Err e end.

Global Instance result_ret : MRet result := fun A a => Ok a.

(* ===================================================================== *)
(** ** Python dictionaries keyed by altitude *)
(* ===================================================================== *)

(** Insertion-ordered, one entry per key. *)
Abbreviation dict := (list (height * AirspaceVector)).

Definition dict_keys (d : dict) : list height := map fst d.
Definition dict_values (d : dict) : list AirspaceVector := map snd d.

(** [d[k]], raising [KeyError] for a missing key. *)
Fixpoint dict_get (d : dict) (k : height) : result AirspaceVector :=
  match d with
  | [] => Err KeyError
  | (k', v) :: d' => if decide (k = k') then Ok v else dict_get d' k
  end.

(** [d[k] = v]: a present key keeps its place, a new one goes last. *)
Fixpoint dict_set (d : dict) (k : height) (v : AirspaceVector) : dict :=
  match d with
  | [] => [(k, v)]
  | (k', v') :: d' =>
      if decide (k = k') then (k', v) :: d' else (k', v') :: dict_set d' k v
  end.

(** [sorted(...)] on altitudes: a stable insertion sort. *)
Fixpoint sorted_insert (k : height) (l : list height) : list height :=
  match l with
  | [] => [k]
  | k' :: l' => if ht_ltb k k' then k :: l else k' :: sorted_insert k l'
  end.

Definition sorted (l : list height) : list height :=
  fold_left (fun acc k => sorted_insert k acc) l [].


(* ===================================================================== *)
(** ** HeightBandResolver: the sweep of [dumpPoint] *)
(* ===================================================================== *)

(** [while h != None and h < hMax: ...; h = findNextHeightInAirspaces(avs, h)].
    [hMax] is [None] only when [avs] is empty, and then so is [h]; comparing
    an altitude with [None] would raise [TypeError]. *)
Fixpoint sweep_loop (fuel : nat) (avs : list AirspaceVector)
    (hMax : option height) (h : option height) (sortedAirspaces : dict)
    : result dict :=
  match h with
  | None => Ok sortedAirspaces
  | Some hv =>
      match hMax with
      | None => Err TypeError
      | Some hm =>
          if ht_ltb hv hm then
            match fuel with
            | O => Err OutOfFuel
            | S fuel' =>
                let sortedAirspaces' :=
                  match chooseBand avs hv with
                  | Some nearestAirspace =>
                      dict_set sortedAirspaces hv nearestAirspace
                  | None => sortedAirspaces
                  end in
                sweep_loop fuel' avs hMax (findNextHeightInAirspaces avs hv)
                           sortedAirspaces'
            end
          else Ok sortedAirspaces
      end
  end.

(** Each vector contributes two breakpoints, so the loop body runs at most
    [2 * length avs] times. *)
Definition sweep_fuel (avs : list AirspaceVector) : nat :=
  S (2 * length avs).

Definition heightBands (avs : list AirspaceVector) : result dict :=
  let hMin := findLowestHeightInAirspaces avs in
  let hMax := findHighestHeightInAirspaces avs in
  sweep_loop (sweep_fuel avs) avs hMax hMin [].

(* ===================================================================== *)
(** ** LevelCodec *)
(* ===================================================================== *)

(** each point has "levels" elevation levels *)
Definition levels : nat := 5.

(** The size of 1 level in bytes in the file *)
Definition sizeof_level : nat := 4.

(** Python's [round(n / d)] for [d > 0]: to nearest, halves to even. *)
Definition round_div (n d : Z) : Z :=
  let q := n / d in
  let r := n mod d in
  if 2 * r <? d then q
  else if 2 * r >? d then q + 1
  else if Z.even q then q else q + 1.

Definition clamp (lo hi x : Z) : Z := Z.max lo (Z.min hi x).

(** Modelled from the spec: the altitude byte of section 4.1, missing with
    [AirspaceVector.py]: [round(ft / 250)] clamped to [0,127], plus 128 for
    an AGL reference. *)
Definition altitudeByte (a : height) : Z :=
  clamp 0 127 (round_div (fst a) 250) + (if snd a then 128 else 0).

(** Modelled from the spec: [AirspaceVector.getAngleAsByte], missing with
    [AirspaceVector.py].  Section 4.1, byte 2: [round(bearing / 3)], plus 128
    when the vector is inside. *)
Definition getAngleAsByte (v : AirspaceVector) : Z :=
  round_div (angle v) 3 + (if inside v then 128 else 0).

(** Modelled from the spec: [AirspaceVector.getDistanceAsByte], missing with
    [AirspaceVector.py].  Section 4.1, byte 3:
    [clamp(round(distance / 64), 0, 255)]. *)
Definition getDistanceAsByte (v : AirspaceVector) : Z :=
  clamp 0 255 (round_div (distance v) 64).

(** Modelled from the spec: [AirspaceVector.getBytes], missing with
    [AirspaceVector.py].  Section 4.1: floor, ceiling, bearing with the
    inside flag, distance. *)
Definition getBytes (v : AirspaceVector) : list Z :=
  [ altitudeByte (getMin (airspace v));
    altitudeByte (getMax (airspace v));
    getAngleAsByte v;
    getDistanceAsByte v ].

(** Modelled from the spec: the bytes of the empty [AirspaceVector()],
    missing with [AirspaceVector.py].  Section 4.1: four zero bytes. *)
Definition emptyBytes : list Z := [0; 0; 0; 0].

(* ===================================================================== *)
(** ** LevelCompactor: the three passes of [dumpPoint] *)
(* ===================================================================== *)

(** The [for i in range(len(heights)-1)] loop of pass 1, over the
    consecutive pairs [heights[i], heights[i+1]]. *)
Fixpoint pass1_loop (sortedAirspaces : dict) (heights : list height)
    (compactAirspaces : dict) : result dict :=
  match heights with
  | height1 :: ((height2 :: _) as rest) =>
      v1 ← dict_get sortedAirspaces height1;
      v2 ← dict_get sortedAirspaces height2;
      if decide (airspace v1 <> airspace v2)
      then pass1_loop sortedAirspaces rest
             (dict_set compactAirspaces height2 v2)
      else pass1_loop sortedAirspaces rest compactAirspaces
  | _ => Ok compactAirspaces
  end.

(** "Eliminate all subsequent identical airspaces" *)
Definition pass1 (sortedAirspaces : dict) : result dict :=
  let heights := sorted (dict_keys sortedAirspaces) in
  match heights with
  | [] => Ok []
  | height1 :: _ =>
      v ← dict_get sortedAirspaces height1;
      pass1_loop sortedAirspaces heights (dict_set [] height1 v)
  end.

(** The test of pass 2 that adds [height2]. *)
Definition differs (v1 v2 : AirspaceVector) : bool :=
  negb (getDistanceAsByte v1 =? getDistanceAsByte v2)
  || (Z.abs (getAngleAsByte v1 - getAngleAsByte v2) >? 5).

Fixpoint pass2_loop (sortedAirspaces : dict) (heights : list height)
    (compactAirspaces : dict) : result dict :=
  match heights with
  | height1 :: ((height2 :: _) as rest) =>
      v1 ← dict_get sortedAirspaces height1;
      v2 ← dict_get sortedAirspaces height2;
      if differs v1 v2
      then pass2_loop sortedAirspaces rest
             (dict_set compactAirspaces height2 v2)
      else pass2_loop sortedAirspaces rest compactAirspaces
  | _ => Ok compactAirspaces
  end.

(** "Eliminate all subsequent airspaces with same angle/distance" *)
Definition pass2 (sortedAirspaces : dict) : result dict :=
  let heights := sorted (dict_keys sortedAirspaces) in
  if (levels <? length heights)%nat then
    match heights with
    | [] => Err IndexError
    | height1 :: _ =>
        v ← dict_get sortedAirspaces height1;
        pass2_loop sortedAirspaces heights (dict_set [] height1 v)
    end
  else Ok sortedAirspaces.

(** The inner loop of pass 3:
    [for height in compactAirspaces.keys(): if compactAirspaces[height] !=
    farestAirspace: compactAirspaces2[height] = compactAirspaces[height]]. *)
Definition remove_step (compactAirspaces : dict)
    (farestAirspace : AirspaceVector) (acc : result dict) (height1 : height)
    : result dict :=
  compactAirspaces2 ← acc;
  v ← dict_get compactAirspaces height1;
  if decide (v <> farestAirspace)
  then Ok (dict_set compactAirspaces2 height1 v)
  else Ok compactAirspaces2.

Definition removeVector (compactAirspaces : dict)
    (farestAirspace : AirspaceVector) : result dict :=
  fold_left (remove_step compactAirspaces farestAirspace)
            (dict_keys compactAirspaces) (Ok []).

(** One turn of [while len(compactAirspaces) > levels]. *)
Definition pass3_step (p : Point) (compactAirspaces : dict) : result dict :=
  let outsideAirspaces :=
    findAirspacesNotInside (dict_values compactAirspaces) in
  match findFarestAirspace outsideAirspaces with
  | None => Err (SystemExit p)
  | Some farestAirspace => removeVector compactAirspaces farestAirspace
  end.

(** "Delete all airspaces which are far away" *)
Fixpoint pass3_loop (fuel : nat) (p : Point) (compactAirspaces : dict)
    : result dict :=
  if (levels <? length compactAirspaces)%nat then
    match fuel with
    | O => Err OutOfFuel
    | S fuel' =>
        compactAirspaces2 ← pass3_step p compactAirspaces;
        pass3_loop fuel' p compactAirspaces2
    end
  else Ok compactAirspaces.

(** Every turn removes an entry, so [length compactAirspaces] turns are
    enough. *)
Definition pass3 (p : Point) (compactAirspaces : dict) : result dict :=
  pass3_loop (length compactAirspaces) p compactAirspaces.

(** Passes 1 to 3 in sequence. *)
Definition compact (p : Point) (sortedAirspaces : dict) : result dict :=
  d1 ← pass1 sortedAirspaces;
  d2 ← pass2 d1;
  pass3 p d2.

(* ===================================================================== *)
(** ** PointEncoder: [dumpPoint] *)
(* ===================================================================== *)

(** The geometry behind [Airspace.getDistanceToCenter],
    [Airspace.getAirspaceVector] and [AirspaceVector.isTooFar] (shapely) is
    outside the sources and taken as an interface. *)
Class GeometryProvider : Type := {
  getDistanceToCenter : Airspace -> Point -> Z;
  getAirspaceVector : Airspace -> Point -> AirspaceVector;
  isTooFar : AirspaceVector -> bool
}.

(** The loop that collects [avs]:
    [if airspace.getDistanceToCenter(p) / (100*1000) < 100: ...]. *)
Definition collectVectors `{GeometryProvider} (p : Point)
    (airspaces : list Airspace) : list AirspaceVector :=
  fold_left
    (fun avs a =>
       if getDistanceToCenter a p <? 100 * (100 * 1000) then
         let av := getAirspaceVector a p in
         if negb (isTooFar av) then avs ++ [av] else avs
       else avs)
    airspaces [].

(** [output[offset] = byte] on a [bytearray], for an offset that is not
    negative.  A [bytearray] also refuses a value outside 0..255; the bytes
    of [getBytes] are inside that range for a bearing in [0, 360)
    ([getBytes_range] below). *)
Definition write_byte (output : list Z) (offset : nat) (byte : Z)
    : result (list Z) :=
  if (offset <? length output)%nat then Ok (<[offset := byte]> output)
  else Err IndexError.

(** [for byte in bytes: output[offset] = byte; offset = offset + 1] *)
Fixpoint write_bytes (output : list Z) (offset : nat) (bytes : list Z)
    : result (list Z * nat) :=
  match bytes with
  | [] => Ok (output, offset)
  | byte :: rest =>
      output' ← write_byte output offset byte;
      write_bytes output' (S offset) rest
  end.

(** [for i in range(len(heights)): ... compactAirspaces[heights[i]].getBytes()] *)
Fixpoint write_levels (compactAirspaces : dict) (heights : list height)
    (output : list Z) (offset : nat) : result (list Z * nat) :=
  match heights with
  | [] => Ok (output, offset)
  | height1 :: rest =>
      v ← dict_get compactAirspaces height1;
      '(output', offset') ← write_bytes output offset (getBytes v);
      write_levels compactAirspaces rest output' offset'
  end.

(** "Fill up with empty Airspaces" *)
Fixpoint write_padding (n : nat) (output : list Z) (offset : nat)
    : result (list Z * nat) :=
  match n with
  | O => Ok (output, offset)
  | S n' =>
      '(output', offset') ← write_bytes output offset emptyBytes;
      write_padding n' output' offset'
  end.

(** The part of [dumpPoint] after [avs] is collected. *)
Definition encodeVectors (output : list Z) (offset : nat) (p : Point)
    (avs : list AirspaceVector) : result (list Z) :=
  sortedAirspaces ← heightBands avs;
  compactAirspaces ← compact p sortedAirspaces;
  let heights := sorted (dict_keys compactAirspaces) in
  '(output1, offset1) ← write_levels compactAirspaces heights output offset;
  '(output2, _) ← write_padding (levels - length compactAirspaces)
                                 output1 offset1;
  Ok output2.

Definition dumpPoint `{GeometryProvider} (output : list Z) (offset : nat)
    (p : Point) (airspaces : list Airspace) : result (list Z) :=
  encodeVectors output offset p (collectVectors p airspaces).

(* ===================================================================== *)
(** ** The level decoder of [main] *)
(* ===================================================================== *)

(** Python's [print(a, b, ...)]: the arguments separated by one space. *)
Definition print_args (args : list string) : string :=
  String.concat " " args.

(** [str(n)] for an integer. *)
Definition str (n : Z) : string := pretty n.

(** [print ("  level", level, "---")] *)
Definition emptyLine (level : nat) : string :=
  print_args ["  level"; str (Z.of_nat level); "---"].

(** [print ("  level", level, "floor=" + str(floor), floor_mode,
            "ceil=" + str(ceil), ceil_mode,
            " angle="+str(angle)+" distance="+str(distance)+inside)],
    with [str(ceil)] already made. *)
Definition levelLine (level : nat) (floor : Z) (floor_mode : string)
    (ceil_str : string) (ceil_mode : string) (angle distance : Z)
    (inside : string) : string :=
  print_args
    [ "  level"; str (Z.of_nat level);
      "floor=" +:+ str floor; floor_mode;
      "ceil=" +:+ ceil_str; ceil_mode;
      " angle=" +:+ str angle +:+ " distance=" +:+ str distance +:+ inside ].

(** The body of [for level in range(levels)] after the four bytes are
    read. *)
Definition decodeLevel (level : nat) (floor_raw ceil_raw angle_raw
    distance_raw : Z) : string :=
  let floorAGL := floor_raw >? 127 in
  let floor := if floorAGL then floor_raw - 128 else floor_raw in
  let floor_mode := if floorAGL then "AGL" else "MSL" in
  let floor := floor * 250 in
  let ceilAGL := ceil_raw >? 127 in
  let ceil := if ceilAGL then ceil_raw - 128 else ceil_raw in
  let ceil_mode := if ceilAGL then "AGL" else "MSL" in
  let ceil := ceil * 250 in
  let angle := if angle_raw >? 127 then angle_raw - 128 else angle_raw in
  let inside := if angle_raw >? 127 then " INSIDE!" else "" in
  let angle := angle * 3 in
  let distance := distance_raw * 64 in
  if ceil =? 0 then emptyLine level
  else
    let ceil_str :=
      if Z.land ceil_raw 127 =? 127 then "MAX" else str ceil in
    levelLine level floor floor_mode ceil_str ceil_mode angle distance inside.

(** Reads the four bytes of one level from the buffer. *)
Definition decodeAt (output : list Z) (level : nat) : result string :=
  let offset := (level * sizeof_level)%nat in
  match output !! offset, output !! (offset + 1)%nat,
        output !! (offset + 2)%nat, output !! (offset + 3)%nat with
  | Some floor_raw, Some ceil_raw, Some angle_raw, Some distance_raw =>
      Ok (decodeLevel level floor_raw ceil_raw angle_raw distance_raw)
  | _, _, _, _ => Err IndexError
  end.

(* ===================================================================== *)
(** ** The tile driver [dump] *)
(* ===================================================================== *)

(** The lines the driver prints. *)
Inductive message : Type :=
| TooMuchAirspaces (p : Point)
| ExistsSkipping (filename : string)
| Computing (filename : string) (numPoints : Z)
| Progress (filename : string) (pos : nat)
| Exiting
| IsEmpty (filename : string)
| Saved (filename : string).

(** What a run of [dump] does to the outside, in order. *)
Inductive event : Type :=
| Print (m : message)
| Alloc (filesize : Z)
| CallDumpPoint (offset : nat) (p : Point)
| OpenFile (filename : string)
| WriteFile (filename : string) (content : list Z)
| CloseFile (filename : string)
| RemoveFile (filename : string).

(** The files of the working directory and the events so far. *)
Record world : Type := mkWorld {
  files : gmap string (list Z);
  log : list event
}.

(** How the worker process of a tile ends. *)
Inductive status : Type :=
| Returned
| Exited (code : Z)
| Uncaught (e : error).

(** The globals [force] and [wantedResolution]. *)
Record Config : Type := mkConfig {
  force : bool;
  wantedResolution : Z
}.

Definition emit (w : world) (e : event) : world :=
  mkWorld (files w) (log w ++ [e]).

Definition isfile (w : world) (filename : string) : bool :=
  bool_decide (is_Some (files w !! filename)).

(** [open(filename, 'wb')]: the file is created or truncated. *)
Definition open_wb (w : world) (filename : string) : world :=
  emit (mkWorld (<[filename := []]> (files w)) (log w)) (OpenFile filename).

(** [f.write(bytes(output))] *)
Definition write_file (w : world) (filename : string) (content : list Z)
    : world :=
  emit (mkWorld (<[filename := content]> (files w)) (log w))
       (WriteFile filename content).

(** [os.remove(filename)] *)
Definition remove_file (w : world) (filename : string) : world :=
  emit (mkWorld (delete filename (files w)) (log w)) (RemoveFile filename).

Fixpoint zeros (n : nat) : string :=
  match n with
  | O => ""
  | S n' => "0" +:+ zeros n'
  end.

(** [f"{n:0{width}d}"]: sign first, then zeros up to the width. *)
Definition zero_pad (width : nat) (n : Z) : string :=
  let sign := if n <? 0 then "-" else "" in
  let digits := str (Z.abs n) in
  sign +:+ zeros (width - String.length sign - String.length digits)
       +:+ digits.

(** [f"N{lat:02d}E{lon:03d}.air"] *)
Definition tileName (lon lat : Z) : string :=
  "N" +:+ zero_pad 2 lat +:+ "E" +:+ zero_pad 3 lon +:+ ".air".

(** The [i]-th value of [numpy.arange(start, start + 1, 1/n)]. *)
Definition arange_at (start : Z) (n : positive) (i : nat) : Q :=
  (inject_Z start + inject_Z (Z.of_nat i) * (1 # n))%Q.

(** [numpy.arange(start, start + 1, 1/n)]: [n] values for a positive [n],
    none for a negative one.  This is the range over exact rationals.  On
    floats the range has [ceil(1 / (1/n))] values, which is [n + 1] for some
    [n] (49 for one); the results on the raster below hold of the exact
    range, and those on the files and on the quick check, whose step is
    1/10, do not depend on the number of values. *)
Definition arange (start : Z) (n : Z) : list Q :=
  map (arange_at start (Z.to_pos n)) (seq 0 (Z.to_nat n)).

(** [int(q)]: truncation towards zero. *)
Definition Qint (q : Q) : Z := Z.quot (Qnum q) (Zpos (Qden q)).

(** [for offset in range(levels * sizeof_level):
       if output[offset] != 0: isEmpty = False] *)
Definition scan_record (output : list Z) (isEmpty : bool) : result bool :=
  fold_left
    (fun acc offset =>
       e ← acc;
       match output !! offset with
       | Some byte => Ok (if byte =? 0 then e else false)
       | None => Err IndexError
       end)
    (seq 0 (levels * sizeof_level)) (Ok isEmpty).

(** One sampled point of the "Quickcheck for emptyness". *)
Definition quickcheck_point `{GeometryProvider} (airspaces : list Airspace)
    (st : world * result (list Z * bool)) (p : Point)
    : world * result (list Z * bool) :=
  match st with
  | (w, Ok (output, isEmpty)) =>
      let offset := 0%nat in
      let w' := emit w (CallDumpPoint offset p) in
      (w', output' ← dumpPoint output offset p airspaces;
           isEmpty' ← scan_record output' isEmpty;
           Ok (output', isEmpty'))
  | (w, Err e) => (w, Err e)
  end.

(** The points of the quick check, in the order of the two loops. *)
Definition quickcheck_points (lon lat : Z) : list Point :=
  flat_map (fun lat_i => map (fun lon_i => mkPoint lon_i lat_i)
                             (arange lon 10))
           (arange lat 10).

Definition quickcheck `{GeometryProvider} (airspaces : list Airspace)
    (lon lat : Z) (w : world) (output : list Z)
    : world * result (list Z * bool) :=
  fold_left (quickcheck_point airspaces) (quickcheck_points lon lat)
            (w, Ok (output, true)).

(** The raster offset of a point:
    [(int(numPoints - 1 - y) * numPoints + int(x)) * (levels * sizeof_level)].
    The products are exact here; on floats a product just below a whole
    number truncates to the cell before, so the program can write a cell
    twice and leave its neighbour out where this offset visits each cell
    once. *)
Definition rasterOffset (lon lat numPoints : Z) (p : Point) : nat :=
  let y := ((py p - inject_Z lat) * inject_Z numPoints)%Q in
  let x := ((px p - inject_Z lon) * inject_Z numPoints)%Q in
  Z.to_nat ((Qint (inject_Z numPoints - 1 - y) * numPoints + Qint x)
            * Z.of_nat (levels * sizeof_level)).

(** One point of the full raster. *)
Definition raster_point `{GeometryProvider} (airspaces : list Airspace)
    (lon lat numPoints : Z) (lat_i : Q)
    (st : world * result (list Z)) (lon_i : Q) : world * result (list Z) :=
  match st with
  | (w, Ok output) =>
      let p := mkPoint lon_i lat_i in
      let offset := rasterOffset lon lat numPoints p in
      (emit w (CallDumpPoint offset p), dumpPoint output offset p airspaces)
  | (w, Err e) => (w, Err e)
  end.

(** One row of the full raster; [pos] counts the rows begun. *)
Definition raster_row `{GeometryProvider} (airspaces : list Airspace)
    (filename : string) (lon lat numPoints : Z)
    (st : world * nat * result (list Z)) (lat_i : Q)
    : world * nat * result (list Z) :=
  match st with
  | (w, pos, Ok output) =>
      let pos := S pos in
      let w1 := emit w (Print (Progress filename pos)) in
      let '(w2, r) :=
        fold_left (raster_point airspaces lon lat numPoints lat_i)
                  (arange lon numPoints) (w1, Ok output) in
      (w2, pos, r)
  | (w, pos, Err e) => (w, pos, Err e)
  end.

(** The body of the [try]: the quick check, then the raster when the quick
    check found a byte that is not zero.  Returns the open file, if any. *)
Definition dump_try `{GeometryProvider} (airspaces : list Airspace)
    (filename : string) (lon lat numPoints : Z) (w : world)
    (output : list Z) : world * option string * result (list Z) :=
  match quickcheck airspaces lon lat w output with
  | (w1, Err e) => (w1, None, Err e)
  | (w1, Ok (output1, isEmpty)) =>
      if negb isEmpty then
        let w2 := open_wb w1 filename in
        if numPoints =? 0 then (w2, Some filename, Err ZeroDivisionError)
        else
          let '(w3, _, r) :=
            fold_left (raster_row airspaces filename lon lat numPoints)
                      (arange lat numPoints) (w2, 0%nat, Ok output1) in
          (w3, Some filename, r)
      else (w1, None, Ok output1)
  end.

(** [for byte in output: if byte != 0: isEmpty = False; break] *)
Definition all_zero (output : list Z) : bool :=
  forallb (fun byte => byte =? 0) output.

Definition dump `{GeometryProvider} (cfg : Config) (lon lat : Z)
    (airspaces : list Airspace) (draw : bool) (w : world) : world * status :=
  let filename := tileName lon lat in
  let numPoints := if draw then 10 else wantedResolution cfg in
  let filesize :=
    numPoints * numPoints * Z.of_nat levels * Z.of_nat sizeof_level in
  if isfile w filename && negb (force cfg) then
    (emit w (Print (ExistsSkipping filename)), Returned)
  else
    let w := emit w (Print (Computing filename numPoints)) in
    let w := emit w (Alloc filesize) in
    let output := repeat 0 (Z.to_nat filesize) in
    match dump_try airspaces filename lon lat numPoints w output with
    | (w, f, Err (SystemExit p)) =>
        let w := emit w (Print (TooMuchAirspaces p)) in
        let w := emit w (Print Exiting) in
        match f with
        | Some fn => (remove_file (emit w (CloseFile fn)) fn, Exited 1)
        | None => (w, Exited 1)
        end
    | (w, f, Err e) => (w, Uncaught e)
    | (w, f, Ok output) =>
        if all_zero output then (emit w (Print (IsEmpty filename)), Returned)
        else
          match f with
          | Some fn =>
              let w := write_file w fn output in
              let w := emit w (Print (Saved filename)) in
              (emit w (CloseFile fn), Returned)
          | None => (w, Uncaught AttributeError)
          end
    end.

(* ===================================================================== *)
(** ** Notions used to state the properties *)
(* ===================================================================== *)

(** [v] is the first element of [l] with the least [key] among those that
    satisfy [P]. *)
Definition first_best {A : Type} (key : A -> Z) (P : A -> bool)
    (l : list A) (v : A) : Prop :=
  exists l1 l2, l = l1 ++ v :: l2 /\ P v = true /\
    (forall w, In w l1 -> P w = true -> key v < key w) /\
    (forall w, In w l2 -> P w = true -> key v <= key w).

(** The floors and ceilings of all candidate vectors. *)
Definition breakpoints (avs : list AirspaceVector) : list height :=
  flat_map (fun v => [getMin (airspace v); getMax (airspace v)]) avs.

(** [n] is the smallest breakpoint strictly greater than [h]. *)
Definition least_above (avs : list AirspaceVector) (h n : height) : Prop :=
  In n (breakpoints avs) /\ ht_ltb h n = true /\
  forall b, In b (breakpoints avs) -> ht_ltb h b = true -> ht_leb n b = true.

(** [m] is the minimum floor over all vectors. *)
Definition is_min_floor (avs : list AirspaceVector) (m : height) : Prop :=
  (exists v, In v avs /\ getMin (airspace v) = m) /\
  forall v, In v avs -> ht_leb m (getMin (airspace v)) = true.

(** [m] is the maximum ceiling over all vectors. *)
Definition is_max_ceiling (avs : list AirspaceVector) (m : height) : Prop :=
  (exists v, In v avs /\ getMax (airspace v) = m) /\
  forall v, In v avs -> ht_leb (getMax (airspace v)) m = true.

(** The altitudes [h :: rest] are those a sweep visits from [h] on: each is
    below [hMax], each next one is the least breakpoint above the one
    before, and above the last one there is no breakpoint below [hMax]. *)
Fixpoint sweep_chain (avs : list AirspaceVector) (hMax h : height)
    (rest : list height) : Prop :=
  ht_ltb h hMax = true /\
  match rest with
  | [] => forall n, least_above avs h n -> ht_ltb n hMax = false
  | h' :: rest' => least_above avs h h' /\ sweep_chain avs hMax h' rest'
  end.

(** The map entries of the visited altitudes: one per altitude that has a
    chosen vector, in the order visited. *)
Definition band_entries (avs : list AirspaceVector) (visited : list height)
    : dict :=
  omap (fun h => match chooseBand avs h with
                 | Some v => Some (h, v)
                 | None => None
                 end) visited.

(** The number of breakpoints above [h]: the sweep's measure. *)
Definition count_above (avs : list AirspaceVector) (h : height) : nat :=
  length (List.filter (ht_ltb h) (breakpoints avs)).

(** The accumulator of [findNextHeightInAirspaces] after the breakpoints
    [seen]: the least of them above [h], or [None] when there is none. *)
Definition next_ok (h : height) (seen : list height) (acc : option height)
    : Prop :=
  match acc with
  | None => forall b, In b seen -> ht_ltb h b = false
  | Some n => In n seen /\ ht_ltb h n = true /\
      forall b, In b seen -> ht_ltb h b = true -> ht_leb n b = true
  end.

(** Altitudes strictly ascending: each is below all that follow. *)
Fixpoint ascending (l : list height) : Prop :=
  match l with
  | [] => True
  | k :: l' => (forall k', In k' l' -> ht_ltb k k' = true) /\ ascending l'
  end.

(** The loop shared by passes 1 and 2, with the test that adds [height2]
    as a parameter. *)
Fixpoint pair_loop (keep : AirspaceVector -> AirspaceVector -> bool)
    (sortedAirspaces : dict) (heights : list height)
    (compactAirspaces : dict) : result dict :=
  match heights with
  | height1 :: ((height2 :: _) as rest) =>
      v1 ← dict_get sortedAirspaces height1;
      v2 ← dict_get sortedAirspaces height2;
      if keep v1 v2
      then pair_loop keep sortedAirspaces rest
             (dict_set compactAirspaces height2 v2)
      else pair_loop keep sortedAirspaces rest compactAirspaces
  | _ => Ok compactAirspaces
  end.

(** The entries of [rest] that [keep] admits next to the entry just before
    them, [prev] being the vector before the first. *)
Fixpoint keep_after (keep : AirspaceVector -> AirspaceVector -> bool)
    (prev : AirspaceVector) (rest : dict) : dict :=
  match rest with
  | [] => []
  | (k2, v2) :: rest' =>
      if keep prev v2 then (k2, v2) :: keep_after keep v2 rest'
      else keep_after keep v2 rest'
  end.

(** The first entry, and every later entry that [keep] admits next to the
    entry just before it. *)
Definition keep_changes (keep : AirspaceVector -> AirspaceVector -> bool)
    (d : dict) : dict :=
  match d with
  | [] => []
  | (k, v) :: rest => (k, v) :: keep_after keep v rest
  end.

(** The test of pass 1 that adds [height2]. *)
Definition other_airspace (v1 v2 : AirspaceVector) : bool :=
  bool_decide (airspace v1 <> airspace v2).

(** Pass 1 in the spec's words: walking upwards, a band is dropped when its
    airspace is that of the last band that survived. *)
Fixpoint spec_pass1_after (surviving : AirspaceVector) (rest : dict) : dict :=
  match rest with
  | [] => []
  | (k2, v2) :: rest' =>
      if decide (airspace v2 = airspace surviving)
      then spec_pass1_after surviving rest'
      else (k2, v2) :: spec_pass1_after v2 rest'
  end.

Definition spec_pass1 (d : dict) : dict :=
  match d with
  | [] => []
  | (k, v) :: rest => (k, v) :: spec_pass1_after v rest
  end.

(** The spec's criterion of pass 2 for dropping [v] after [prev]: equal
    distance bytes and bearing bytes at most 5 apart. *)
Definition near_duplicate (prev v : AirspaceVector) : bool :=
  (getDistanceAsByte v =? getDistanceAsByte prev)
  && (Z.abs (getAngleAsByte v - getAngleAsByte prev) <=? 5).

(** Pass 2 in the spec's words: walking upwards, a band is dropped when it
    is a near duplicate of the last band that survived. *)
Fixpoint spec_pass2_after (surviving : AirspaceVector) (rest : dict) : dict :=
  match rest with
  | [] => []
  | (k2, v2) :: rest' =>
      if near_duplicate surviving v2
      then spec_pass2_after surviving rest'
      else (k2, v2) :: spec_pass2_after v2 rest'
  end.

Definition spec_pass2 (d : dict) : dict :=
  if (levels <? length d)%nat then
    match d with
    | [] => []
    | (k, v) :: rest => (k, v) :: spec_pass2_after v rest
    end
  else d.

(** The entries of [d] whose vector is not [far]. *)
Definition without (far : AirspaceVector) (d : dict) : dict :=
  List.filter (fun e => bool_decide (snd e <> far)) d.

(** The number of entries with the inside flag. *)
Definition count_inside (d : dict) : nat :=
  length (List.filter (fun e => inside (snd e)) d).

(** [v] is the first entry of [l] with the greatest distance among those
    that are not inside. *)
Definition first_farthest_outside (l : list AirspaceVector)
    (v : AirspaceVector) : Prop :=
  exists l1 l2, l = l1 ++ v :: l2 /\ inside v = false /\
    (forall w, In w l1 -> inside w = false -> distance w < distance v) /\
    (forall w, In w l2 -> inside w = false -> distance w <= distance v).

(** The number of entries whose vector is [far]. *)
Definition count_vector (far : AirspaceVector) (d : dict) : nat :=
  length (List.filter (fun e => bool_decide (snd e = far)) d).

(** [out] with the bytes [bs] written from [offset] on. *)
Definition splice (out : list Z) (offset : nat) (bs : list Z) : list Z :=
  take offset out ++ bs ++ drop (offset + length bs) out.

(** The record of a point: the four bytes of every surviving entry in the
    map's order, then empty descriptors up to [levels] slots. *)
Definition recordBytes (c : dict) : list Z :=
  flat_map (fun e => getBytes (snd e)) c
  ++ concat (repeat emptyBytes (levels - length c)).

(** The resolver and the compactor of [dumpPoint], without the writes. *)
Definition survivors (p : Point) (avs : list AirspaceVector) : result dict :=
  sortedAirspaces ← heightBands avs;
  compact p sortedAirspaces.

(** The points of the full raster, in the order of the two loops. *)
Definition raster_points (lon lat numPoints : Z) : list Point :=
  flat_map (fun lat_i => map (fun lon_i => mkPoint lon_i lat_i)
                             (arange lon numPoints))
           (arange lat numPoints).

(** The record [dumpPoint] writes for a point into an empty buffer of one
    record. *)
Definition pointRecord `{GeometryProvider} (p : Point)
    (airspaces : list Airspace) : result (list Z) :=
  dumpPoint (repeat 0 (levels * sizeof_level)) 0 p airspaces.

Global Instance Q_eq_dec : EqDecision Q.
Proof. solve_decision. Defined.

Global Instance Point_eq_dec : EqDecision Point.
Proof. solve_decision. Defined.

Global Instance error_eq_dec : EqDecision error.
Proof. solve_decision. Defined.

Global Instance result_eq_dec {A} `{EqDecision A} : EqDecision (result A).
Proof. solve_decision. Defined.

(* ===================================================================== *)
(** ** The check mode of [main], the bounding box and the tile list *)
(* ===================================================================== *)

(** [for level in range(levels): ... print(...)] of [main]: the lines
    printed for a buffer, or the [IndexError] of the first level that lies
    beyond it. *)
Fixpoint decodeLevels (output : list Z) (levelList : list nat)
    : result (list string) :=
  match levelList with
  | [] => Ok []
  | level :: rest =>
      line ← decodeAt output level;
      lines ← decodeLevels output rest;
      Ok (line :: lines)
  end.

(** The check mode of [main]:
    [output = bytearray(levels * sizeof_level);
     dumpPoint(output, 0, checkPoint, airspaces, False, True)]
    and the loop that prints the levels. *)
Definition checkPointReport `{GeometryProvider} (checkPoint : Point)
    (airspaces : list Airspace) : result (list string) :=
  output ← dumpPoint (repeat 0 (levels * sizeof_level)) 0 checkPoint
                     airspaces;
  decodeLevels output (seq 0 levels).

(** A bounding box [[west, south, east, north]], the list [bb] of
    [getBoundingBox]. *)
Record Box : Type := mkBox { bb0 : Q; bb1 : Q; bb2 : Q; bb3 : Q }.

(** Python's [min(a, b)] and [max(a, b)]: the second argument only when it
    is strictly smaller, or strictly greater. *)
Definition py_min (a b : Q) : Q := if Qle_bool a b then a else b.
Definition py_max (a b : Q) : Q := if Qle_bool b a then a else b.

(** One turn of the loop of [getBoundingBox]; [bb2'] is
    [airspace.getBoundingBox()]. *)
Definition box_step (bb bb2' : Box) : Box :=
  mkBox (py_min (bb0 bb) (bb0 bb2')) (py_min (bb1 bb) (bb1 bb2'))
        (py_max (bb2 bb) (bb2 bb2')) (py_max (bb3 bb) (bb3 bb2')).

(** [getBoundingBox(airspaces)], over the boxes of the airspaces
    ([Airspace.getBoundingBox] is outside the sources). *)
Definition getBoundingBox (boxes : list Box) : Box :=
  fold_left box_step boxes (mkBox 100 200 (-100) (-200)).

(** Python's [range(a, b)]. *)
Definition py_range (a b : Z) : list Z :=
  map (fun i => a + Z.of_nat i) (seq 0 (Z.to_nat (b - a))).

(** The tiles of the whole bounding box, as [(lon, lat)], in the order of
    the two loops of [main]. *)
Definition boxTiles (boundingBox : Box) : list (Z * Z) :=
  flat_map
    (fun lat =>
       map (fun lon => (lon, lat))
           (py_range (Qint (bb0 boundingBox) - 1)
                     (Qint (bb2 boundingBox) + 2)))
    (py_range (Qint (bb1 boundingBox) - 1) (Qint (bb3 boundingBox) + 2)).

(** The arguments [(lon, lat)] of the [dump] processes that [main] queues.
    [only] holds [(latOnly, lonOnly)], which [main] sets together from the
    command line or leaves [None]:
    [if latOnly != None and lonOnly != 0: ... else: ...]. *)
Definition tileJobs (only : option (Z * Z)) (boundingBox : Box)
    : list (Z * Z) :=
  match only with
  | Some (latOnly, lonOnly) =>
      if negb (lonOnly =? 0) then [(lonOnly, latOnly)]
      else boxTiles boundingBox
  | None => boxTiles boundingBox
  end.

(** Every entry of [rest] has another airspace than the entry before it,
    [prev] being the vector before the first. *)
Fixpoint differ_from (prev : AirspaceVector) (rest : dict) : Prop :=
  match rest with
  | [] => True
  | (_, v) :: rest' => airspace prev <> airspace v /\ differ_from v rest'
  end.

(** No two neighbouring entries of the map have the same airspace. *)
Definition adjacent_differ (d : dict) : Prop :=
  match d with
  | [] => True
  | (_, v) :: rest => differ_from v rest
  end.

(** The test of the loop that collects [avs]: the airspace's centre is less
    than 100 km away and its vector is not too far. *)
Definition in_reach `{GeometryProvider} (p : Point) (a : Airspace) : bool :=
  (getDistanceToCenter a p <? 100 * (100 * 1000))
  && negb (isTooFar (getAirspaceVector a p)).

(** The line [main] prints for level [i] of a point whose surviving entries
    are [c]: the decoded bytes of the [i]-th entry, or those of the empty
    descriptor when there is none. *)
Definition reportLine (c : dict) (i : nat) : string :=
  match c !! i with
  | Some (_, v) =>
      decodeLevel i (altitudeByte (getMin (airspace v)))
                  (altitudeByte (getMax (airspace v)))
                  (getAngleAsByte v) (getDistanceAsByte v)
  | None => decodeLevel i 0 0 0 0
  end.

(** The size in bytes of a tile's buffer: [filesize] of [dump]. *)
Definition tileSize (cfg : Config) (draw : bool) : nat :=
  Z.to_nat ((if draw then 10 else wantedResolution cfg)
            * (if draw then 10 else wantedResolution cfg)
            * Z.of_nat levels * Z.of_nat sizeof_level).

(** The [try] block of a run of [dump] that does not skip the tile: the
    world and the buffer it starts from are those [dump] has made by then. *)
Definition tileRun `{GeometryProvider} (cfg : Config) (lon lat : Z)
    (airspaces : list Airspace) (draw : bool) (w : world)
    : world * option string * result (list Z) :=
  let filename := tileName lon lat in
  let numPoints := if draw then 10 else wantedResolution cfg in
  let filesize :=
    numPoints * numPoints * Z.of_nat levels * Z.of_nat sizeof_level in
  dump_try airspaces filename lon lat numPoints
    (emit (emit w (Print (Computing filename numPoints))) (Alloc filesize))
    (repeat 0 (Z.to_nat filesize)).

(** A result that is a buffer has [n] bytes. *)
Definition buf_ok (n : nat) (r : result (list Z)) : Prop :=
  match r with
  | Ok o => length o = n
  | Err _ => True
  end.

(** The sampled point has an all-zero record. *)
Definition sample_empty `{GeometryProvider} (airspaces : list Airspace)
    (p : Point) : bool :=
  bool_decide (pointRecord p airspaces
               = Ok (repeat 0 (levels * sizeof_level))).

(** A provider for which an airspace is within reach only of the points at
    longitude 9 + 1/10, and contains those. *)
Definition provider_sample : GeometryProvider := {|
  getDistanceToCenter := fun _ p =>
    if Qeq_bool (px p) (arange_at 9 10 1) then 0 else 1000000000;
  getAirspaceVector := fun a _ => mkVector (aid a) a 640 90 true;
  isTooFar := fun _ => false
|}.

Definition config_seven : Config := mkConfig false 7.

(** The first [levels * sizeof_level] bytes of the buffer are there and are
    zero: what the scan after a sampled point looks for. *)
Definition zero_prefix (out : list Z) : bool :=
  forallb (fun offset => match out !! offset with
                         | Some byte => byte =? 0
                         | None => false
                         end)
          (seq 0 (levels * sizeof_level)).

(** The box of an airspace over Stuttgart and of one over Zurich. *)
Definition box_stuttgart : Box := mkBox (9 # 1) (193 # 4) (19 # 2) (49 # 1).
Definition box_zurich : Box := mkBox (17 # 2) (47 # 1) (35 # 4) (95 # 2).

(* ===================================================================== *)
(** ** The process scheduler of [main] *)
(* ===================================================================== *)

(** The lists of the scheduler: the processes not yet started, the ones
    running, and, as a record of what was done, the processes on which
    [start()] and [join()] were called, in the order of the calls. *)
Record Sched (P : Type) : Type := mkSched {
  procs : list P;
  running : list P;
  started : list P;
  joined : list P
}.
Arguments mkSched {P} _ _ _ _.
Arguments procs {P} _.
Arguments running {P} _.
Arguments started {P} _.
Arguments joined {P} _.

(** [while len(running) < parallelism and len(procs) > 0:
       p = procs.pop(0); p.start(); running.append(p)]. *)
Fixpoint start_procs {P : Type} (parallelism : nat)
    (procs running started : list P) : list P * list P * list P :=
  match procs with
  | [] => (procs, running, started)
  | p :: rest =>
      if (length running <? parallelism)%nat
      then start_procs parallelism rest (running ++ [p]) (started ++ [p])
      else (procs, running, started)
  end.

(** [for i in range(len(running)):
       if not running[i].is_alive(): running[i].join(); del running[i]; break]:
    the list without the first process that is not alive, and that
    process. *)
Fixpoint join_first {P : Type} (is_alive : P -> bool) (running : list P)
    : list P * option P :=
  match running with
  | [] => ([], None)
  | p :: rest =>
      if is_alive p
      then let '(rest', j) := join_first is_alive rest in (p :: rest', j)
      else (rest, Some p)
  end.

(** One turn of the outer loop, up to its [time.sleep(1)]; [is_alive] is
    what the processes answer in this turn. *)
Definition sched_turn {P : Type} (parallelism : nat) (is_alive : P -> bool)
    (s : Sched P) : Sched P :=
  let '(procs', running', started') :=
    start_procs parallelism (procs s) (running s) (started s) in
  let '(running'', j) := join_first is_alive running' in
  mkSched procs' running'' started'
          (joined s ++ match j with Some p => [p] | None => [] end).

(** [len(procs) > 0 or len(running) > 0]. *)
Definition sched_busy {P : Type} (s : Sched P) : bool :=
  (0 <? length (procs s))%nat || (0 <? length (running s))%nat.

(** [while len(procs) > 0 or len(running) > 0: ...] over the answers of
    the turns: the states at the head of each turn, and whether the loop
    has ended within these turns. *)
Fixpoint sched_loop {P : Type} (parallelism : nat)
    (answers : list (P -> bool)) (s : Sched P) : list (Sched P) * bool :=
  if sched_busy s then
    match answers with
    | [] => ([s], false)
    | is_alive :: rest =>
        let '(states, ended) :=
          sched_loop parallelism rest (sched_turn parallelism is_alive s) in
        (s :: states, ended)
    end
  else ([s], true).

(** The scheduler of [main] on the list of processes it has made. *)
Definition schedule {P : Type} (parallelism : nat)
    (answers : list (P -> bool)) (jobs : list P) : list (Sched P) * bool :=
  sched_loop parallelism answers (mkSched jobs [] [] []).

(** What holds of the lists at the head of every turn. *)
Definition sched_ok {P : Type} (parallelism : nat) (jobs : list P)
    (s : Sched P) : Prop :=
  started s ++ procs s = jobs /\
  (length (running s) <= parallelism)%nat /\
  joined s ++ running s ≡ₚ started s.

(** Three tiles, and the answers of four turns in which the process of the
    tile [(8, 47)] is still alive in the first two turns. *)
Definition tiles_three : list (Z * Z) := [(8, 47); (9, 48); (8, 48)].
Definition answers_staggered : list (Z * Z -> bool) :=
  [ (fun t => bool_decide (t = (8, 47))); (fun t => bool_decide (t = (8, 47)));
    (fun _ => false); (fun _ => false) ].

(* ===================================================================== *)
(** ** Concrete inputs *)
(* ===================================================================== *)

(** An airspace between [lo] and [hi] feet MSL. *)
Definition zone (i : nat) (lo hi : Z) : Airspace :=
  mkAirspace i "zone" (lo, false) (hi, false).

(** The vector of a point to [zone i lo hi]. *)
Definition toward (i : nat) (lo hi dist bearing : Z) (ins : bool)
    : AirspaceVector :=
  mkVector i (zone i lo hi) dist bearing ins.

Definition origin : Point := mkPoint 0 0.

(** Six airspaces stacked on one another, the point inside each of them. *)
Definition avs_six_inside : list AirspaceVector :=
  [ toward 0 0 1000 640 0 true;     toward 1 1000 2000 1280 30 true;
    toward 2 2000 3000 1920 60 true; toward 3 3000 4000 2560 90 true;
    toward 4 4000 5000 3200 120 true; toward 5 5000 6000 3840 150 true ].

Definition dict_six_inside : dict :=
  [ ((0, false), toward 0 0 1000 640 0 true);
    ((1000, false), toward 1 1000 2000 1280 30 true);
    ((2000, false), toward 2 2000 3000 1920 60 true);
    ((3000, false), toward 3 3000 4000 2560 90 true);
    ((4000, false), toward 4 4000 5000 3200 120 true);
    ((5000, false), toward 5 5000 6000 3840 150 true) ].

(** A distant airspace from 0 to 7000 ft that the point is outside of,
    and three thin airspaces inside it that contain the point. *)
Definition far_outside : AirspaceVector := toward 0 0 7000 64000 0 false.

Definition avs_interleaved : list AirspaceVector :=
  [ far_outside; toward 1 1000 2000 640 90 true;
    toward 2 3000 4000 640 180 true; toward 3 5000 6000 640 270 true ].

Definition dict_interleaved : dict :=
  [ ((0, false), far_outside);
    ((1000, false), toward 1 1000 2000 640 90 true);
    ((2000, false), far_outside);
    ((3000, false), toward 2 3000 4000 640 180 true);
    ((4000, false), far_outside);
    ((5000, false), toward 3 5000 6000 640 270 true);
    ((6000, false), far_outside) ].

(** Six stacked airspaces at one distance; the bearings of the lowest three
    are 12 degrees apart, 4 units of the bearing byte. *)
Definition avs_near : list AirspaceVector :=
  [ toward 0 0 1000 640 0 false;      toward 1 1000 2000 640 12 false;
    toward 2 2000 3000 640 24 false;  toward 3 3000 4000 640 90 false;
    toward 4 4000 5000 640 180 false; toward 5 5000 6000 640 270 false ].

Definition dict_near : dict :=
  [ ((0, false), toward 0 0 1000 640 0 false);
    ((1000, false), toward 1 1000 2000 640 12 false);
    ((2000, false), toward 2 2000 3000 640 24 false);
    ((3000, false), toward 3 3000 4000 640 90 false);
    ((4000, false), toward 4 4000 5000 640 180 false);
    ((5000, false), toward 5 5000 6000 640 270 false) ].

(** Seven stacked airspaces that the point is outside of, at seven
    distances. *)
Definition dict_seven_outside : dict :=
  [ ((0, false), toward 0 0 1000 6400 0 false);
    ((1000, false), toward 1 1000 2000 640 30 false);
    ((2000, false), toward 2 2000 3000 12800 60 false);
    ((3000, false), toward 3 3000 4000 1280 90 false);
    ((4000, false), toward 4 4000 5000 1920 120 false);
    ((5000, false), toward 5 5000 6000 2560 150 false);
    ((6000, false), toward 6 6000 7000 3200 180 false) ].

(** Two vectors over one band, both inside, at one distance; and a nearer
    one outside. *)
Definition avs_tie : list AirspaceVector :=
  [ toward 0 0 1000 100 0 false; toward 1 0 1000 640 90 true;
    toward 2 0 1000 640 180 true ].

(** A provider for which every airspace contains every point, each at its
    own distance and bearing. *)
Definition provider_inside : GeometryProvider := {|
  getDistanceToCenter := fun _ _ => 0;
  getAirspaceVector := fun a _ =>
    mkVector (aid a) a (640 * (Z.of_nat (aid a) + 1))
             (30 * Z.of_nat (aid a)) true;
  isTooFar := fun _ => false
|}.

(** A provider for which an airspace is within reach only of the points at
    longitude 9 + 1/20, and contains those. *)
Definition provider_sliver : GeometryProvider := {|
  getDistanceToCenter := fun _ p =>
    if Qeq_bool (px p) (arange_at 9 20 1) then 0 else 1000000000;
  getAirspaceVector := fun a _ => mkVector (aid a) a 640 90 true;
  isTooFar := fun _ => false
|}.

Definition one_zone : list Airspace := [zone 0 0 5000].

(** A working directory with the tile of 48N 9E in it. *)
Definition world_with_tile : world :=
  mkWorld {[ "N48E009.air" := [1; 2; 3] ]} [].

Definition world_empty : world := mkWorld ∅ [].

Definition config_default : Config := mkConfig false 300.

Definition config_coarse : Config := mkConfig false 20.

(** A low airspace from 0 to 3000 ft and a farther one within its band:
    three bands, one airspace chosen for all of them. *)
Definition avs_run : list AirspaceVector :=
  [ toward 0 0 3000 640 0 false; toward 1 1000 2000 6400 0 false ].

Definition dict_run : dict :=
  [ ((0, false), toward 0 0 3000 640 0 false);
    ((1000, false), toward 0 0 3000 640 0 false);
    ((2000, false), toward 0 0 3000 640 0 false) ].

(** The point is inside one airspace from 0 ft AGL to 5000 ft MSL. *)
Definition avs_single : list AirspaceVector :=
  [ mkVector 0 (mkAirspace 0 "CTR" (0, true) (5000, false)) 640 90 true ].

(** Six airspaces stacked from 0 to 6000 ft. *)
Definition six_zones : list Airspace :=
  [ zone 0 0 1000; zone 1 1000 2000; zone 2 2000 3000;
    zone 3 3000 4000; zone 4 4000 5000; zone 5 5000 6000 ].

(* ===================================================================== *)
(** * Properties *)
(* ===================================================================== *)

(** ** The order on altitudes *)

Lemma ht_ltb_code a b : ht_ltb a b = (hcode a <? hcode b).
Proof.
  destruct a as [x [|]], b as [y [|]]; unfold ht_ltb, hcode; cbn [fst snd];
    destruct (Z.ltb_spec x y), (Z.eqb_spec x y); cbn;
    symmetry; first [apply Z.ltb_lt; lia | apply Z.ltb_ge; lia].
Qed.

Lemma ht_leb_code a b : ht_leb a b = (hcode a <=? hcode b).
Proof.
  destruct a as [x [|]], b as [y [|]]; unfold ht_leb, hcode; cbn [fst snd];
    destruct (Z.ltb_spec x y), (Z.eqb_spec x y); cbn;
    symmetry; first [apply Z.leb_le; lia | apply Z.leb_gt; lia].
Qed.

Lemma hcode_inj a b : hcode a = hcode b -> a = b.
Proof.
  destruct a as [x [|]], b as [y [|]]; unfold hcode; cbn [fst snd];
    intros; f_equal; lia.
Qed.

Lemma ht_ltb_lt a b : ht_ltb a b = true <-> hcode a < hcode b.
Proof. rewrite ht_ltb_code. apply Z.ltb_lt. Qed.

Lemma ht_ltb_ge a b : ht_ltb a b = false <-> hcode b <= hcode a.
Proof. rewrite ht_ltb_code. apply Z.ltb_ge. Qed.

Lemma ht_leb_le a b : ht_leb a b = true <-> hcode a <= hcode b.
Proof. rewrite ht_leb_code. apply Z.leb_le. Qed.

Lemma ht_leb_gt a b : ht_leb a b = false <-> hcode b < hcode a.
Proof. rewrite ht_leb_code. apply Z.leb_gt. Qed.

(** Turns every altitude comparison in sight into an inequality of codes. *)
Ltac ht_norm :=
  unfold ht_gtb, ht_geb, ht_min in *;
  repeat match goal with
  | H : ht_ltb _ _ = true |- _ => apply ht_ltb_lt in H
  | H : ht_ltb _ _ = false |- _ => apply ht_ltb_ge in H
  | H : ht_leb _ _ = true |- _ => apply ht_leb_le in H
  | H : ht_leb _ _ = false |- _ => apply ht_leb_gt in H
  | |- ht_ltb _ _ = true => apply ht_ltb_lt
  | |- ht_ltb _ _ = false => apply ht_ltb_ge
  | |- ht_leb _ _ = true => apply ht_leb_le
  | |- ht_leb _ _ = false => apply ht_leb_gt
  end.

Ltac ht_lia := ht_norm; try lia.

Lemma ht_lt_irrefl a : ht_ltb a a = false.
Proof. ht_lia. Qed.

Lemma ht_lt_trans a b c :
  ht_ltb a b = true -> ht_ltb b c = true -> ht_ltb a c = true.
Proof. intros; ht_lia. Qed.

Lemma ht_total a b : ht_ltb a b = false -> ht_ltb b a = false -> a = b.
Proof. intros; ht_norm; apply hcode_inj; lia. Qed.

(** ** First minimum of a list under a key *)

Section FirstBest.
Context {A : Type} (key : A -> Z).
Variable step : option A -> A -> option A.
Hypothesis step_none : forall v, step None v = Some v.
Hypothesis step_some : forall n v,
  step (Some n) v = if key v <? key n then Some v else Some n.

Lemma fold_step_some l : forall n,
  exists v, fold_left step l (Some n) = Some v /\
    ((v = n /\ forall w, In w l -> key n <= key w) \/
     (key v < key n /\ exists l1 l2, l = l1 ++ v :: l2 /\
        (forall w, In w l1 -> key v < key w) /\
        (forall w, In w l2 -> key v <= key w))).
Proof.
  induction l as [|x l IH]; intros n; cbn [fold_left].
  - exists n. split; [reflexivity|]. left. split; [reflexivity|]. intros w [].
  - rewrite step_some. destruct (Z.ltb_spec (key x) (key n)) as [Hlt|Hge].
    + destruct (IH x) as (v & Hv & [[-> Hall]|(Hk & l1 & l2 & -> & H1 & H2)]).
      * exists x. split; [exact Hv|]. right. split; [exact Hlt|].
        exists [], l. split; [reflexivity|]. split; [intros w []|exact Hall].
      * exists v. split; [exact Hv|]. right. split; [lia|].
        exists (x :: l1), l2. split; [reflexivity|]. split; [|exact H2].
        intros w [<-|Hw]; [lia|auto].
    + destruct (IH n) as (v & Hv & [[-> Hall]|(Hk & l1 & l2 & -> & H1 & H2)]).
      * exists n. split; [exact Hv|]. left. split; [reflexivity|].
        intros w [<-|Hw]; [lia|auto].
      * exists v. split; [exact Hv|]. right. split; [exact Hk|].
        exists (x :: l1), l2. split; [reflexivity|]. split; [|exact H2].
        intros w [<-|Hw]; [lia|auto].
Qed.

Lemma fold_step_first l :
  match fold_left step l None with
  | None => l = []
  | Some v => exists l1 l2, l = l1 ++ v :: l2 /\
      (forall w, In w l1 -> key v < key w) /\
      (forall w, In w l2 -> key v <= key w)
  end.
Proof.
  destruct l as [|x l]; [reflexivity|]. cbn [fold_left]. rewrite step_none.
  destruct (fold_step_some l x)
    as (v & -> & [[-> Hall]|(Hk & l1 & l2 & -> & H1 & H2)]).
  - exists [], l. split; [reflexivity|]. split; [intros w []|exact Hall].
  - exists (x :: l1), l2. split; [reflexivity|]. split; [|exact H2].
    intros w [<-|Hw]; [lia|auto].
Qed.

Lemma filter_split (P : A -> bool) l : forall l1 v l2,
  List.filter P l = l1 ++ v :: l2 ->
  exists m1 m2, l = m1 ++ v :: m2 /\ List.filter P m1 = l1 /\
    List.filter P m2 = l2 /\ P v = true.
Proof.
  induction l as [|x l IH]; intros l1 v l2 Hf; cbn [List.filter] in Hf.
  - destruct l1; discriminate.
  - destruct (P x) eqn:Hx.
    + destruct l1 as [|y l1]; cbn in Hf; injection Hf as -> Hf.
      * exists [], l. cbn. auto.
      * destruct (IH _ _ _ Hf) as (m1 & m2 & -> & <- & <- & Hv).
        exists (y :: m1), m2. cbn. rewrite Hx. auto.
    + destruct (IH _ _ _ Hf) as (m1 & m2 & -> & <- & <- & Hv).
      exists (x :: m1), m2. cbn. rewrite Hx. auto.
Qed.

(** The fold over the [P]-filtered list returns the first best of the
    whole list, or nothing when no element satisfies [P]. *)
Lemma fold_step_filter (P : A -> bool) l :
  match fold_left step (List.filter P l) None with
  | None => forall w, In w l -> P w = false
  | Some v => first_best key P l v
  end.
Proof.
  pose proof (fold_step_first (List.filter P l)) as H.
  destruct (fold_left step (List.filter P l) None) as [v|].
  - destruct H as (l1 & l2 & Hf & H1 & H2).
    destruct (filter_split P l _ _ _ Hf) as (m1 & m2 & -> & <- & <- & Hv).
    exists m1, m2. split; [reflexivity|]. split; [exact Hv|].
    split; intros w Hw HP; [apply H1|apply H2];
      apply List.filter_In; auto.
  - intros w Hw. destruct (P w) eqn:HP; [|reflexivity].
    assert (In w (List.filter P l)) as Hin by (apply List.filter_In; auto).
    rewrite H in Hin. destruct Hin.
Qed.
End FirstBest.

(** ** Nearest and farthest vector *)

Lemma findNearest_filter (P : AirspaceVector -> bool) l :
  match findNearestAirspace (List.filter P l) with
  | None => forall w, In w l -> P w = false
  | Some v => first_best distance P l v
  end.
Proof.
  apply (fold_step_filter distance nearest_step); reflexivity.
Qed.

Lemma findFarest_filter (P : AirspaceVector -> bool) l :
  match findFarestAirspace (List.filter P l) with
  | None => forall w, In w l -> P w = false
  | Some v => first_best (fun w => - distance w) P l v
  end.
Proof.
  apply (fold_step_filter (fun w => - distance w) farest_step);
    [reflexivity|].
  intros n v. cbn [farest_step]. rewrite Z.gtb_ltb.
  destruct (Z.ltb_spec (distance n) (distance v)),
           (Z.ltb_spec (- distance v) (- distance n)); try reflexivity; lia.
Qed.

Lemma filter_filter_andb {A} (P Q : A -> bool) l :
  List.filter Q (List.filter P l) = List.filter (fun x => P x && Q x) l.
Proof.
  induction l as [|x l IH]; [reflexivity|]. cbn [List.filter].
  destruct (P x); cbn [andb List.filter]; [destruct (Q x)|]; congruence.
Qed.

Lemma length_zero_nil {A} (l : list A) : (length l =? 0)%nat = true <-> l = [].
Proof. destruct l; cbn; split; congruence. Qed.

(** C3.  In a height band, when some vector covering the band
    ([floor <= h < ceiling]) is inside, the band's vector is the inside
    covering vector of least distance, the first such in input order; when
    none is inside, it is the covering vector of least distance, again the
    first in input order (and there is none when nothing covers the band). *)
Theorem chooseBand_first_nearest (avs : list AirspaceVector) (h : height) :
  ((exists w, In w avs /\ covers h w = true /\ inside w = true) ->
   exists v, chooseBand avs h = Some v /\
     first_best distance (fun w => covers h w && inside w) avs v) /\
  ((forall w, In w avs -> covers h w = true -> inside w = false) ->
   match chooseBand avs h with
   | Some v => first_best distance (covers h) avs v
   | None => forall w, In w avs -> covers h w = false
   end).
Proof.
  unfold chooseBand, findAirspacesInHeight, findAirspacesInside.
  rewrite filter_filter_andb.
  pose proof (findNearest_filter (fun w => covers h w && inside w) avs) as Hin.
  pose proof (findNearest_filter (covers h) avs) as Hall.
  destruct (length (List.filter (fun w => covers h w && inside w) avs) =? 0)%nat
    eqn:Hlen; cbn [negb].
  - apply length_zero_nil in Hlen. rewrite Hlen in Hin. cbn in Hin. split.
    + intros (w & Hw & Hc & Hi). specialize (Hin w Hw).
      rewrite Hc, Hi in Hin. discriminate.
    + intros _. exact Hall.
  - split.
    + intros _.
      destruct (findNearestAirspace
                  (List.filter (fun w => covers h w && inside w) avs))
        as [v|] eqn:Hn.
      * exists v. split; [reflexivity|exact Hin].
      * destruct (List.filter (fun w => covers h w && inside w) avs)
          as [|x l] eqn:Hf; [discriminate|].
        assert (In x (List.filter (fun w => covers h w && inside w) avs)) as Hx
          by (rewrite Hf; left; reflexivity).
        apply List.filter_In in Hx. destruct Hx as [Hx HP].
        rewrite (Hin x Hx) in HP. discriminate.
    + intros Hno.
      destruct (List.filter (fun w => covers h w && inside w) avs)
        as [|x l] eqn:Hf; [discriminate|].
      assert (In x (List.filter (fun w => covers h w && inside w) avs)) as Hx
        by (rewrite Hf; left; reflexivity).
      apply List.filter_In in Hx. destruct Hx as [Hx HP].
      apply andb_true_iff in HP. destruct HP as [Hc Hi].
      rewrite (Hno x Hx Hc) in Hi. discriminate.
Qed.

(** ** The height sweep *)

Lemma lowest_fold l : forall m,
  exists m', fold_left lowest_step l (Some m) = Some m' /\
    ht_leb m' m = true /\
    (forall v, In v l -> ht_leb m' (getMin (airspace v)) = true) /\
    (m' = m \/ exists v, In v l /\ getMin (airspace v) = m').
Proof.
  induction l as [|x l IH]; intros m; cbn [fold_left].
  - exists m. repeat split; [ht_lia|intros v []|left; reflexivity].
  - cbn [lowest_step].
    destruct (ht_leb (getMin (airspace x)) m) eqn:Hle.
    + destruct (IH (getMin (airspace x))) as (m' & -> & H1 & H2 & H3).
      exists m'. repeat split; [ht_lia| |].
      * intros v [<-|Hv]; [exact H1|auto].
      * right. destruct H3 as [->|(v & Hv & <-)]; [exists x|exists v];
          split; auto; [left|right]; auto.
    + destruct (IH m) as (m' & -> & H1 & H2 & H3).
      exists m'. repeat split; [exact H1| |].
      * intros v [<-|Hv]; [ht_lia|auto].
      * destruct H3 as [->|(v & Hv & <-)]; [left; reflexivity|].
        right. exists v. split; [right|]; auto.
Qed.

Lemma findLowest_spec avs :
  match findLowestHeightInAirspaces avs with
  | None => avs = []
  | Some m => is_min_floor avs m
  end.
Proof.
  destruct avs as [|x l]; [reflexivity|].
  unfold findLowestHeightInAirspaces. cbn [fold_left lowest_step].
  destruct (lowest_fold l (getMin (airspace x))) as (m' & -> & H1 & H2 & H3).
  split.
  - destruct H3 as [->|(v & Hv & <-)]; [exists x|exists v];
      split; auto; [left|right]; auto.
  - intros v [<-|Hv]; [exact H1|auto].
Qed.

Lemma highest_fold l : forall m,
  exists m', fold_left highest_step l (Some m) = Some m' /\
    ht_leb m m' = true /\
    (forall v, In v l -> ht_leb (getMax (airspace v)) m' = true) /\
    (m' = m \/ exists v, In v l /\ getMax (airspace v) = m').
Proof.
  induction l as [|x l IH]; intros m; cbn [fold_left].
  - exists m. repeat split; [ht_lia|intros v []|left; reflexivity].
  - cbn [highest_step].
    destruct (ht_gtb (getMax (airspace x)) m) eqn:Hgt; unfold ht_gtb in Hgt.
    + destruct (IH (getMax (airspace x))) as (m' & -> & H1 & H2 & H3).
      exists m'. repeat split; [ht_lia| |].
      * intros v [<-|Hv]; [exact H1|auto].
      * right. destruct H3 as [->|(v & Hv & <-)]; [exists x|exists v];
          split; auto; [left|right]; auto.
    + destruct (IH m) as (m' & -> & H1 & H2 & H3).
      exists m'. repeat split; [exact H1| |].
      * intros v [<-|Hv]; [ht_lia|auto].
      * destruct H3 as [->|(v & Hv & <-)]; [left; reflexivity|].
        right. exists v. split; [right|]; auto.
Qed.

Lemma findHighest_spec avs :
  match findHighestHeightInAirspaces avs with
  | None => avs = []
  | Some m => is_max_ceiling avs m
  end.
Proof.
  destruct avs as [|x l]; [reflexivity|].
  unfold findHighestHeightInAirspaces. cbn [fold_left highest_step].
  destruct (highest_fold l (getMax (airspace x))) as (m' & -> & H1 & H2 & H3).
  split.
  - destruct H3 as [->|(v & Hv & <-)]; [exists x|exists v];
      split; auto; [left|right]; auto.
  - intros v [<-|Hv]; [exact H1|auto].
Qed.

Lemma next_update_ok h seen acc b :
  next_ok h seen acc -> next_ok h (seen ++ [b]) (next_update h acc b).
Proof.
  unfold next_update, ht_gtb. intros Hok.
  destruct (ht_ltb h b) eqn:Hb.
  - destruct acc as [n|]; cbn [next_ok] in *.
    + destruct Hok as (Hn & Hhn & Hmin). unfold ht_min.
      destruct (ht_ltb b n) eqn:Hbn.
      * split; [apply in_or_app; right; left; reflexivity|].
        split; [exact Hb|]. intros c Hc Hhc.
        apply in_app_or in Hc. destruct Hc as [Hc|[<-|[]]]; [|ht_lia].
        specialize (Hmin c Hc Hhc). ht_lia.
      * split; [apply in_or_app; left; exact Hn|].
        split; [exact Hhn|]. intros c Hc Hhc.
        apply in_app_or in Hc. destruct Hc as [Hc|[<-|[]]]; [auto|ht_lia].
    + split; [apply in_or_app; right; left; reflexivity|].
      split; [exact Hb|]. intros c Hc Hhc.
      apply in_app_or in Hc. destruct Hc as [Hc|[<-|[]]]; [|ht_lia].
      rewrite (Hok c Hc) in Hhc. discriminate.
  - destruct acc as [n|]; cbn [next_ok] in *.
    + destruct Hok as (Hn & Hhn & Hmin).
      split; [apply in_or_app; left; exact Hn|].
      split; [exact Hhn|]. intros c Hc Hhc.
      apply in_app_or in Hc. destruct Hc as [Hc|[<-|[]]]; [auto|congruence].
    + intros c Hc. apply in_app_or in Hc.
      destruct Hc as [Hc|[<-|[]]]; auto.
Qed.

Lemma next_fold_ok h l : forall seen acc,
  next_ok h seen acc ->
  next_ok h (seen ++ breakpoints l) (fold_left (next_step h) l acc).
Proof.
  induction l as [|x l IH]; intros seen acc Hok; cbn [fold_left breakpoints flat_map].
  - rewrite app_nil_r. exact Hok.
  - change (breakpoints l) with (flat_map (fun v => [getMin (airspace v); getMax (airspace v)]) l) in IH.
    replace (seen ++ [getMin (airspace x); getMax (airspace x)] ++
             flat_map (fun v => [getMin (airspace v); getMax (airspace v)]) l)
      with (((seen ++ [getMin (airspace x)]) ++ [getMax (airspace x)]) ++
            flat_map (fun v => [getMin (airspace v); getMax (airspace v)]) l)
      by (rewrite <- !app_assoc; reflexivity).
    apply IH. unfold next_step. apply next_update_ok, next_update_ok, Hok.
Qed.

Lemma findNext_spec avs h :
  match findNextHeightInAirspaces avs h with
  | None => forall b, In b (breakpoints avs) -> ht_ltb h b = false
  | Some n => least_above avs h n
  end.
Proof.
  pose proof (next_fold_ok h avs [] None) as H. cbn [app] in H.
  apply H. intros b [].
Qed.

Lemma least_above_unique avs h n n' :
  least_above avs h n -> least_above avs h n' -> n = n'.
Proof.
  intros (H1 & H2 & H3) (H1' & H2' & H3').
  specialize (H3 _ H1' H2'). specialize (H3' _ H1 H2).
  apply hcode_inj. ht_lia.
Qed.

Lemma filter_length_lt {A} (P Q : A -> bool) l x :
  (forall y, Q y = true -> P y = true) ->
  In x l -> P x = true -> Q x = false ->
  (length (List.filter Q l) < length (List.filter P l))%nat.
Proof.
  intros Himp. induction l as [|y l IH]; intros Hin HP HQ; [destruct Hin|].
  assert (length (List.filter Q l) <= length (List.filter P l))%nat as Hle.
  { clear -Himp. induction l as [|z l IH]; cbn [List.filter]; [lia|].
    destruct (Q z) eqn:Hz.
    - rewrite (Himp z Hz). cbn [length]. lia.
    - destruct (P z); cbn [length]; lia. }
  cbn [List.filter]. destruct Hin as [->|Hin].
  - rewrite HP, HQ. cbn [length]. lia.
  - specialize (IH Hin HP HQ). destruct (Q y) eqn:Hy.
    + rewrite (Himp y Hy). cbn [length]. lia.
    + destruct (P y); cbn [length]; lia.
Qed.

Lemma count_above_decr avs h n :
  In n (breakpoints avs) -> ht_ltb h n = true ->
  (count_above avs n < count_above avs h)%nat.
Proof.
  intros Hin Hlt. unfold count_above.
  apply (filter_length_lt (ht_ltb h) (ht_ltb n) _ n); auto.
  - intros y Hy. ht_lia.
  - ht_lia.
Qed.

Lemma breakpoints_length avs : length (breakpoints avs) = (2 * length avs)%nat.
Proof.
  unfold breakpoints. induction avs as [|x l IH]; [reflexivity|].
  cbn [flat_map app length]. rewrite IH. cbn [length]. lia.
Qed.

Lemma count_above_le avs h : (count_above avs h <= 2 * length avs)%nat.
Proof.
  unfold count_above. rewrite <- breakpoints_length. apply List.filter_length_le.
Qed.

Lemma dict_set_fresh (d : dict) k v :
  ~ In k (dict_keys d) -> dict_set d k v = d ++ [(k, v)].
Proof.
  induction d as [|[k' v'] d IH]; intros Hk; [reflexivity|].
  cbn [dict_set]. destruct (decide (k = k')) as [->|Hne].
  - exfalso. apply Hk. left. reflexivity.
  - cbn [app]. f_equal. apply IH. intros Hin. apply Hk. right. exact Hin.
Qed.

Lemma band_entries_cons avs h rest :
  band_entries avs (h :: rest)
  = match chooseBand avs h with
    | Some v => (h, v) :: band_entries avs rest
    | None => band_entries avs rest
    end.
Proof. unfold band_entries. cbn. destruct (chooseBand avs h); reflexivity. Qed.

Lemma band_entries_app avs h rest :
  band_entries avs (h :: rest) = band_entries avs [h] ++ band_entries avs rest.
Proof.
  rewrite !band_entries_cons. destruct (chooseBand avs h); reflexivity.
Qed.

Lemma sweep_loop_spec avs hMax : forall fuel h d,
  In hMax (breakpoints avs) ->
  (count_above avs h < fuel)%nat ->
  ht_ltb h hMax = true ->
  (forall k, In k (dict_keys d) -> ht_ltb k h = true) ->
  exists rest, sweep_chain avs hMax h rest /\
    sweep_loop fuel avs (Some hMax) (Some h) d
    = Ok (d ++ band_entries avs (h :: rest)).
Proof.
  induction fuel as [|fuel IH]; intros h d Hmax Hfuel Hlt Hkeys; [lia|].
  cbn [sweep_loop]. rewrite Hlt.
  set (d' := match chooseBand avs h with
             | Some v => dict_set d h v
             | None => d
             end).
  assert (d' = d ++ band_entries avs [h]) as Hd'.
  { unfold d'. rewrite band_entries_cons. destruct (chooseBand avs h) as [v|].
    - apply dict_set_fresh. intros Hin. specialize (Hkeys _ Hin). ht_lia.
    - cbn. rewrite app_nil_r. reflexivity. }
  pose proof (findNext_spec avs h) as Hnext.
  destruct (findNextHeightInAirspaces avs h) as [n|].
  2:{ rewrite (Hnext _ Hmax) in Hlt. discriminate. }
  destruct (ht_ltb n hMax) eqn:Hn.
  - destruct Hnext as (Hin & Hhn & Hmin).
    destruct (IH n d' Hmax) as (rest & Hchain & Heq).
    + pose proof (count_above_decr avs h n Hin Hhn). lia.
    + exact Hn.
    + intros k Hk. rewrite Hd' in Hk. unfold dict_keys in Hk.
      rewrite map_app in Hk. apply in_app_or in Hk. destruct Hk as [Hk|Hk].
      * specialize (Hkeys _ Hk). ht_lia.
      * rewrite band_entries_cons in Hk.
        destruct (chooseBand avs h); cbn in Hk; [|destruct Hk].
        destruct Hk as [<-|[]]. exact Hhn.
    + exists (n :: rest). split.
      * cbn [sweep_chain]. split; [exact Hlt|]. split; [|exact Hchain].
        split; auto.
      * rewrite Heq, Hd', <- app_assoc, <- band_entries_app. reflexivity.
  - exists []. split.
    + cbn [sweep_chain]. split; [exact Hlt|]. intros n' Hn'.
      rewrite <- (least_above_unique _ _ _ _ Hnext Hn'). exact Hn.
    + destruct fuel; cbn [sweep_loop]; rewrite Hn, Hd'; reflexivity.
Qed.

Lemma chooseBand_none avs h :
  chooseBand avs h = None <-> forall w, In w avs -> covers h w = false.
Proof.
  unfold chooseBand, findAirspacesInHeight, findAirspacesInside.
  rewrite filter_filter_andb.
  pose proof (findNearest_filter (fun w => covers h w && inside w) avs) as Hin.
  pose proof (findNearest_filter (covers h) avs) as Hall.
  destruct (length (List.filter (fun w => covers h w && inside w) avs) =? 0)%nat
    eqn:Hlen; cbn [negb].
  - destruct (findNearestAirspace (List.filter (covers h) avs)) as [v|].
    + split; [discriminate|]. intros Hno.
      destruct Hall as (l1 & l2 & -> & Hv & _).
      rewrite Hno in Hv; [discriminate|]. apply in_or_app. right. left.
      reflexivity.
    + split; auto.
  - destruct (List.filter (fun w => covers h w && inside w) avs)
      as [|x l] eqn:Hf; [discriminate|].
    assert (In x (List.filter (fun w => covers h w && inside w) avs)) as Hx
      by (rewrite Hf; left; reflexivity).
    apply List.filter_In in Hx. destruct Hx as [Hx HP].
    apply andb_true_iff in HP. destruct HP as [Hc Hi].
    destruct (findNearestAirspace (x :: l)) as [v|].
    + split; [discriminate|]. intros Hno. rewrite (Hno x Hx) in Hc.
      discriminate.
    + specialize (Hin x Hx). rewrite Hc, Hi in Hin. discriminate.
Qed.

(** ** Dictionaries with ascending keys *)

Lemma ascending_NoDup l : ascending l -> NoDup l.
Proof.
  induction l as [|k l IH]; intros Hasc; [constructor|].
  destruct Hasc as [Hk Hl]. constructor; [|auto].
  intros Hin. apply list_elem_of_In in Hin. specialize (Hk _ Hin).
  rewrite ht_lt_irrefl in Hk. discriminate.
Qed.

Lemma ascending_app_inv l1 l2 :
  ascending (l1 ++ l2) ->
  ascending l1 /\ ascending l2 /\
  forall a b, In a l1 -> In b l2 -> ht_ltb a b = true.
Proof.
  induction l1 as [|k l1 IH]; cbn [app ascending]; intros Hasc.
  - repeat split; [exact Hasc|]. intros a b [].
  - destruct Hasc as [Hk Hl]. destruct (IH Hl) as (H1 & H2 & H3).
    repeat split; auto.
    + intros k' Hk'. apply Hk, in_or_app. left. exact Hk'.
    + intros a b [<-|Ha] Hb; [|auto]. apply Hk, in_or_app. right. exact Hb.
Qed.

Lemma sorted_insert_last k acc :
  (forall x, In x acc -> ht_ltb x k = true) -> sorted_insert k acc = acc ++ [k].
Proof.
  induction acc as [|x acc IH]; intros Hlt; [reflexivity|].
  cbn [sorted_insert].
  assert (ht_ltb k x = false) as ->
    by (specialize (Hlt x (or_introl eq_refl)); ht_lia).
  cbn [app]. f_equal. apply IH. intros y Hy. apply Hlt. right. exact Hy.
Qed.

Lemma sorted_fold l : forall acc,
  ascending (acc ++ l) ->
  fold_left (fun a k => sorted_insert k a) l acc = acc ++ l.
Proof.
  induction l as [|k l IH]; intros acc Hasc; cbn [fold_left].
  - rewrite app_nil_r. reflexivity.
  - rewrite sorted_insert_last.
    + rewrite IH; rewrite <- app_assoc; [reflexivity|exact Hasc].
    + intros x Hx. destruct (ascending_app_inv _ _ Hasc) as (_ & _ & H).
      apply H; [exact Hx|left; reflexivity].
Qed.

(** [sorted] leaves an ascending list as it is. *)
Lemma sorted_ascending l : ascending l -> sorted l = l.
Proof. intros Hasc. unfold sorted. apply (sorted_fold l []). exact Hasc. Qed.

Lemma dict_keys_app (d1 d2 : dict) :
  dict_keys (d1 ++ d2) = dict_keys d1 ++ dict_keys d2.
Proof. apply map_app. Qed.

Lemma dict_get_app (d1 d2 : dict) k v :
  ~ In k (dict_keys d1) -> dict_get (d1 ++ (k, v) :: d2) k = Ok v.
Proof.
  induction d1 as [|[k' v'] d1 IH]; intros Hk; cbn [app dict_get].
  - destruct (decide (k = k)); [reflexivity|congruence].
  - destruct (decide (k = k')) as [->|Hne].
    + exfalso. apply Hk. left. reflexivity.
    + apply IH. intros Hin. apply Hk. right. exact Hin.
Qed.

Lemma NoDup_app_head {A} (l1 l2 : list A) x :
  NoDup (l1 ++ x :: l2) -> ~ In x l1 /\ ~ In x l2.
Proof.
  intros Hnd. apply NoDup_app in Hnd. destruct Hnd as (_ & Hdis & Hnd2).
  apply NoDup_cons in Hnd2. destruct Hnd2 as [Hx _]. split.
  - intros Hin. apply list_elem_of_In in Hin. apply (Hdis _ Hin). left.
  - intros Hin. apply Hx, list_elem_of_In. exact Hin.
Qed.

(** ** The loop of passes 1 and 2 as a walk over the entries *)

Lemma pass1_loop_eq d h1 h2 hs acc :
  pass1_loop d (h1 :: h2 :: hs) acc
  = (v1 ← dict_get d h1; v2 ← dict_get d h2;
     if decide (airspace v1 <> airspace v2)
     then pass1_loop d (h2 :: hs) (dict_set acc h2 v2)
     else pass1_loop d (h2 :: hs) acc).
Proof. reflexivity. Qed.

Lemma pass2_loop_eq d h1 h2 hs acc :
  pass2_loop d (h1 :: h2 :: hs) acc
  = (v1 ← dict_get d h1; v2 ← dict_get d h2;
     if differs v1 v2
     then pass2_loop d (h2 :: hs) (dict_set acc h2 v2)
     else pass2_loop d (h2 :: hs) acc).
Proof. reflexivity. Qed.

Lemma pair_loop_eq keep d h1 h2 hs acc :
  pair_loop keep d (h1 :: h2 :: hs) acc
  = (v1 ← dict_get d h1; v2 ← dict_get d h2;
     if keep v1 v2
     then pair_loop keep d (h2 :: hs) (dict_set acc h2 v2)
     else pair_loop keep d (h2 :: hs) acc).
Proof. reflexivity. Qed.

Lemma pass1_loop_pair d hs acc :
  pass1_loop d hs acc = pair_loop other_airspace d hs acc.
Proof.
  revert acc. induction hs as [|h1 hs IH]; intros acc; [reflexivity|].
  destruct hs as [|h2 hs]; [reflexivity|].
  rewrite pass1_loop_eq, pair_loop_eq.
  destruct (dict_get d h1) as [v1|]; [|reflexivity]. cbn [mbind result_bind].
  destruct (dict_get d h2) as [v2|]; [|reflexivity]. cbn [mbind result_bind].
  unfold other_airspace.
  destruct (decide (airspace v1 <> airspace v2)) as [Hne|Heq].
  - rewrite bool_decide_eq_true_2 by exact Hne. apply IH.
  - rewrite bool_decide_eq_false_2 by exact Heq. apply IH.
Qed.

Lemma pass2_loop_pair d hs acc :
  pass2_loop d hs acc = pair_loop differs d hs acc.
Proof.
  revert acc. induction hs as [|h1 hs IH]; intros acc; [reflexivity|].
  destruct hs as [|h2 hs]; [reflexivity|].
  rewrite pass2_loop_eq, pair_loop_eq.
  destruct (dict_get d h1) as [v1|]; [|reflexivity]. cbn [mbind result_bind].
  destruct (dict_get d h2) as [v2|]; [|reflexivity]. cbn [mbind result_bind].
  destruct (differs v1 v2); apply IH.
Qed.

Lemma pair_loop_walk keep rest : forall pre k1 v1 acc,
  NoDup (dict_keys (pre ++ (k1, v1) :: rest)) ->
  (forall k, In k (dict_keys acc) -> In k (dict_keys (pre ++ [(k1, v1)]))) ->
  pair_loop keep (pre ++ (k1, v1) :: rest) (k1 :: dict_keys rest) acc
  = Ok (acc ++ keep_after keep v1 rest).
Proof.
  induction rest as [|[k2 v2] rest IH]; intros pre k1 v1 acc Hnd Hacc.
  - cbn. rewrite app_nil_r. reflexivity.
  - cbn [dict_keys map fst keep_after]. rewrite pair_loop_eq.
    pose proof Hnd as Hnd'. rewrite dict_keys_app in Hnd'.
    apply NoDup_app_head in Hnd'. destruct Hnd' as [Hk1 _].
    rewrite (dict_get_app pre _ k1 v1) by exact Hk1.
    cbn [mbind result_bind].
    assert (pre ++ (k1, v1) :: (k2, v2) :: rest
            = (pre ++ [(k1, v1)]) ++ (k2, v2) :: rest) as Hd
      by (rewrite <- app_assoc; reflexivity).
    rewrite Hd in Hnd |- *.
    pose proof Hnd as Hnd'. rewrite dict_keys_app in Hnd'.
    apply NoDup_app_head in Hnd'. destruct Hnd' as [Hk2 _].
    rewrite (dict_get_app (pre ++ [(k1, v1)]) rest k2 v2) by exact Hk2.
    cbn [mbind result_bind].
    fold (dict_keys rest). destruct (keep v1 v2).
    + rewrite dict_set_fresh by (intros Hin; apply Hk2, Hacc, Hin).
      rewrite (IH (pre ++ [(k1, v1)]) k2 v2 _ Hnd).
      * rewrite <- app_assoc. reflexivity.
      * intros k Hk. rewrite dict_keys_app in Hk |- *.
        apply in_app_or in Hk. apply in_or_app.
        destruct Hk as [Hk|Hk]; [left; apply Hacc, Hk|right; exact Hk].
    + apply (IH (pre ++ [(k1, v1)]) k2 v2 _ Hnd).
      intros k Hk. rewrite dict_keys_app. apply in_or_app. left.
      apply Hacc, Hk.
Qed.

(** On a dictionary with ascending keys the loop keeps the first entry and
    every entry that the test admits next to the one before it. *)
Lemma pair_loop_changes keep (d : dict) k v rest :
  d = (k, v) :: rest -> ascending (dict_keys d) ->
  pair_loop keep d (sorted (dict_keys d)) (dict_set [] k v)
  = Ok (keep_changes keep d).
Proof.
  intros -> Hasc. rewrite (sorted_ascending _ Hasc).
  apply ascending_NoDup in Hasc.
  pose proof (pair_loop_walk keep rest [] k v [(k, v)]) as H.
  cbn [app] in H. cbn [dict_set keep_changes dict_keys map fst].
  apply H; [exact Hasc|]. intros k' Hk'. exact Hk'.
Qed.

Lemma pass1_changes d :
  ascending (dict_keys d) -> pass1 d = Ok (keep_changes other_airspace d).
Proof.
  intros Hasc. unfold pass1. destruct d as [|[k v] rest]; [reflexivity|].
  rewrite (sorted_ascending _ Hasc). cbn [dict_keys map fst].
  cbn [dict_get]. destruct (decide (k = k)); [|congruence].
  cbn [mbind result_bind]. rewrite pass1_loop_pair.
  rewrite <- (sorted_ascending _ Hasc) at 1.
  apply (pair_loop_changes _ _ k v rest); [reflexivity|exact Hasc].
Qed.

Lemma pass2_changes d :
  ascending (dict_keys d) ->
  pass2 d = Ok (if (levels <? length d)%nat then keep_changes differs d else d).
Proof.
  intros Hasc. unfold pass2. rewrite (sorted_ascending _ Hasc).
  unfold dict_keys at 1. rewrite length_map.
  destruct (levels <? length d)%nat eqn:Hlen; [|reflexivity].
  destruct d as [|[k v] rest]; [discriminate|].
  cbn [dict_keys map fst].
  cbn [dict_get]. destruct (decide (k = k)); [|congruence].
  cbn [mbind result_bind]. rewrite pass2_loop_pair.
  rewrite <- (sorted_ascending _ Hasc) at 1.
  apply (pair_loop_changes _ _ k v rest); [reflexivity|exact Hasc].
Qed.

(** ** Passes 1 and 2 *)

Lemma keep_after_sublist keep rest : forall prev,
  keep_after keep prev rest `sublist_of` rest.
Proof.
  induction rest as [|[k2 v2] rest IH]; intros prev; cbn [keep_after].
  - constructor.
  - destruct (keep prev v2); [apply sublist_skip|apply sublist_cons]; apply IH.
Qed.

Lemma keep_changes_sublist keep d : keep_changes keep d `sublist_of` d.
Proof.
  destruct d as [|[k v] rest]; cbn [keep_changes]; [constructor|].
  apply sublist_skip, keep_after_sublist.
Qed.

Lemma sublist_In {A} (l1 l2 : list A) x :
  l1 `sublist_of` l2 -> In x l1 -> In x l2.
Proof.
  intros Hsub Hin. apply list_elem_of_In.
  apply (sublist_subseteq _ _ Hsub), list_elem_of_In, Hin.
Qed.

Lemma ascending_sublist l1 l2 :
  l1 `sublist_of` l2 -> ascending l2 -> ascending l1.
Proof.
  induction 1 as [|x l1 l2 Hsub IH|x l1 l2 Hsub IH]; cbn [ascending];
    intros Hasc; [exact I| |].
  - destruct Hasc as [Hx Hl]. split; [|auto].
    intros k' Hk'. apply Hx. eapply sublist_In; eauto.
  - destruct Hasc as [_ Hl]. auto.
Qed.

Lemma dict_keys_sublist (d1 d2 : dict) :
  d1 `sublist_of` d2 -> dict_keys d1 `sublist_of` dict_keys d2.
Proof.
  induction 1 as [|x l1 l2 Hsub IH|x l1 l2 Hsub IH]; cbn [dict_keys map];
    [constructor|apply sublist_skip|apply sublist_cons]; exact IH.
Qed.

Lemma keep_after_In keep rest : forall k0 v0 k v,
  In (k, v) (keep_after keep v0 rest) <->
  exists i k' v', rest !! i = Some (k, v) /\
    ((k0, v0) :: rest) !! i = Some (k', v') /\ keep v' v = true.
Proof.
  induction rest as [|[k2 v2] rest IH]; intros k0 v0 k v;
    cbn [keep_after].
  - split; [intros []|]. intros (i & k' & v' & Hi & _).
    rewrite lookup_nil in Hi. discriminate.
  - split.
    + destruct (keep v0 v2) eqn:Hkeep.
      * intros [Heq|Hin].
        -- injection Heq as <- <-. exists 0%nat, k0, v0. auto.
        -- apply (IH k2 v2) in Hin. destruct Hin as (i & k' & v' & H1 & H2 & H3).
           exists (S i), k', v'. auto.
      * intros Hin.
        apply (IH k2 v2) in Hin. destruct Hin as (i & k' & v' & H1 & H2 & H3).
        exists (S i), k', v'. auto.
    + intros (i & k' & v' & H1 & H2 & H3). destruct i as [|i].
      * cbn in H1, H2. injection H1 as -> ->. injection H2 as <- <-.
        rewrite H3. left. reflexivity.
      * cbn in H1, H2.
        assert (In (k, v) (keep_after keep v2 rest)) as Hin
          by (apply (IH k2 v2); exists i, k', v'; auto).
        destruct (keep v0 v2); [right|]; exact Hin.
Qed.

Lemma dict_index_unique (d : dict) i j k v v' :
  NoDup (dict_keys d) -> d !! i = Some (k, v) -> d !! j = Some (k, v') ->
  i = j.
Proof.
  intros Hnd Hi Hj. change (dict_keys d) with (fst <$> d) in Hnd.
  apply (NoDup_lookup (fst <$> d) i j k Hnd);
    rewrite list_lookup_fmap; [rewrite Hi|rewrite Hj]; reflexivity.
Qed.

(** An entry survives exactly when it is the first or the test admits it
    next to the entry just before it. *)
Lemma keep_changes_lookup keep (d : dict) i k v :
  NoDup (dict_keys d) -> d !! i = Some (k, v) ->
  In (k, v) (keep_changes keep d) <->
  i = 0%nat \/ exists k' v', d !! (i - 1)%nat = Some (k', v') /\
                             keep v' v = true.
Proof.
  intros Hnd Hi. destruct d as [|[k0 v0] rest];
    [rewrite lookup_nil in Hi; discriminate|].
  cbn [keep_changes]. split.
  - intros [Heq|Hin].
    + injection Heq as -> ->. left.
      apply (dict_index_unique _ i 0%nat k v v Hnd Hi). reflexivity.
    + apply (keep_after_In keep rest k0 v0) in Hin.
      destruct Hin as (j & k' & v' & H1 & H2 & H3).
      assert (i = S j) as ->
        by (apply (dict_index_unique _ i (S j) k v v Hnd Hi); exact H1).
      right. exists k', v'. replace (S j - 1)%nat with j by lia. auto.
  - intros [->|(k' & v' & H1 & H2)].
    + cbn in Hi. injection Hi as -> ->. left. reflexivity.
    + destruct i as [|i].
      * cbn in Hi. injection Hi as -> ->. left. reflexivity.
      * right. apply (keep_after_In keep rest k0 v0).
        replace (S i - 1)%nat with i in H1 by lia.
        exists i, k', v'. auto.
Qed.

(** An entry is dropped exactly when it is not the first and the test
    rejects it next to the entry just before it. *)
Lemma keep_changes_dropped keep (d : dict) i k v :
  NoDup (dict_keys d) -> d !! i = Some (k, v) ->
  ~ In (k, v) (keep_changes keep d) <->
  (0 < i)%nat /\ exists k' v', d !! (i - 1)%nat = Some (k', v') /\
                               keep v' v = false.
Proof.
  intros Hnd Hi. rewrite (keep_changes_lookup keep d i k v Hnd Hi). split.
  - intros Hno. destruct i as [|i]; [exfalso; apply Hno; left; reflexivity|].
    split; [lia|]. replace (S i - 1)%nat with i in * by lia.
    destruct (d !! i) as [[k' v']|] eqn:Hp.
    + exists k', v'. split; [reflexivity|].
      destruct (keep v' v) eqn:Hk; [|reflexivity].
      exfalso. apply Hno. right. exists k', v'. auto.
    + apply lookup_ge_None in Hp. apply lookup_lt_Some in Hi. lia.
  - intros (Hpos & k' & v' & Hp & Hk) [->|(k'' & v'' & Hp' & Hk')]; [lia|].
    rewrite Hp in Hp'. injection Hp' as <- <-. congruence.
Qed.

Lemma keep_after_spec_pass1 rest : forall prev surviving,
  airspace prev = airspace surviving ->
  keep_after other_airspace prev rest = spec_pass1_after surviving rest.
Proof.
  induction rest as [|[k2 v2] rest IH]; intros prev surviving Heq;
    [reflexivity|].
  cbn [keep_after spec_pass1_after]. unfold other_airspace at 1.
  destruct (decide (airspace v2 = airspace surviving)) as [Hsame|Hdiff].
  - rewrite bool_decide_eq_false_2 by (rewrite Heq; intros Hne; apply Hne; congruence).
    apply IH. exact Hsame.
  - rewrite bool_decide_eq_true_2 by (rewrite Heq; congruence).
    f_equal. apply IH. reflexivity.
Qed.

Lemma keep_changes_spec_pass1 d : keep_changes other_airspace d = spec_pass1 d.
Proof.
  destruct d as [|[k v] rest]; [reflexivity|].
  cbn [keep_changes spec_pass1]. f_equal. apply keep_after_spec_pass1.
  reflexivity.
Qed.

(** C7.  On the ascending height-band map, pass 1 computes what the spec
    words: walking upwards it drops every band whose airspace is that of the
    last surviving band.  The survivors keep their order, and a band
    survives exactly when it is the lowest or its airspace differs from the
    band just below it, so a run of bands with one airspace is left with its
    lowest band only. *)
Theorem pass1_collapses_runs (d : dict) :
  ascending (dict_keys d) ->
  pass1 d = Ok (spec_pass1 d) /\
  spec_pass1 d `sublist_of` d /\
  forall i k v, d !! i = Some (k, v) ->
    (In (k, v) (spec_pass1 d) <->
     i = 0%nat \/ exists k' v', d !! (i - 1)%nat = Some (k', v') /\
                                airspace v' <> airspace v).
Proof.
  intros Hasc. rewrite <- keep_changes_spec_pass1.
  split; [apply pass1_changes, Hasc|].
  split; [apply keep_changes_sublist|].
  intros i k v Hi.
  rewrite (keep_changes_lookup other_airspace d i k v
             (ascending_NoDup _ Hasc) Hi).
  unfold other_airspace. split.
  - intros [->|(k' & v' & Hp & Hk)]; [left; reflexivity|right].
    exists k', v'. split; [exact Hp|]. apply bool_decide_eq_true in Hk. exact Hk.
  - intros [->|(k' & v' & Hp & Hk)]; [left; reflexivity|right].
    exists k', v'. split; [exact Hp|]. apply bool_decide_eq_true. exact Hk.
Qed.

Lemma differs_false v' v :
  differs v' v = false <->
  getDistanceAsByte v = getDistanceAsByte v' /\
  Z.abs (getAngleAsByte v - getAngleAsByte v') <= 5.
Proof.
  unfold differs. rewrite orb_false_iff, negb_false_iff, Z.eqb_eq.
  rewrite Z.gtb_ltb, Z.ltb_ge. split; intros [H1 H2]; split; lia.
Qed.

(** C4, as the code has it.  Pass 2 leaves a map of at most [levels]
    entries as it is.  On a larger map, walking upwards, it always keeps the
    lowest band and drops a band exactly when its distance byte equals that
    of the band just below it in the pass-1 result and their bearing bytes
    are at most 5 apart, whether or not that band below survives. *)
Theorem pass2_drops_near_adjacent (d : dict) :
  ascending (dict_keys d) ->
  ((length d <= levels)%nat -> pass2 d = Ok d) /\
  ((levels < length d)%nat ->
   exists d', pass2 d = Ok d' /\ d' `sublist_of` d /\
     (forall e, d !! 0%nat = Some e -> In e d') /\
     forall i k v, d !! i = Some (k, v) ->
       (~ In (k, v) d' <->
        (0 < i)%nat /\ exists k' v', d !! (i - 1)%nat = Some (k', v') /\
          getDistanceAsByte v = getDistanceAsByte v' /\
          Z.abs (getAngleAsByte v - getAngleAsByte v') <= 5)).
Proof.
  intros Hasc. rewrite (pass2_changes d Hasc). split.
  - intros Hlen. apply Nat.ltb_ge in Hlen. rewrite Hlen. reflexivity.
  - intros Hlen. apply Nat.ltb_lt in Hlen. rewrite Hlen.
    exists (keep_changes differs d). split; [reflexivity|].
    split; [apply keep_changes_sublist|]. split.
    + intros [k v] He.
      apply (keep_changes_lookup differs d 0 k v (ascending_NoDup _ Hasc) He).
      left. reflexivity.
    + intros i k v Hi.
      rewrite (keep_changes_dropped differs d i k v
                 (ascending_NoDup _ Hasc) Hi).
      split; intros (Hpos & k' & v' & Hp & Hk); (split; [exact Hpos|]);
        exists k', v'; (split; [exact Hp|]); apply differs_false; exact Hk.
Qed.

(** ** Pass 3 *)

Lemma without_app far (d1 d2 : dict) :
  without far (d1 ++ d2) = without far d1 ++ without far d2.
Proof. apply List.filter_app. Qed.

Lemma without_In far (d : dict) k v :
  In (k, v) (without far d) <-> In (k, v) d /\ v <> far.
Proof.
  unfold without. rewrite List.filter_In. cbn [snd].
  rewrite bool_decide_eq_true. reflexivity.
Qed.

Lemma without_sublist far (d : dict) : without far d `sublist_of` d.
Proof.
  induction d as [|e d IH]; [constructor|]. unfold without in *.
  cbn [List.filter]. destruct (bool_decide (snd e <> far));
    [apply sublist_skip|apply sublist_cons]; exact IH.
Qed.

Lemma without_keys far (d : dict) k :
  In k (dict_keys (without far d)) -> In k (dict_keys d).
Proof.
  apply sublist_In, dict_keys_sublist, without_sublist.
Qed.

Lemma without_length far (d : dict) :
  In far (dict_values d) -> (length (without far d) < length d)%nat.
Proof.
  induction d as [|[k v] d IH]; intros Hin; [destruct Hin|].
  unfold without in *. cbn [List.filter snd].
  pose proof (List.filter_length_le (fun e => bool_decide (snd e <> far)) d).
  destruct Hin as [Heq|Hin].
  - cbn [snd] in Heq. subst v.
    rewrite bool_decide_eq_false_2 by (intros Hne; apply Hne; reflexivity).
    cbn [length]. lia.
  - specialize (IH Hin). destruct (bool_decide (v <> far)); cbn [length]; lia.
Qed.

Lemma without_count_inside far (d : dict) :
  inside far = false -> count_inside (without far d) = count_inside d.
Proof.
  intros Hfar. unfold count_inside, without.
  induction d as [|[k v] d IH]; [reflexivity|]. cbn [List.filter snd].
  destruct (bool_decide (v <> far)) eqn:Hv.
  - cbn [List.filter snd]. destruct (inside v); cbn [length]; rewrite IH;
      reflexivity.
  - apply bool_decide_eq_false in Hv.
    assert (v = far) as -> by (destruct (decide (v = far)); tauto).
    rewrite Hfar. exact IH.
Qed.

Lemma count_inside_le (d : dict) : (count_inside d <= length d)%nat.
Proof. apply List.filter_length_le. Qed.

Lemma removeVector_fold far rest : forall pre,
  NoDup (dict_keys (pre ++ rest)) ->
  fold_left (remove_step (pre ++ rest) far) (dict_keys rest)
            (Ok (without far pre))
  = Ok (without far (pre ++ rest)).
Proof.
  induction rest as [|[k v] rest IH]; intros pre Hnd.
  - rewrite app_nil_r. reflexivity.
  - cbn [dict_keys map fst fold_left]. fold (dict_keys rest).
    pose proof Hnd as Hnd'. rewrite dict_keys_app in Hnd'.
    apply NoDup_app_head in Hnd'. destruct Hnd' as [Hk _].
    unfold remove_step at 2. cbn [mbind result_bind].
    rewrite (dict_get_app pre rest k v Hk). cbn [mbind result_bind].
    assert (pre ++ (k, v) :: rest = (pre ++ [(k, v)]) ++ rest) as Hd
      by (rewrite <- app_assoc; reflexivity).
    rewrite Hd in Hnd |- *.
    destruct (decide (v <> far)) as [Hne|Heq].
    + rewrite dict_set_fresh
        by (intros Hin; apply Hk; eapply without_keys; exact Hin).
      replace (without far pre ++ [(k, v)]) with (without far (pre ++ [(k, v)])).
      * apply IH. exact Hnd.
      * rewrite without_app. f_equal. unfold without. cbn [List.filter snd].
        rewrite bool_decide_eq_true_2 by exact Hne. reflexivity.
    + replace (without far pre) with (without far (pre ++ [(k, v)])) at 1.
      * apply IH. exact Hnd.
      * rewrite without_app. unfold without at 2. cbn [List.filter snd].
        rewrite bool_decide_eq_false_2 by exact Heq. apply app_nil_r.
Qed.

(** The inner loop of pass 3 removes the entries whose vector is [far] and
    no other. *)
Lemma removeVector_without far (d : dict) :
  NoDup (dict_keys d) -> removeVector d far = Ok (without far d).
Proof.
  intros Hnd. exact (removeVector_fold far d [] Hnd).
Qed.

Lemma findFarest_outside (l : list AirspaceVector) :
  match findFarestAirspace (findAirspacesNotInside l) with
  | None => forall w, In w l -> inside w = true
  | Some far => first_farthest_outside l far
  end.
Proof.
  pose proof (findFarest_filter (fun v => negb (inside v)) l) as H.
  unfold findAirspacesNotInside.
  destruct (findFarestAirspace (List.filter (fun v => negb (inside v)) l))
    as [far|].
  - destruct H as (l1 & l2 & -> & Hfar & H1 & H2).
    exists l1, l2. split; [reflexivity|].
    split; [apply negb_true_iff, Hfar|].
    split; intros w Hw Hi; [specialize (H1 w Hw)|specialize (H2 w Hw)];
      rewrite Hi in *; cbn [negb] in *; lia.
  - intros w Hw. apply negb_false_iff, H, Hw.
Qed.

Lemma first_farthest_In l far :
  first_farthest_outside l far -> In far l /\ inside far = false.
Proof.
  intros (l1 & l2 & -> & Hfar & _). split; [|exact Hfar].
  apply in_or_app. right. left. reflexivity.
Qed.

Lemma pass3_step_spec p (d : dict) :
  NoDup (dict_keys d) ->
  match findFarestAirspace (findAirspacesNotInside (dict_values d)) with
  | None => pass3_step p d = Err (SystemExit p) /\
            forall w, In w (dict_values d) -> inside w = true
  | Some far => pass3_step p d = Ok (without far d) /\
                first_farthest_outside (dict_values d) far
  end.
Proof.
  intros Hnd. unfold pass3_step.
  pose proof (findFarest_outside (dict_values d)) as H.
  destruct (findFarestAirspace (findAirspacesNotInside (dict_values d)))
    as [far|].
  - split; [apply removeVector_without, Hnd|exact H].
  - split; [reflexivity|exact H].
Qed.

Lemma pass3_loop_eq fuel p (d : dict) :
  (levels < length d)%nat ->
  pass3_loop (S fuel) p d = (d2 ← pass3_step p d; pass3_loop fuel p d2).
Proof.
  intros Hlen. apply Nat.ltb_lt in Hlen. cbn [pass3_loop]. rewrite Hlen.
  reflexivity.
Qed.

Lemma pass3_loop_done fuel p (d : dict) :
  (length d <= levels)%nat -> pass3_loop fuel p d = Ok d.
Proof.
  intros Hlen. apply Nat.ltb_ge in Hlen.
  destruct fuel; cbn [pass3_loop]; rewrite Hlen; reflexivity.
Qed.

Lemma without_NoDup far (d : dict) :
  NoDup (dict_keys d) -> NoDup (dict_keys (without far d)).
Proof.
  intros Hnd. eapply sublist_NoDup; [exact Hnd|apply dict_keys_sublist, without_sublist].
Qed.

Lemma count_inside_all (d : dict) :
  (forall w, In w (dict_values d) -> inside w = true) ->
  count_inside d = length d.
Proof.
  unfold count_inside. induction d as [|[k v] d IH]; intros Hall;
    [reflexivity|].
  cbn [List.filter snd]. rewrite (Hall v) by (left; reflexivity).
  cbn [length]. f_equal. apply IH. intros w Hw. apply Hall. right. exact Hw.
Qed.

(** With fuel for every entry, pass 3 ends in the fatal error when more
    than [levels] entries are inside, and otherwise returns at most [levels]
    entries, in order, among them every inside entry. *)
Lemma pass3_loop_spec p : forall fuel (d : dict),
  NoDup (dict_keys d) -> (length d <= fuel)%nat ->
  ((levels < count_inside d)%nat ->
   pass3_loop fuel p d = Err (SystemExit p)) /\
  ((count_inside d <= levels)%nat ->
   exists d', pass3_loop fuel p d = Ok d' /\ (length d' <= levels)%nat /\
     d' `sublist_of` d /\
     forall k v, In (k, v) d -> inside v = true -> In (k, v) d').
Proof.
  induction fuel as [|fuel IH]; intros d Hnd Hfuel.
  - pose proof (count_inside_le d). split; [unfold levels in *; lia|].
    intros _. exists d. rewrite pass3_loop_done by (unfold levels; lia).
    split; [reflexivity|]. split; [unfold levels; lia|]. split; [reflexivity|auto].
  - destruct (Nat.le_gt_cases (length d) levels) as [Hle|Hgt].
    + pose proof (count_inside_le d). split; [lia|].
      intros _. exists d. rewrite pass3_loop_done by exact Hle.
      split; [reflexivity|]. split; [exact Hle|]. split; [reflexivity|auto].
    + rewrite pass3_loop_eq by exact Hgt.
      pose proof (pass3_step_spec p d Hnd) as Hstep.
      destruct (findFarestAirspace (findAirspacesNotInside (dict_values d)))
        as [far|].
      * destruct Hstep as [-> Hfar]. cbn [mbind result_bind].
        apply first_farthest_In in Hfar. destruct Hfar as [Hin Hout].
        pose proof (without_length far d Hin) as Hlen.
        destruct (IH (without far d) (without_NoDup far d Hnd)) as [IH1 IH2];
          [lia|].
        rewrite (without_count_inside far d Hout) in IH1, IH2.
        split; [exact IH1|]. intros Hc.
        destruct (IH2 Hc) as (d' & -> & Hl & Hsub & Hkeep).
        exists d'. split; [reflexivity|]. split; [exact Hl|].
        split; [etransitivity; [exact Hsub|apply without_sublist]|].
        intros k v Hkv Hi. apply Hkeep; [|exact Hi].
        apply without_In. split; [exact Hkv|]. intros ->. congruence.
      * destruct Hstep as [-> Hall]. cbn [mbind result_bind].
        split; [reflexivity|]. intros Hc.
        rewrite (count_inside_all d Hall) in Hc. lia.
Qed.

Lemma pass3_loop_fuel p : forall fuel1 (d : dict) fuel2,
  NoDup (dict_keys d) -> (length d <= fuel1)%nat -> (length d <= fuel2)%nat ->
  pass3_loop fuel1 p d = pass3_loop fuel2 p d.
Proof.
  induction fuel1 as [|fuel1 IH]; intros d fuel2 Hnd H1 H2.
  - rewrite !pass3_loop_done by (unfold levels; lia). reflexivity.
  - destruct (Nat.le_gt_cases (length d) levels) as [Hle|Hgt].
    + rewrite !pass3_loop_done by exact Hle. reflexivity.
    + destruct fuel2 as [|fuel2]; [unfold levels in *; lia|].
      rewrite !pass3_loop_eq by exact Hgt.
      pose proof (pass3_step_spec p d Hnd) as Hstep.
      destruct (findFarestAirspace (findAirspacesNotInside (dict_values d)))
        as [far|].
      * destruct Hstep as [-> Hfar]. cbn [mbind result_bind].
        apply first_farthest_In in Hfar. destruct Hfar as [Hin Hout].
        pose proof (without_length far d Hin) as Hlen.
        apply IH; [apply without_NoDup, Hnd|lia|lia].
      * destruct Hstep as [-> _]. reflexivity.
Qed.

Lemma pass3_unfold p (d : dict) far :
  NoDup (dict_keys d) -> (levels < length d)%nat ->
  pass3_step p d = Ok (without far d) -> In far (dict_values d) ->
  pass3 p d = pass3 p (without far d).
Proof.
  intros Hnd Hlen Hstep Hin. unfold pass3.
  destruct (length d) as [|n] eqn:Hn; [unfold levels in Hlen; lia|].
  rewrite pass3_loop_eq by lia. rewrite Hstep. cbn [mbind result_bind].
  pose proof (without_length far d Hin).
  apply pass3_loop_fuel; [apply without_NoDup, Hnd|lia|lia].
Qed.

Lemma count_vector_length far (d : dict) :
  (length (without far d) + count_vector far d)%nat = length d.
Proof.
  unfold without, count_vector. induction d as [|[k v] d IH]; [reflexivity|].
  cbn [List.filter snd]. destruct (decide (v = far)) as [Heq|Hne].
  - rewrite bool_decide_eq_false_2 by tauto.
    rewrite bool_decide_eq_true_2 by exact Heq. cbn [length]. lia.
  - rewrite bool_decide_eq_true_2 by exact Hne.
    rewrite bool_decide_eq_false_2 by exact Hne. cbn [length]. lia.
Qed.

(** Proves [ascending] of a list of concrete altitudes. *)
Ltac solve_ascending :=
  cbn; repeat split; intros ? Hin; cbn in Hin;
  repeat (destruct Hin as [<-|Hin]; [reflexivity|]); destruct Hin.

(** Pass 3 is fatal on a map of more than [levels] entries that are all
    inside, never drops an inside entry, and is fatal exactly when more than
    [levels] entries are inside. *)
Lemma pass3_inside_kept (p : Point) (d : dict) :
  ascending (dict_keys d) ->
  ((levels < length d)%nat ->
   (forall w, In w (dict_values d) -> inside w = true) ->
   pass3_step p d = Err (SystemExit p) /\ pass3 p d = Err (SystemExit p)) /\
  (forall d', pass3_step p d = Ok d' ->
     forall k v, In (k, v) d -> inside v = true -> In (k, v) d') /\
  (forall d', pass3 p d = Ok d' ->
     forall k v, In (k, v) d -> inside v = true -> In (k, v) d') /\
  (pass3 p d = Err (SystemExit p) <-> (levels < count_inside d)%nat).
Proof.
  intros Hasc. pose proof (ascending_NoDup _ Hasc) as Hnd.
  change (NoDup (dict_keys d)) in Hnd.
  destruct (pass3_loop_spec p (length d) d Hnd (Nat.le_refl _)) as [Hfatal Hok].
  fold (pass3 p d) in Hfatal, Hok.
  pose proof (pass3_step_spec p d Hnd) as Hstep.
  split; [|split; [|split]].
  - intros Hlen Hall. split.
    + destruct (findFarestAirspace (findAirspacesNotInside (dict_values d)))
        as [far|]; [|apply Hstep].
      destruct Hstep as [_ Hfar]. apply first_farthest_In in Hfar.
      destruct Hfar as [Hin Hout]. rewrite (Hall far Hin) in Hout.
      discriminate.
    + apply Hfatal. rewrite (count_inside_all d Hall). exact Hlen.
  - intros d' Hd' k v Hkv Hi.
    destruct (findFarestAirspace (findAirspacesNotInside (dict_values d)))
      as [far|]; destruct Hstep as [Hs Hfar]; rewrite Hs in Hd';
      [|discriminate].
    injection Hd' as <-. apply first_farthest_In in Hfar.
    apply without_In. split; [exact Hkv|]. intros ->.
    destruct Hfar as [_ Hout]. congruence.
  - intros d' Hd' k v Hkv Hi.
    destruct (Nat.le_gt_cases (count_inside d) levels) as [Hle|Hgt].
    + destruct (Hok Hle) as (d'' & Heq & _ & _ & Hkeep).
      rewrite Heq in Hd'. injection Hd' as <-. auto.
    + rewrite (Hfatal Hgt) in Hd'. discriminate.
  - split; [|exact Hfatal]. intros Herr.
    destruct (Nat.le_gt_cases (count_inside d) levels) as [Hle|Hgt];
      [|exact Hgt].
    destruct (Hok Hle) as (d'' & Heq & _). rewrite Heq in Herr. discriminate.
Qed.

(** C5, as the code has it.  One turn of pass 3 on a map of more than
    [levels] entries with an entry that is not inside picks the vector that
    is not inside and farthest away, the first such in the map's order, and
    removes every entry that holds this vector, at least one, leaving all
    other entries in place; the loop goes on with the map that is left. *)
Theorem pass3_step_removes_farthest (p : Point) (d : dict) :
  ascending (dict_keys d) ->
  (levels < length d)%nat ->
  (exists w, In w (dict_values d) /\ inside w = false) ->
  exists far,
    first_farthest_outside (dict_values d) far /\
    pass3_step p d = Ok (without far d) /\
    pass3 p d = pass3 p (without far d) /\
    (forall k v, In (k, v) (without far d) <-> In (k, v) d /\ v <> far) /\
    without far d `sublist_of` d /\
    (0 < count_vector far d)%nat /\
    (length (without far d) + count_vector far d)%nat = length d.
Proof.
  intros Hasc Hlen (w & Hw & Hout).
  pose proof (ascending_NoDup _ Hasc) as Hnd.
  change (NoDup (dict_keys d)) in Hnd.
  pose proof (pass3_step_spec p d Hnd) as Hstep.
  destruct (findFarestAirspace (findAirspacesNotInside (dict_values d)))
    as [far|].
  - destruct Hstep as [Hs Hfar]. exists far.
    pose proof (first_farthest_In _ _ Hfar) as [Hin _].
    pose proof (without_length far d Hin) as Hl.
    pose proof (count_vector_length far d) as Hc.
    split; [exact Hfar|]. split; [exact Hs|].
    split; [apply pass3_unfold; assumption|].
    split; [intros k v; apply without_In|].
    split; [apply without_sublist|]. split; [lia|exact Hc].
  - destruct Hstep as [_ Hall]. rewrite (Hall w Hw) in Hout. discriminate.
Qed.

(** Seven airspaces at seven distances: the farthest goes, six are left. *)
Lemma pass3_step_removes_farthest_witness :
  exists far,
    first_farthest_outside (dict_values dict_seven_outside) far /\
    pass3_step origin dict_seven_outside = Ok (without far dict_seven_outside) /\
    pass3 origin dict_seven_outside
      = pass3 origin (without far dict_seven_outside) /\
    (forall k v, In (k, v) (without far dict_seven_outside) <->
                 In (k, v) dict_seven_outside /\ v <> far) /\
    without far dict_seven_outside `sublist_of` dict_seven_outside /\
    (0 < count_vector far dict_seven_outside)%nat /\
    (length (without far dict_seven_outside)
       + count_vector far dict_seven_outside)%nat
    = length dict_seven_outside.
Proof.
  assert (ascending (dict_keys dict_seven_outside)) as Hasc
    by solve_ascending.
  apply (pass3_step_removes_farthest origin dict_seven_outside Hasc).
  - vm_compute. lia.
  - exists (toward 0 0 1000 6400 0 false). split; [left|]; reflexivity.
Defined.

(** C5 as stated fails: the distant airspace of [avs_interleaved] is chosen
    for four bands that are not adjacent, the map those vectors lead to has
    seven entries, and one turn of pass 3 removes four of them. *)
Lemma pass3_step_removes_four :
  (d ← heightBands avs_interleaved; d1 ← pass1 d; pass2 d1)
    = Ok dict_interleaved /\
  (levels < length dict_interleaved)%nat /\
  In far_outside (dict_values dict_interleaved) /\
  inside far_outside = false /\
  ~ (exists d', pass3_step origin dict_interleaved = Ok d' /\
                (length d' + 1)%nat = length dict_interleaved).
Proof.
  split; [vm_compute; reflexivity|]. split; [vm_compute; lia|].
  split; [left; reflexivity|]. split; [reflexivity|].
  intros (d' & Hd' & Hlen). vm_compute in Hd'. injection Hd' as <-.
  vm_compute in Hlen. discriminate.
Qed.

(** ** The map handed to the compactor *)

Lemma sweep_chain_ascending avs hMax : forall rest h,
  sweep_chain avs hMax h rest -> ascending (h :: rest).
Proof.
  induction rest as [|h' rest IH]; intros h Hc.
  - cbn. split; [intros k' []|exact I].
  - destruct Hc as (Hlt & (Hin & Hhh' & Hmin) & Hc').
    specialize (IH h' Hc'). split; [|exact IH].
    intros k [<-|Hk]; [exact Hhh'|].
    destruct IH as [Hall _]. specialize (Hall k Hk). ht_lia.
Qed.

Lemma band_entries_keys avs visited :
  dict_keys (band_entries avs visited) `sublist_of` visited.
Proof.
  induction visited as [|h rest IH]; [constructor|].
  rewrite band_entries_cons. destruct (chooseBand avs h).
  - cbn [dict_keys map fst]. apply sublist_skip, IH.
  - apply sublist_cons, IH.
Qed.

Lemma heightBands_chain avs :
  match findLowestHeightInAirspaces avs,
        findHighestHeightInAirspaces avs with
  | Some hMin, Some hMax =>
      exists visited,
        heightBands avs = Ok (band_entries avs visited) /\
        match visited with
        | [] => ht_ltb hMin hMax = false
        | h0 :: rest => h0 = hMin /\ sweep_chain avs hMax h0 rest
        end
  | None, None => avs = [] /\ heightBands avs = Ok []
  | _, _ => False
  end.
Proof.
  pose proof (findLowest_spec avs) as Hlo.
  pose proof (findHighest_spec avs) as Hhi.
  unfold heightBands.
  destruct (findLowestHeightInAirspaces avs) as [hMin|],
           (findHighestHeightInAirspaces avs) as [hMax|].
  - destruct (ht_ltb hMin hMax) eqn:Hlt.
    + destruct (sweep_loop_spec avs hMax (sweep_fuel avs) hMin [])
        as (rest & Hc & Heq).
      * destruct Hhi as [(v & Hv & <-) _]. unfold breakpoints.
        apply in_flat_map. exists v. split; [exact Hv|]. right. left.
        reflexivity.
      * pose proof (count_above_le avs hMin). unfold sweep_fuel. lia.
      * exact Hlt.
      * intros k [].
      * exists (hMin :: rest). split; [exact Heq|].
        split; [reflexivity|exact Hc].
    + exists []. split; [|reflexivity].
      unfold sweep_fuel. cbn [sweep_loop]. rewrite Hlt. reflexivity.
  - subst avs. destruct Hlo as [(v & [] & _) _].
  - subst avs. destruct Hhi as [(v & [] & _) _].
  - split; [exact Hlo|]. subst avs. reflexivity.
Qed.

(** C6.  The sweep starts at the minimum floor, visits only altitudes below
    the maximum ceiling, goes from each visited altitude to the least floor
    or ceiling strictly above it, stops when there is none below the maximum
    ceiling, and records an entry exactly for the visited altitudes that some
    vector covers. *)
Theorem sweep_visits_breakpoints (avs : list AirspaceVector) :
  (forall h, chooseBand avs h = None <->
             forall w, In w avs -> covers h w = false) /\
  match findLowestHeightInAirspaces avs,
        findHighestHeightInAirspaces avs with
  | Some hMin, Some hMax =>
      is_min_floor avs hMin /\ is_max_ceiling avs hMax /\
      exists visited,
        heightBands avs = Ok (band_entries avs visited) /\
        match visited with
        | [] => ht_ltb hMin hMax = false
        | h0 :: rest => h0 = hMin /\ sweep_chain avs hMax h0 rest
        end
  | None, None => avs = [] /\ heightBands avs = Ok []
  | _, _ => False
  end.
Proof.
  split; [apply chooseBand_none|].
  pose proof (findLowest_spec avs) as Hlo.
  pose proof (findHighest_spec avs) as Hhi.
  pose proof (heightBands_chain avs) as Hchain.
  destruct (findLowestHeightInAirspaces avs) as [hMin|],
           (findHighestHeightInAirspaces avs) as [hMax|].
  - split; [exact Hlo|]. split; [exact Hhi|exact Hchain].
  - exact Hchain.
  - exact Hchain.
  - exact Hchain.
Qed.

(** The sweep over [avs_interleaved]: every floor and ceiling from 0 up to
    6000 ft is visited. *)
Example sweep_interleaved_visited :
  heightBands avs_interleaved
  = Ok (band_entries avs_interleaved
          [ (0, false); (1000, false); (2000, false); (3000, false);
            (4000, false); (5000, false); (6000, false) ]).
Proof. vm_compute. reflexivity. Qed.

(** The sweep always returns, and its map has ascending keys. *)
Lemma heightBands_ascending avs :
  exists d, heightBands avs = Ok d /\ ascending (dict_keys d).
Proof.
  pose proof (heightBands_chain avs) as H.
  destruct (findLowestHeightInAirspaces avs) as [hMin|],
           (findHighestHeightInAirspaces avs) as [hMax|].
  - destruct H as (visited & Heq & Hv). exists (band_entries avs visited).
    split; [exact Heq|].
    apply (ascending_sublist _ visited); [apply band_entries_keys|].
    destruct visited as [|h0 rest]; [exact I|].
    destruct Hv as [_ Hc]. eapply sweep_chain_ascending, Hc.
  - destruct H.
  - destruct H.
  - exists []. split; [apply H|exact I].
Qed.

(** Compaction either ends in the fatal error of pass 3 or returns at most
    [levels] entries of the map, in order. *)
Lemma compact_cases p (d : dict) :
  ascending (dict_keys d) ->
  compact p d = Err (SystemExit p) \/
  exists c, compact p d = Ok c /\ (length c <= levels)%nat /\
            c `sublist_of` d.
Proof.
  intros Hasc. unfold compact.
  rewrite (pass1_changes d Hasc). cbn [mbind result_bind].
  set (d1 := keep_changes other_airspace d).
  assert (d1 `sublist_of` d) as Hs1 by apply keep_changes_sublist.
  assert (ascending (dict_keys d1)) as Hasc1
    by (eapply ascending_sublist; [apply dict_keys_sublist, Hs1|exact Hasc]).
  rewrite (pass2_changes d1 Hasc1). cbn [mbind result_bind].
  set (d2 := if (levels <? length d1)%nat then keep_changes differs d1 else d1).
  assert (d2 `sublist_of` d1) as Hs2
    by (unfold d2; destruct (levels <? length d1)%nat;
        [apply keep_changes_sublist|reflexivity]).
  assert (ascending (dict_keys d2)) as Hasc2
    by (eapply ascending_sublist; [apply dict_keys_sublist, Hs2|exact Hasc1]).
  pose proof (ascending_NoDup _ Hasc2) as Hnd.
  destruct (pass3_loop_spec p (length d2) d2 Hnd (Nat.le_refl _))
    as [Hfatal Hok].
  fold (pass3 p d2) in Hfatal, Hok.
  destruct (Nat.le_gt_cases (count_inside d2) levels) as [Hle|Hgt].
  - right. destruct (Hok Hle) as (c & Hc & Hlen & Hsub & _).
    exists c. split; [exact Hc|]. split; [exact Hlen|].
    etransitivity; [exact Hsub|]. etransitivity; [exact Hs2|exact Hs1].
  - left. apply Hfatal, Hgt.
Qed.

Lemma survivors_cases p avs :
  survivors p avs = Err (SystemExit p) \/
  exists c, survivors p avs = Ok c /\ (length c <= levels)%nat /\
            ascending (dict_keys c).
Proof.
  unfold survivors.
  destruct (heightBands_ascending avs) as (d & -> & Hasc).
  cbn [mbind result_bind].
  destruct (compact_cases p d Hasc) as [Herr|(c & Hc & Hlen & Hsub)];
    [left; exact Herr|right].
  exists c. split; [exact Hc|]. split; [exact Hlen|].
  eapply ascending_sublist; [apply dict_keys_sublist, Hsub|exact Hasc].
Qed.

(** ** The bytes of a level *)

Lemma round_div_bounds n d :
  0 < d -> n / d <= round_div n d <= n / d + 1.
Proof.
  intros Hd. unfold round_div.
  destruct (2 * (n mod d) <? d); [lia|].
  destruct (2 * (n mod d) >? d); [lia|].
  destruct (Z.even (n / d)); lia.
Qed.

Lemma clamp_bounds lo hi x : lo <= hi -> lo <= clamp lo hi x <= hi.
Proof. unfold clamp. lia. Qed.

(** Every byte of a level is a byte when the bearing is in [0, 360). *)
Lemma getBytes_range v :
  0 <= angle v < 360 -> Forall (fun b => 0 <= b < 256) (getBytes v).
Proof.
  intros Ha. unfold getBytes, altitudeByte, getAngleAsByte, getDistanceAsByte.
  pose proof (clamp_bounds 0 127 (round_div (fst (getMin (airspace v))) 250)).
  pose proof (clamp_bounds 0 127 (round_div (fst (getMax (airspace v))) 250)).
  pose proof (clamp_bounds 0 255 (round_div (distance v) 64)).
  pose proof (round_div_bounds (angle v) 3).
  assert (0 <= angle v / 3 <= 119) by (Z.div_mod_to_equations; lia).
  repeat constructor;
    try destruct (snd (getMin (airspace v)));
    try destruct (snd (getMax (airspace v)));
    try destruct (inside v); lia.
Qed.

(** ** Writing into the buffer *)

Lemma splice_length out off bs :
  (off + length bs <= length out)%nat -> length (splice out off bs) = length out.
Proof.
  intros H. unfold splice. rewrite !length_app, length_take, length_drop. lia.
Qed.

Lemma splice_nil out off : splice out off [] = out.
Proof.
  unfold splice. cbn [app length]. rewrite Nat.add_0_r. apply take_drop.
Qed.

Lemma splice_splice out off b1 b2 :
  (off + length b1 + length b2 <= length out)%nat ->
  splice (splice out off b1) (off + length b1) b2 = splice out off (b1 ++ b2).
Proof.
  intros H. unfold splice.
  assert (length (take off out) = off) as Ht
    by (rewrite length_take; lia).
  rewrite (app_assoc (take off out) b1).
  rewrite take_app_length' by (rewrite length_app, Ht; reflexivity).
  rewrite drop_app_ge by (rewrite length_app, Ht; lia).
  rewrite length_app, Ht.
  replace (off + length b1 + length b2 - (off + length b1))%nat
    with (length b2) by lia.
  rewrite drop_drop, <- !app_assoc, length_app.
  do 3 f_equal. f_equal. lia.
Qed.

Lemma splice_one out off b :
  (off < length out)%nat -> <[off := b]> out = splice out off [b].
Proof.
  intros H. unfold splice. rewrite insert_take_drop by exact H.
  cbn [length app]. do 2 f_equal. f_equal. lia.
Qed.

Lemma write_bytes_splice bs : forall out off,
  (off + length bs <= length out)%nat ->
  write_bytes out off bs = Ok (splice out off bs, (off + length bs)%nat).
Proof.
  induction bs as [|b bs IH]; intros out off H; cbn [write_bytes length] in *.
  - rewrite splice_nil, Nat.add_0_r. reflexivity.
  - unfold write_byte.
    assert ((off <? length out)%nat = true) as -> by (apply Nat.ltb_lt; lia).
    cbn [mbind result_bind]. rewrite splice_one by lia.
    rewrite IH by (rewrite splice_length; cbn [length]; lia).
    replace (S off) with (off + length [b])%nat by (cbn; lia).
    rewrite splice_splice by (cbn [length]; lia).
    cbn [length app]. do 2 f_equal. lia.
Qed.

Lemma getBytes_length v : length (getBytes v) = sizeof_level.
Proof. reflexivity. Qed.

Lemma flat_getBytes_length (d : dict) :
  length (flat_map (fun e => getBytes (snd e)) d)
  = (sizeof_level * length d)%nat.
Proof.
  induction d as [|e d IH]; [reflexivity|].
  cbn [flat_map]. rewrite length_app, IH, getBytes_length. cbn [length].
  unfold sizeof_level. lia.
Qed.

Lemma write_levels_splice (c : dict) rest : forall pre out off,
  c = pre ++ rest -> NoDup (dict_keys c) ->
  (off + sizeof_level * length rest <= length out)%nat ->
  write_levels c (dict_keys rest) out off
  = Ok (splice out off (flat_map (fun e => getBytes (snd e)) rest),
        (off + sizeof_level * length rest)%nat).
Proof.
  induction rest as [|[k v] rest IH]; intros pre out off Hc Hnd Hlen.
  - cbn. rewrite splice_nil. do 2 f_equal. lia.
  - cbn [dict_keys map fst write_levels]. fold (dict_keys rest).
    pose proof Hnd as Hnd'. rewrite Hc, dict_keys_app in Hnd'.
    apply NoDup_app_head in Hnd'. destruct Hnd' as [Hk _].
    replace (dict_get c k) with (Ok v : result AirspaceVector)
      by (rewrite Hc; symmetry; apply dict_get_app, Hk).
    cbn [mbind result_bind length] in *.
    rewrite write_bytes_splice by (rewrite getBytes_length; lia).
    cbn [mbind result_bind].
    rewrite (IH (pre ++ [(k, v)]));
      [|rewrite <- app_assoc; exact Hc|exact Hnd
       |rewrite splice_length; rewrite getBytes_length; lia].
    rewrite splice_splice
      by (rewrite flat_getBytes_length, getBytes_length;
          unfold sizeof_level in *; lia).
    cbn [flat_map snd]. rewrite getBytes_length. do 2 f_equal.
    unfold sizeof_level. lia.
Qed.

Lemma padding_length n :
  length (concat (repeat emptyBytes n)) = (sizeof_level * n)%nat.
Proof.
  induction n as [|n IH]; [reflexivity|].
  cbn [repeat concat]. rewrite length_app, IH. cbn [emptyBytes length].
  unfold sizeof_level. lia.
Qed.

Lemma write_padding_splice n : forall out off,
  (off + sizeof_level * n <= length out)%nat ->
  write_padding n out off
  = Ok (splice out off (concat (repeat emptyBytes n)),
        (off + sizeof_level * n)%nat).
Proof.
  induction n as [|n IH]; intros out off Hlen.
  - cbn. rewrite splice_nil. do 2 f_equal. lia.
  - cbn [write_padding].
    rewrite write_bytes_splice
      by (cbn [emptyBytes length]; unfold sizeof_level in *; lia).
    cbn [mbind result_bind].
    rewrite IH
      by (rewrite splice_length; cbn [emptyBytes length];
          unfold sizeof_level in *; lia).
    rewrite splice_splice
      by (rewrite padding_length; cbn [emptyBytes length];
          unfold sizeof_level in *; lia).
    cbn [repeat concat emptyBytes length]. do 2 f_equal.
    unfold sizeof_level. lia.
Qed.

Lemma recordBytes_length (c : dict) :
  (length c <= levels)%nat ->
  length (recordBytes c) = (levels * sizeof_level)%nat.
Proof.
  intros Hlen. unfold recordBytes.
  rewrite length_app, flat_getBytes_length, padding_length.
  unfold sizeof_level, levels in *. lia.
Qed.

Lemma encodeVectors_survivors out off p avs :
  encodeVectors out off p avs
  = (c ← survivors p avs;
     '(output1, offset1) ← write_levels c (sorted (dict_keys c)) out off;
     '(output2, _) ← write_padding (levels - length c) output1 offset1;
     Ok output2).
Proof.
  unfold encodeVectors, survivors. destruct (heightBands avs); reflexivity.
Qed.

(** With room for a record at [off], [encodeVectors] either ends in the
    fatal error of pass 3 or writes the record of the survivors at [off]. *)
Lemma encodeVectors_splice out off p avs :
  (off + levels * sizeof_level <= length out)%nat ->
  encodeVectors out off p avs
  = (c ← survivors p avs; Ok (splice out off (recordBytes c))).
Proof.
  intros Hroom. rewrite encodeVectors_survivors.
  destruct (survivors_cases p avs) as [->|(c & -> & Hlen & Hasc)];
    [reflexivity|].
  cbn [mbind result_bind]. rewrite (sorted_ascending _ Hasc).
  rewrite (write_levels_splice c c [] out off eq_refl
             (ascending_NoDup _ Hasc))
    by (unfold sizeof_level, levels in *; lia).
  cbn [mbind result_bind].
  rewrite write_padding_splice
    by (rewrite splice_length;
        rewrite ?flat_getBytes_length; unfold sizeof_level, levels in *; lia).
  cbn [mbind result_bind]. unfold recordBytes.
  rewrite <- flat_getBytes_length. rewrite splice_splice; [reflexivity|].
  rewrite flat_getBytes_length, padding_length.
  unfold sizeof_level, levels in *. lia.
Qed.

Lemma splice_lookup_outside out off bs i :
  (off + length bs <= length out)%nat ->
  (i < off \/ off + length bs <= i)%nat ->
  splice out off bs !! i = out !! i.
Proof.
  intros Hroom Hi. unfold splice. destruct Hi as [Hi|Hi].
  - rewrite lookup_app_l by (rewrite length_take; lia).
    apply lookup_take_lt. exact Hi.
  - rewrite lookup_app_r by (rewrite length_take; lia).
    rewrite length_take, Nat.min_l by lia.
    rewrite lookup_app_r by lia. rewrite lookup_drop. f_equal. lia.
Qed.

(** C2, as the code has it.  When the buffer has room for a record at the
    offset, the point encoder either ends in the fatal error of pass 3,
    writing nothing, or writes exactly [levels * sizeof_level = 20] bytes
    from the offset on: the four bytes of each surviving entry, then empty
    descriptors up to [levels] slots; the buffer keeps its length and every
    byte outside those 20. *)
Theorem encodeVectors_writes_record (out : list Z) (off : nat) (p : Point)
    (avs : list AirspaceVector) :
  (off + levels * sizeof_level <= length out)%nat ->
  (survivors p avs = Err (SystemExit p) /\
   encodeVectors out off p avs = Err (SystemExit p)) \/
  (exists c out',
     survivors p avs = Ok c /\ (length c <= levels)%nat /\
     length (recordBytes c) = 20%nat /\
     encodeVectors out off p avs = Ok out' /\
     out' = take off out ++ recordBytes c ++ drop (off + 20) out /\
     length out' = length out /\
     forall i, (i < off \/ off + 20 <= i)%nat -> out' !! i = out !! i).
Proof.
  intros Hroom. rewrite (encodeVectors_splice out off p avs Hroom).
  destruct (survivors_cases p avs) as [->|(c & -> & Hlen & Hasc)].
  - left. split; reflexivity.
  - right. pose proof (recordBytes_length c Hlen) as Hrec.
    change (levels * sizeof_level)%nat with 20%nat in *.
    exists c, (splice out off (recordBytes c)).
    split; [reflexivity|]. split; [exact Hlen|]. split; [exact Hrec|].
    split; [reflexivity|]. split; [unfold splice; rewrite Hrec; reflexivity|].
    split; [apply splice_length; lia|].
    intros i Hi. apply splice_lookup_outside; lia.
Qed.

(** C2 as stated fails: for six stacked airspaces that all contain the
    point the encoder ends in the fatal error and writes no record. *)
Lemma encodeVectors_six_inside_no_record :
  encodeVectors (repeat 7 20) 0 origin avs_six_inside
    = Err (SystemExit origin) /\
  ~ (exists rec, length rec = 20%nat /\
       encodeVectors (repeat 7 20) 0 origin avs_six_inside
       = Ok (take 0 (repeat 7 20) ++ rec ++ drop 20 (repeat 7 20))).
Proof.
  assert (encodeVectors (repeat 7 20) 0 origin avs_six_inside
          = Err (SystemExit origin)) as H by (vm_compute; reflexivity).
  split; [exact H|]. intros (rec & _ & Hrec). rewrite H in Hrec.
  discriminate.
Qed.

(** ** The level decoder *)

Lemma low7 (raw : Z) :
  0 <= raw < 256 -> (if raw >? 127 then raw - 128 else raw) = Z.land raw 127.
Proof.
  intros Hraw. change 127 with (Z.ones 7) at 2.
  rewrite Z.land_ones by lia. change (2 ^ 7) with 128.
  destruct (Z.gtb_spec raw 127); Z.div_mod_to_equations; lia.
Qed.

(** C8.  For a ceiling byte whose low 7 bits are 0x7F the level is printed
    with the ceiling "MAX" in place of the number of feet; for a ceiling byte
    whose low 7 bits are 0 the level is printed as "---", whatever the other
    three bytes are; four zero bytes are printed as "---". *)
Theorem decodeLevel_max_and_empty (level : nat)
    (floor_raw ceil_raw angle_raw distance_raw : Z) :
  0 <= ceil_raw < 256 ->
  (Z.land ceil_raw 127 = 127 ->
   decodeLevel level floor_raw ceil_raw angle_raw distance_raw
   = levelLine level
       ((if floor_raw >? 127 then floor_raw - 128 else floor_raw) * 250)
       (if floor_raw >? 127 then "AGL" else "MSL")
       "MAX"
       (if ceil_raw >? 127 then "AGL" else "MSL")
       ((if angle_raw >? 127 then angle_raw - 128 else angle_raw) * 3)
       (distance_raw * 64)
       (if angle_raw >? 127 then " INSIDE!" else "")) /\
  (Z.land ceil_raw 127 <> 127 -> Z.land ceil_raw 127 <> 0 ->
   decodeLevel level floor_raw ceil_raw angle_raw distance_raw
   = levelLine level
       ((if floor_raw >? 127 then floor_raw - 128 else floor_raw) * 250)
       (if floor_raw >? 127 then "AGL" else "MSL")
       (str (Z.land ceil_raw 127 * 250))
       (if ceil_raw >? 127 then "AGL" else "MSL")
       ((if angle_raw >? 127 then angle_raw - 128 else angle_raw) * 3)
       (distance_raw * 64)
       (if angle_raw >? 127 then " INSIDE!" else "")) /\
  (Z.land ceil_raw 127 = 0 ->
   decodeLevel level floor_raw ceil_raw angle_raw distance_raw
   = emptyLine level) /\
  decodeLevel level 0 0 0 0 = emptyLine level.
Proof.
  intros Hraw. unfold decodeLevel. cbv zeta. rewrite (low7 ceil_raw Hraw).
  repeat split.
  - intros ->. reflexivity.
  - intros Hmax Hzero.
    destruct (Z.eqb_spec (Z.land ceil_raw 127 * 250) 0) as [H0|_]; [lia|].
    destruct (Z.eqb_spec (Z.land ceil_raw 127) 127) as [H1|_]; [lia|].
    reflexivity.
  - intros ->. reflexivity.
Qed.

(** A ceiling byte of 255, a ceiling byte of 128 among bytes that are not
    zero, and a numeric ceiling. *)
Lemma decodeLevel_max_and_empty_witness :
  decodeLevel 1 128 255 158 10
    = "  level 1 floor=0 AGL ceil=MAX AGL  angle=90 distance=640 INSIDE!" /\
  decodeLevel 2 20 40 30 10
    = "  level 2 floor=5000 MSL ceil=10000 MSL  angle=90 distance=640" /\
  decodeLevel 3 20 128 30 10 = "  level 3 ---".
Proof.
  assert (0 <= 255 < 256) as H255 by lia.
  assert (0 <= 40 < 256) as H40 by lia.
  assert (0 <= 128 < 256) as H128 by lia.
  split; [|split].
  - exact (proj1 (decodeLevel_max_and_empty 1 128 255 158 10 H255) eq_refl).
  - refine (proj1 (proj2 (decodeLevel_max_and_empty 2 20 40 30 10 H40)) _ _);
      vm_compute; discriminate.
  - exact (proj1 (proj2 (proj2
             (decodeLevel_max_and_empty 3 20 128 30 10 H128))) eq_refl).
Defined.

(** The padding of a point without airspaces decodes to five empty
    levels. *)
Example decodeAt_padding :
  map (decodeAt (repeat 0 20)) (seq 0 levels)
  = [ Ok "  level 0 ---"; Ok "  level 1 ---"; Ok "  level 2 ---";
      Ok "  level 3 ---"; Ok "  level 4 ---" ].
Proof. vm_compute. reflexivity. Qed.

(** The record of a point inside one airspace from 0 ft AGL to 5000 ft MSL,
    as [main] prints its first level. *)
Example decodeAt_single :
  (out ← encodeVectors (repeat 0 20) 0 origin avs_single; decodeAt out 0)
  = Ok "  level 0 floor=0 AGL ceil=5000 MSL  angle=90 distance=640 INSIDE!".
Proof. vm_compute. reflexivity. Qed.

(** ** The tile driver *)

(** C9.  When the tile's file exists and [force] is off, [dump] returns at
    once: it prints that it skips the tile, leaves every file as it was, and
    neither allocates the buffer nor calls [dumpPoint]. *)
Theorem dump_skips_existing_file (G : GeometryProvider) (cfg : Config)
    (lon lat : Z) (airspaces : list Airspace) (draw : bool) (w : world) :
  isfile w (tileName lon lat) = true ->
  force cfg = false ->
  dump cfg lon lat airspaces draw w
    = (emit w (Print (ExistsSkipping (tileName lon lat))), Returned) /\
  files (fst (dump cfg lon lat airspaces draw w)) = files w /\
  log (fst (dump cfg lon lat airspaces draw w))
    = log w ++ [Print (ExistsSkipping (tileName lon lat))].
Proof.
  intros Hfile Hforce.
  assert (dump cfg lon lat airspaces draw w
          = (emit w (Print (ExistsSkipping (tileName lon lat))), Returned))
    as Hdump by (unfold dump; rewrite Hfile, Hforce; reflexivity).
  rewrite Hdump. repeat split.
Qed.

(** The tile of 48N 9E is there: nothing is computed, even though every
    point is inside an airspace. *)
Lemma dump_skips_existing_file_witness :
  dump (H := provider_inside) config_default 9 48 one_zone false
       world_with_tile
    = (emit world_with_tile (Print (ExistsSkipping "N48E009.air")), Returned)
  /\
  files (fst (dump (H := provider_inside) config_default 9 48 one_zone false
                   world_with_tile))
    = files world_with_tile /\
  log (fst (dump (H := provider_inside) config_default 9 48 one_zone false
                 world_with_tile))
    = [Print (ExistsSkipping "N48E009.air")].
Proof.
  apply (dump_skips_existing_file provider_inside config_default 9 48
           one_zone false world_with_tile); vm_compute; reflexivity.
Defined.

Lemma repeat_lookup_lt {A} (x : A) n i :
  (i < n)%nat -> repeat x n !! i = Some x.
Proof.
  revert i. induction n as [|n IH]; intros i Hi; [lia|].
  destruct i as [|i]; [reflexivity|]. cbn. apply IH. lia.
Qed.

Lemma scan_record_zeros n e :
  (levels * sizeof_level <= n)%nat -> scan_record (repeat 0 n) e = Ok e.
Proof.
  intros Hn. unfold scan_record.
  assert (forall i, In i (seq 0 (levels * sizeof_level)) -> (i < n)%nat) as Hl
    by (intros i Hi; apply in_seq in Hi; lia).
  revert Hl. generalize (seq 0 (levels * sizeof_level)).
  intros l. induction l as [|i l IH]; intros Hl; [reflexivity|].
  cbn [fold_left mbind result_bind].
  rewrite repeat_lookup_lt by (apply Hl; left; reflexivity).
  cbn [Z.eqb]. apply IH. intros j Hj. apply Hl. right. exact Hj.
Qed.

(** The scan after each sampled point reads the first record only. *)
Lemma scan_record_first_record (out out' : list Z) e :
  take (levels * sizeof_level) out = take (levels * sizeof_level) out' ->
  scan_record out e = scan_record out' e.
Proof.
  intros Htake. unfold scan_record.
  assert (forall i, In i (seq 0 (levels * sizeof_level)) ->
                    out !! i = out' !! i) as Hl.
  { intros i Hi. apply in_seq in Hi.
    rewrite <- (lookup_take_lt out (levels * sizeof_level)) by lia.
    rewrite <- (lookup_take_lt out' (levels * sizeof_level)) by lia.
    rewrite Htake. reflexivity. }
  revert Hl. generalize (seq 0 (levels * sizeof_level)) (Ok e : result bool).
  intros l. induction l as [|i l IH]; intros acc Hl; [reflexivity|].
  cbn [fold_left]. rewrite (Hl i) by (left; reflexivity).
  apply IH. intros j Hj. apply Hl. right. exact Hj.
Qed.

Lemma all_zero_repeat n : all_zero (repeat 0 n) = true.
Proof. induction n as [|n IH]; [reflexivity|exact IH]. Qed.

Lemma repeat_take_drop {A} (x : A) n m :
  (m <= n)%nat -> repeat x m ++ drop m (repeat x n) = repeat x n.
Proof.
  revert n. induction m as [|m IH]; intros n H; [reflexivity|].
  destruct n as [|n]; [lia|]. cbn [repeat drop app]. f_equal.
  apply IH. lia.
Qed.

(** A point with an all-zero record leaves an all-zero buffer as it is. *)
Lemma dumpPoint_zero_record (G : GeometryProvider) p airspaces n :
  (levels * sizeof_level <= n)%nat ->
  pointRecord p airspaces = Ok (repeat 0 (levels * sizeof_level)) ->
  dumpPoint (repeat 0 n) 0 p airspaces = Ok (repeat 0 n).
Proof.
  intros Hn Hrec. unfold pointRecord, dumpPoint in *.
  rewrite encodeVectors_splice in Hrec by (rewrite repeat_length; lia).
  rewrite encodeVectors_splice by (rewrite repeat_length; lia).
  destruct (survivors_cases p (collectVectors p airspaces))
    as [Herr|(c & Hc & Hlen & _)]; [rewrite Herr in Hrec; discriminate|].
  rewrite Hc in *. cbn [mbind result_bind] in *. f_equal.
  injection Hrec as Hrec. pose proof (recordBytes_length c Hlen) as Hl.
  unfold splice in *. rewrite Hl in *. cbn [take app] in *.
  change (0 + levels * sizeof_level)%nat with 20%nat in *.
  cbn [drop] in Hrec. rewrite app_nil_r in Hrec. rewrite Hrec.
  apply (repeat_take_drop 0 n 20). exact Hn.
Qed.

Lemma quickcheck_fold_zero (G : GeometryProvider) airspaces n pts :
  (levels * sizeof_level <= n)%nat ->
  (forall p, In p pts ->
     pointRecord p airspaces = Ok (repeat 0 (levels * sizeof_level))) ->
  forall w,
    fold_left (quickcheck_point airspaces) pts (w, Ok (repeat 0 n, true))
    = (mkWorld (files w) (log w ++ map (CallDumpPoint 0) pts),
       Ok (repeat 0 n, true)).
Proof.
  intros Hn. induction pts as [|p pts IH]; intros Hall w.
  - cbn. rewrite app_nil_r. destruct w; reflexivity.
  - cbn [fold_left quickcheck_point].
    rewrite (dumpPoint_zero_record G p airspaces n Hn)
      by (apply Hall; left; reflexivity).
    cbn [mbind result_bind]. rewrite (scan_record_zeros n true Hn).
    cbn [mbind result_bind].
    rewrite IH by (intros q Hq; apply Hall; right; exact Hq).
    unfold emit. cbn [files log map]. rewrite <- app_assoc. reflexivity.
Qed.

Lemma quickcheck_points_length lon lat :
  length (quickcheck_points lon lat) = 100%nat.
Proof.
  unfold quickcheck_points. rewrite length_flat_map.
  unfold arange. change (Z.to_nat 10) with 10%nat.
  cbn [seq map list_sum length]. reflexivity.
Qed.

Lemma quickcheck_fold_err (G : GeometryProvider) airspaces pts w e :
  fold_left (quickcheck_point airspaces) pts (w, Err e) = (w, Err e).
Proof. induction pts as [|p pts IH]; [reflexivity|exact IH]. Qed.

(** Whatever the records are, the quick check calls [dumpPoint] at offset 0
    on the sampled points in order, up to the first that fails, and touches
    no file. *)
Lemma quickcheck_fold_log (G : GeometryProvider) airspaces pts :
  forall w r,
    exists k,
      log (fst (fold_left (quickcheck_point airspaces) pts (w, r)))
      = log w ++ map (CallDumpPoint 0) (take k pts) /\
      files (fst (fold_left (quickcheck_point airspaces) pts (w, r)))
      = files w.
Proof.
  induction pts as [|p pts IH]; intros w r.
  - exists 0%nat. cbn. rewrite app_nil_r. split; reflexivity.
  - cbn [fold_left]. destruct r as [[out e]|err].
    + cbn [quickcheck_point].
      destruct (IH (emit w (CallDumpPoint 0 p))
                   (output' ← dumpPoint out 0 p airspaces;
                    isEmpty' ← scan_record output' e;
                    Ok (output', isEmpty'))) as (k & Hlog & Hfiles).
      exists (S k). rewrite Hlog, Hfiles. unfold emit. cbn [log files take map].
      rewrite <- app_assoc. split; reflexivity.
    + cbn [quickcheck_point]. rewrite quickcheck_fold_err.
      exists 0%nat. cbn. rewrite app_nil_r. split; reflexivity.
Qed.

Lemma filesize_room (numPoints : Z) :
  numPoints <> 0 ->
  (levels * sizeof_level
   <= Z.to_nat (numPoints * numPoints * Z.of_nat levels
                * Z.of_nat sizeof_level))%nat.
Proof.
  intros Hn. change (Z.of_nat levels) with 5. change (Z.of_nat sizeof_level) with 4.
  change (levels * sizeof_level)%nat with 20%nat.
  assert (1 <= numPoints * numPoints) by nia. lia.
Qed.

(** When every sampled point has an all-zero record, [dump] stops after the
    quick check: a hundred calls of [dumpPoint] at offset 0, the message that
    the tile is empty, and no file touched. *)
Lemma dump_quickcheck_empty (G : GeometryProvider) (cfg : Config)
    (lon lat : Z) (airspaces : list Airspace) (draw : bool) (w : world) :
  isfile w (tileName lon lat) && negb (force cfg) = false ->
  (if draw then 10 else wantedResolution cfg) <> 0 ->
  (forall p, In p (quickcheck_points lon lat) ->
     pointRecord p airspaces = Ok (repeat 0 (levels * sizeof_level))) ->
  dump cfg lon lat airspaces draw w
  = (mkWorld (files w)
       (log w
        ++ [ Print (Computing (tileName lon lat)
                      (if draw then 10 else wantedResolution cfg));
             Alloc ((if draw then 10 else wantedResolution cfg)
                    * (if draw then 10 else wantedResolution cfg)
                    * Z.of_nat levels * Z.of_nat sizeof_level) ]
        ++ map (CallDumpPoint 0) (quickcheck_points lon lat)
        ++ [Print (IsEmpty (tileName lon lat))]),
     Returned).
Proof.
  intros Hskip Hn Hzero. unfold dump. rewrite Hskip.
  set (numPoints := if draw then 10 else wantedResolution cfg) in *.
  set (filesize := numPoints * numPoints * Z.of_nat levels
                   * Z.of_nat sizeof_level).
  pose proof (filesize_room numPoints Hn) as Hroom. fold filesize in Hroom.
  unfold dump_try, quickcheck.
  rewrite (quickcheck_fold_zero G airspaces (Z.to_nat filesize)
             (quickcheck_points lon lat) Hroom Hzero).
  cbn [negb]. rewrite all_zero_repeat.
  unfold emit. cbn [files log]. rewrite <- !app_assoc. reflexivity.
Qed.

Lemma arange_In start n i :
  (i < Z.to_nat n)%nat -> In (arange_at start (Z.to_pos n) i) (arange start n).
Proof.
  intros Hi. unfold arange. apply in_map, in_seq. lia.
Qed.

(** ** A fatal point during the quick check *)

Lemma dumpPoint_cases (G : GeometryProvider) out off p airspaces :
  (off + levels * sizeof_level <= length out)%nat ->
  match survivors p (collectVectors p airspaces) with
  | Ok c => dumpPoint out off p airspaces = Ok (splice out off (recordBytes c))
            /\ length (splice out off (recordBytes c)) = length out
  | Err e => e = SystemExit p /\
             dumpPoint out off p airspaces = Err (SystemExit p)
  end.
Proof.
  intros Hroom. unfold dumpPoint.
  rewrite (encodeVectors_splice out off p _ Hroom).
  destruct (survivors_cases p (collectVectors p airspaces))
    as [->|(c & -> & Hlen & _)]; [split; reflexivity|].
  split; [reflexivity|]. apply splice_length.
  rewrite (recordBytes_length c Hlen). exact Hroom.
Qed.

Lemma scan_record_returns (out : list Z) e :
  (levels * sizeof_level <= length out)%nat ->
  exists b, scan_record out e = Ok b.
Proof.
  intros Hn. unfold scan_record.
  assert (forall i, In i (seq 0 (levels * sizeof_level)) ->
                    (i < length out)%nat) as Hl
    by (intros i Hi; apply in_seq in Hi; lia).
  revert Hl e. generalize (seq 0 (levels * sizeof_level)).
  intros l. induction l as [|i l IH]; intros Hl e; [exists e; reflexivity|].
  cbn [fold_left mbind result_bind].
  destruct (lookup_lt_is_Some_2 out i (Hl i (or_introl eq_refl))) as [b ->].
  apply IH. intros j Hj. apply Hl. right. exact Hj.
Qed.

(** The quick check stops at the first sampled point whose compaction is
    fatal. *)
Lemma quickcheck_fold_fatal (G : GeometryProvider) airspaces q post :
  survivors q (collectVectors q airspaces) = Err (SystemExit q) ->
  forall pre,
    (forall p, In p pre ->
       survivors p (collectVectors p airspaces) <> Err (SystemExit p)) ->
    forall w out e,
      (levels * sizeof_level <= length out)%nat ->
      fold_left (quickcheck_point airspaces) (pre ++ q :: post)
                (w, Ok (out, e))
      = (mkWorld (files w) (log w ++ map (CallDumpPoint 0) (pre ++ [q])),
         Err (SystemExit q)).
Proof.
  intros Hq. induction pre as [|p pre IH]; intros Hpre w out e Hroom.
  - cbn [app fold_left quickcheck_point map].
    pose proof (dumpPoint_cases G out 0 q airspaces Hroom) as Hd.
    rewrite Hq in Hd. destruct Hd as [_ ->]. cbn [mbind result_bind].
    apply quickcheck_fold_err.
  - cbn [app fold_left quickcheck_point].
    pose proof (dumpPoint_cases G out 0 p airspaces Hroom) as Hd.
    destruct (survivors p (collectVectors p airspaces)) as [c|err] eqn:Hs.
    + destruct Hd as [-> Hlen]. cbn [mbind result_bind].
      destruct (scan_record_returns (splice out 0 (recordBytes c)) e)
        as [b ->]; [lia|].
      cbn [mbind result_bind].
      rewrite IH; [|intros r Hr; apply Hpre; right; exact Hr|lia].
      unfold emit. cbn [files log map]. rewrite <- app_assoc. reflexivity.
    + destruct Hd as [-> _]. exfalso.
      apply (Hpre p (or_introl eq_refl)). exact Hs.
Qed.

(** A sampled point whose compaction is fatal ends the tile: the point is
    printed, the process exits with status 1, and no file is touched. *)
Lemma dump_fatal_in_quickcheck (G : GeometryProvider) (cfg : Config)
    (lon lat : Z) (airspaces : list Airspace) (draw : bool) (w : world)
    (pre post : list Point) (q : Point) :
  isfile w (tileName lon lat) && negb (force cfg) = false ->
  (if draw then 10 else wantedResolution cfg) <> 0 ->
  quickcheck_points lon lat = pre ++ q :: post ->
  (forall p, In p pre ->
     survivors p (collectVectors p airspaces) <> Err (SystemExit p)) ->
  survivors q (collectVectors q airspaces) = Err (SystemExit q) ->
  dump cfg lon lat airspaces draw w
  = (mkWorld (files w)
       (log w
        ++ [ Print (Computing (tileName lon lat)
                      (if draw then 10 else wantedResolution cfg));
             Alloc ((if draw then 10 else wantedResolution cfg)
                    * (if draw then 10 else wantedResolution cfg)
                    * Z.of_nat levels * Z.of_nat sizeof_level) ]
        ++ map (CallDumpPoint 0) (pre ++ [q])
        ++ [Print (TooMuchAirspaces q); Print Exiting]),
     Exited 1).
Proof.
  intros Hskip Hn Hpts Hpre Hq. unfold dump. rewrite Hskip.
  set (numPoints := if draw then 10 else wantedResolution cfg) in *.
  set (filesize := numPoints * numPoints * Z.of_nat levels
                   * Z.of_nat sizeof_level).
  pose proof (filesize_room numPoints Hn) as Hroom. fold filesize in Hroom.
  unfold dump_try, quickcheck. rewrite Hpts.
  rewrite (quickcheck_fold_fatal G airspaces q post Hq pre Hpre)
    by (rewrite repeat_length; exact Hroom).
  unfold emit. cbn [files log]. rewrite <- !app_assoc. reflexivity.
Qed.

(** ** The properties on concrete inputs *)

(** Two inside vectors at one distance over a band, and a nearer one
    outside: the first inside one is chosen.  Six outside vectors, one over
    the band: that one is chosen. *)
Lemma chooseBand_first_nearest_witness :
  (exists v, chooseBand avs_tie (500, false) = Some v /\
     first_best distance (fun w => covers (500, false) w && inside w)
                avs_tie v) /\
  match chooseBand avs_near (500, false) with
  | Some v => first_best distance (covers (500, false)) avs_near v
  | None => forall w, In w avs_near -> covers (500, false) w = false
  end.
Proof.
  split.
  - apply (proj1 (chooseBand_first_nearest avs_tie (500, false))).
    exists (toward 1 0 1000 640 90 true).
    split; [right; left; reflexivity|split; reflexivity].
  - apply (proj2 (chooseBand_first_nearest avs_near (500, false))).
    intros w Hw Hc. cbn in Hw.
    repeat (destruct Hw as [<-|Hw]; [reflexivity|]). destruct Hw.
Defined.

Example chooseBand_tie :
  chooseBand avs_tie (500, false) = Some (toward 1 0 1000 640 90 true).
Proof. reflexivity. Qed.

Example heightBands_interleaved :
  heightBands avs_interleaved = Ok dict_interleaved.
Proof. vm_compute. reflexivity. Qed.

Example heightBands_empty : heightBands [] = Ok [].
Proof. reflexivity. Qed.

(** One airspace chosen for three bands in a row: the lowest band is
    left. *)
Lemma pass1_collapses_runs_witness :
  heightBands avs_run = Ok dict_run /\
  pass1 dict_run = Ok [((0, false), toward 0 0 3000 640 0 false)].
Proof.
  split; [vm_compute; reflexivity|].
  assert (ascending (dict_keys dict_run)) as Hasc by solve_ascending.
  exact (proj1 (pass1_collapses_runs dict_run Hasc)).
Defined.

(** Six bands at one distance: the bands at 1000 and 2000 ft go, each being
    near the band just below it. *)
Lemma pass2_drops_near_adjacent_witness :
  pass2 (take 2 dict_near) = Ok (take 2 dict_near) /\
  exists d', pass2 dict_near = Ok d' /\ d' `sublist_of` dict_near /\
    (forall e, dict_near !! 0%nat = Some e -> In e d') /\
    forall i k v, dict_near !! i = Some (k, v) ->
      (~ In (k, v) d' <->
       (0 < i)%nat /\ exists k' v', dict_near !! (i - 1)%nat = Some (k', v') /\
         getDistanceAsByte v = getDistanceAsByte v' /\
         Z.abs (getAngleAsByte v - getAngleAsByte v') <= 5).
Proof.
  split.
  - assert (ascending (dict_keys (take 2 dict_near))) as Hasc
      by solve_ascending.
    apply (proj1 (pass2_drops_near_adjacent (take 2 dict_near) Hasc)).
    vm_compute. lia.
  - assert (ascending (dict_keys dict_near)) as Hasc by solve_ascending.
    apply (proj2 (pass2_drops_near_adjacent dict_near Hasc)).
    vm_compute. lia.
Defined.

(** C4 as stated fails.  In the pass-1 result of [avs_near] the band at
    1000 ft is dropped, so the last surviving band below the band at 2000 ft
    is the lowest one; their distance bytes are equal and their bearing
    bytes are 8 apart, yet pass 2 drops the band at 2000 ft. *)
Lemma pass2_compares_with_dropped_band :
  (d ← heightBands avs_near; pass1 d) = Ok dict_near /\
  (levels < length dict_near)%nat /\
  pass2 dict_near
    = Ok [ ((0, false), toward 0 0 1000 640 0 false);
           ((3000, false), toward 3 3000 4000 640 90 false);
           ((4000, false), toward 4 4000 5000 640 180 false);
           ((5000, false), toward 5 5000 6000 640 270 false) ] /\
  Z.abs (getAngleAsByte (toward 2 2000 3000 640 24 false)
         - getAngleAsByte (toward 0 0 1000 640 0 false)) = 8 /\
  In ((2000, false), toward 2 2000 3000 640 24 false) (spec_pass2 dict_near) /\
  pass2 dict_near <> Ok (spec_pass2 dict_near).
Proof.
  split; [vm_compute; reflexivity|]. split; [vm_compute; lia|].
  split; [vm_compute; reflexivity|]. split; [reflexivity|].
  split; [vm_compute; right; left; reflexivity|].
  vm_compute. discriminate.
Qed.

(** A point inside one airspace from 0 ft AGL to 5000 ft MSL: one level
    with floor byte 128 and ceiling byte 20, four empty levels, the rest of
    the buffer untouched. *)
Lemma encodeVectors_writes_record_witness :
  encodeVectors (repeat 7 24) 2 origin avs_single
  = Ok [7; 7; 128; 20; 158; 10; 0; 0; 0; 0; 0; 0; 0; 0; 0; 0; 0; 0; 0; 0;
        0; 0; 7; 7].
Proof.
  assert (2 + levels * sizeof_level <= length (repeat 7 24))%nat as Hroom
    by (vm_compute; lia).
  destruct (encodeVectors_writes_record (repeat 7 24) 2 origin avs_single
              Hroom) as [[Herr _]|(c & out' & Hc & _ & _ & Hout & Heq & _)].
  - vm_compute in Herr. discriminate.
  - vm_compute in Hc. injection Hc as <-. rewrite Hout, Heq.
    vm_compute. reflexivity.
Defined.

Example encodeVectors_empty_set :
  encodeVectors (repeat 7 24) 2 origin []
  = Ok [7; 7; 0; 0; 0; 0; 0; 0; 0; 0; 0; 0; 0; 0; 0; 0; 0; 0; 0; 0; 0; 0;
        7; 7].
Proof. vm_compute. reflexivity. Qed.

Example encodeVectors_no_room :
  encodeVectors (repeat 7 24) 5 origin [] = Err IndexError.
Proof. vm_compute. reflexivity. Qed.

(** Seven airspaces the point is outside of: the two farthest go. *)
Example pass3_seven_outside :
  pass3 origin dict_seven_outside
  = Ok [ ((1000, false), toward 1 1000 2000 640 30 false);
         ((3000, false), toward 3 3000 4000 1280 90 false);
         ((4000, false), toward 4 4000 5000 1920 120 false);
         ((5000, false), toward 5 5000 6000 2560 150 false);
         ((6000, false), toward 6 6000 7000 3200 180 false) ].
Proof. vm_compute. reflexivity. Qed.

(** Six stacked airspaces that all contain the point reach pass 3 as six
    entries: no two share an airspace or look alike once quantised. *)
Example six_inside_reach_pass3 :
  (d ← heightBands avs_six_inside; d1 ← pass1 d; pass2 d1)
  = Ok dict_six_inside.
Proof. vm_compute. reflexivity. Qed.

(** The vectors a provider yields for the airspaces within reach. *)
Example collectVectors_sliver :
  collectVectors (H := provider_sliver)
    (mkPoint (arange_at 9 20 1) (arange_at 48 20 0)) one_zone
  = [mkVector 0 (zone 0 0 5000) 640 90 true] /\
  collectVectors (H := provider_sliver)
    (mkPoint (arange_at 9 10 1) (arange_at 48 10 0)) one_zone = [].
Proof. split; vm_compute; reflexivity. Qed.

(** ** The fatal case of pass 3, end to end *)

(** C1.  In pass 3, a map of more than [levels] entries without an entry
    that is not inside ends the point's processing: [dumpPoint] prints the
    point and exits, here [Err (SystemExit p)], before it writes a byte.  An
    inside entry is never dropped, by one turn of the loop or by the whole
    pass, so the pass ends that way exactly when more than [levels] entries
    are inside.  In [dump], the first such point of the quick check ends the
    tile: the point is printed and the process exits with status 1. *)
Theorem pass3_fatal_never_drops_inside :
  (forall (p : Point) (d : dict),
     ascending (dict_keys d) ->
     ((levels < length d)%nat ->
      (forall w, In w (dict_values d) -> inside w = true) ->
      pass3_step p d = Err (SystemExit p) /\
      pass3 p d = Err (SystemExit p)) /\
     (forall d', pass3_step p d = Ok d' ->
        forall k v, In (k, v) d -> inside v = true -> In (k, v) d') /\
     (forall d', pass3 p d = Ok d' ->
        forall k v, In (k, v) d -> inside v = true -> In (k, v) d') /\
     (pass3 p d = Err (SystemExit p) <-> (levels < count_inside d)%nat)) /\
  (forall (out : list Z) (off : nat) (p : Point) (avs : list AirspaceVector),
     survivors p avs = Err (SystemExit p) ->
     encodeVectors out off p avs = Err (SystemExit p)) /\
  (forall (G : GeometryProvider) (cfg : Config) (lon lat : Z)
          (airspaces : list Airspace) (draw : bool) (w : world)
          (pre post : list Point) (q : Point),
     isfile w (tileName lon lat) && negb (force cfg) = false ->
     (if draw then 10 else wantedResolution cfg) <> 0 ->
     quickcheck_points lon lat = pre ++ q :: post ->
     (forall p, In p pre ->
        survivors p (collectVectors p airspaces) <> Err (SystemExit p)) ->
     survivors q (collectVectors q airspaces) = Err (SystemExit q) ->
     dump cfg lon lat airspaces draw w
     = (mkWorld (files w)
          (log w
           ++ [ Print (Computing (tileName lon lat)
                         (if draw then 10 else wantedResolution cfg));
                Alloc ((if draw then 10 else wantedResolution cfg)
                       * (if draw then 10 else wantedResolution cfg)
                       * Z.of_nat levels * Z.of_nat sizeof_level) ]
           ++ map (CallDumpPoint 0) (pre ++ [q])
           ++ [Print (TooMuchAirspaces q); Print Exiting]),
        Exited 1)).
Proof.
  split; [exact pass3_inside_kept|]. split; [|exact dump_fatal_in_quickcheck].
  intros out off p avs Herr. rewrite encodeVectors_survivors, Herr.
  reflexivity.
Qed.

(** Six stacked airspaces that all contain the point: pass 3 is fatal, the
    encoder writes nothing, and the tile ends at its first sampled point. *)
Lemma pass3_fatal_never_drops_inside_witness :
  (pass3_step origin dict_six_inside = Err (SystemExit origin) /\
   pass3 origin dict_six_inside = Err (SystemExit origin)) /\
  encodeVectors (repeat 7 20) 0 origin avs_six_inside
    = Err (SystemExit origin) /\
  dump (H := provider_inside) config_coarse 9 48 six_zones false world_empty
  = (mkWorld ∅
       [ Print (Computing "N48E009.air" 20); Alloc 8000;
         CallDumpPoint 0 (mkPoint (arange_at 9 10 0) (arange_at 48 10 0));
         Print (TooMuchAirspaces
                  (mkPoint (arange_at 9 10 0) (arange_at 48 10 0)));
         Print Exiting ],
     Exited 1).
Proof.
  split; [|split].
  - assert (ascending (dict_keys dict_six_inside)) as Hasc by solve_ascending.
    apply (proj1 (proj1 pass3_fatal_never_drops_inside origin
                    dict_six_inside Hasc)).
    + vm_compute. lia.
    + intros w Hw. cbn in Hw.
      repeat (destruct Hw as [<-|Hw]; [reflexivity|]). destruct Hw.
  - apply (proj1 (proj2 pass3_fatal_never_drops_inside)).
    vm_compute. reflexivity.
  - apply (proj2 (proj2 pass3_fatal_never_drops_inside) provider_inside
             config_coarse 9 48 six_zones false world_empty []
             (tl (quickcheck_points 9 48))
             (mkPoint (arange_at 9 10 0) (arange_at 48 10 0))).
    + reflexivity.
    + vm_compute. discriminate.
    + reflexivity.
    + intros p [].
    + vm_compute. reflexivity.
Defined.

(* ===================================================================== *)
(** * Further properties *)
(* ===================================================================== *)

(** ** The encoder on any buffer *)

Lemma write_byte_length out off b out' :
  write_byte out off b = Ok out' -> length out' = length out.
Proof.
  unfold write_byte. destruct (off <? length out)%nat; [|discriminate].
  intros H. injection H as <-. apply length_insert.
Qed.

Lemma write_bytes_app b1 : forall b2 out off,
  write_bytes out off (b1 ++ b2)
  = ('(out1, off1) ← write_bytes out off b1; write_bytes out1 off1 b2).
Proof.
  induction b1 as [|b b1 IH]; intros b2 out off; [reflexivity|].
  cbn [app write_bytes]. destruct (write_byte out off b) as [out'|e];
    [|reflexivity].
  cbn [mbind result_bind]. apply IH.
Qed.

Lemma write_bytes_no_room bs : forall out off,
  bs <> [] -> (length out < off + length bs)%nat ->
  write_bytes out off bs = Err IndexError.
Proof.
  induction bs as [|b bs IH]; intros out off Hne Hlen; [congruence|].
  cbn [write_bytes]. unfold write_byte.
  destruct (off <? length out)%nat eqn:Hoff; [|reflexivity].
  cbn [mbind result_bind]. apply Nat.ltb_lt in Hoff.
  cbn [length] in Hlen. apply IH.
  - destruct bs; [cbn [length] in Hlen; lia|discriminate].
  - rewrite length_insert. lia.
Qed.

Lemma write_levels_bytes (c : dict) rest : forall pre out off,
  c = pre ++ rest -> NoDup (dict_keys c) ->
  write_levels c (dict_keys rest) out off
  = write_bytes out off (flat_map (fun e => getBytes (snd e)) rest).
Proof.
  induction rest as [|[k v] rest IH]; intros pre out off Hc Hnd;
    [reflexivity|].
  cbn [dict_keys map fst write_levels flat_map snd]. fold (dict_keys rest).
  pose proof Hnd as Hnd'. rewrite Hc, dict_keys_app in Hnd'.
  apply NoDup_app_head in Hnd'. destruct Hnd' as [Hk _].
  replace (dict_get c k) with (Ok v : result AirspaceVector)
    by (rewrite Hc; symmetry; apply dict_get_app, Hk).
  cbn [mbind result_bind]. rewrite write_bytes_app.
  destruct (write_bytes out off (getBytes v)) as [[out1 off1]|e];
    [|reflexivity].
  cbn [mbind result_bind]. apply (IH (pre ++ [(k, v)])); [|exact Hnd].
  rewrite <- app_assoc. exact Hc.
Qed.

Lemma write_padding_bytes n : forall out off,
  write_padding n out off
  = write_bytes out off (concat (repeat emptyBytes n)).
Proof.
  induction n as [|n IH]; intros out off; [reflexivity|].
  cbn [write_padding repeat concat]. rewrite write_bytes_app.
  destruct (write_bytes out off emptyBytes) as [[out1 off1]|e];
    [|reflexivity].
  cbn [mbind result_bind]. apply IH.
Qed.

(** Whatever the buffer, the writes of [dumpPoint] are the bytes of the
    record, one after the other. *)
Lemma encodeVectors_bytes out off p avs :
  encodeVectors out off p avs
  = (c ← survivors p avs;
     '(out', _) ← write_bytes out off (recordBytes c);
     Ok out').
Proof.
  rewrite encodeVectors_survivors.
  destruct (survivors_cases p avs) as [->|(c & -> & Hlen & Hasc)];
    [reflexivity|].
  cbn [mbind result_bind]. rewrite (sorted_ascending _ Hasc).
  rewrite (write_levels_bytes c c [] out off eq_refl (ascending_NoDup _ Hasc)).
  unfold recordBytes. rewrite write_bytes_app.
  destruct (write_bytes out off (flat_map (fun e => getBytes (snd e)) c))
    as [[out1 off1]|e]; [|reflexivity].
  cbn [mbind result_bind]. rewrite write_padding_bytes. reflexivity.
Qed.

(** X1.  The three ways [dumpPoint] ends, on any buffer and offset: the
    fatal exit of pass 3 when more than [levels] inside entries are left,
    whatever the buffer; otherwise [IndexError] when the buffer has fewer
    than 20 bytes from the offset on; otherwise the buffer with the record
    at the offset. *)
Theorem encodeVectors_outcome (out : list Z) (off : nat) (p : Point)
    (avs : list AirspaceVector) :
  (survivors p avs = Err (SystemExit p) /\
   encodeVectors out off p avs = Err (SystemExit p)) \/
  (exists c, survivors p avs = Ok c /\
     encodeVectors out off p avs
     = if (off + levels * sizeof_level <=? length out)%nat
       then Ok (splice out off (recordBytes c))
       else Err IndexError).
Proof.
  rewrite encodeVectors_bytes.
  destruct (survivors_cases p avs) as [->|(c & -> & Hlen & _)];
    [left; split; reflexivity|right].
  exists c. split; [reflexivity|]. cbn [mbind result_bind].
  pose proof (recordBytes_length c Hlen) as Hrec.
  destruct (off + levels * sizeof_level <=? length out)%nat eqn:Hroom.
  - apply Nat.leb_le in Hroom.
    rewrite write_bytes_splice by (rewrite Hrec; exact Hroom). reflexivity.
  - apply Nat.leb_gt in Hroom.
    rewrite write_bytes_no_room; [reflexivity| |rewrite Hrec; exact Hroom].
    intros Hnil. rewrite Hnil in Hrec. discriminate.
Qed.

Lemma splice_lookup_inside out off bs i :
  (off + length bs <= length out)%nat ->
  (off <= i < off + length bs)%nat ->
  splice out off bs !! i = bs !! (i - off)%nat.
Proof.
  intros Hroom Hi. unfold splice.
  rewrite lookup_app_r by (rewrite length_take; lia).
  rewrite length_take, Nat.min_l by lia.
  apply lookup_app_l. lia.
Qed.

(** A later record at the same offset replaces the earlier one. *)
Lemma splice_overwrite out off b1 b2 :
  length b1 = length b2 -> (off + length b1 <= length out)%nat ->
  splice (splice out off b1) off b2 = splice out off b2.
Proof.
  intros Hlen Hroom. apply list_eq. intros i.
  destruct (Nat.lt_ge_cases i off) as [Hlt|Hge].
  - rewrite !splice_lookup_outside
      by (rewrite ?splice_length; lia). reflexivity.
  - destruct (Nat.lt_ge_cases i (off + length b2)) as [Hin|Hout].
    + rewrite !splice_lookup_inside by (rewrite ?splice_length; lia).
      reflexivity.
    + rewrite !splice_lookup_outside
        by (rewrite ?splice_length; lia). reflexivity.
Qed.

(** Records at cells that do not overlap can be written in either order. *)
Lemma splice_commute out off1 b1 off2 b2 :
  (off1 + length b1 <= off2)%nat -> (off2 + length b2 <= length out)%nat ->
  splice (splice out off1 b1) off2 b2 = splice (splice out off2 b2) off1 b1.
Proof.
  intros Hdis Hroom. apply list_eq. intros i.
  destruct (Nat.lt_ge_cases i off1) as [H1|H1].
  - rewrite !splice_lookup_outside
      by (rewrite ?splice_length; lia). reflexivity.
  - destruct (Nat.lt_ge_cases i (off1 + length b1)) as [H2|H2].
    + rewrite (splice_lookup_outside (splice out off1 b1) off2 b2)
        by (rewrite ?splice_length; lia).
      rewrite !splice_lookup_inside by (rewrite ?splice_length; lia).
      reflexivity.
    + destruct (Nat.lt_ge_cases i off2) as [H3|H3].
      * rewrite !splice_lookup_outside
          by (rewrite ?splice_length; lia). reflexivity.
      * destruct (Nat.lt_ge_cases i (off2 + length b2)) as [H4|H4].
        -- rewrite (splice_lookup_outside (splice out off2 b2) off1 b1)
             by (rewrite ?splice_length; lia).
           rewrite !splice_lookup_inside by (rewrite ?splice_length; lia).
           reflexivity.
        -- rewrite !splice_lookup_outside
             by (rewrite ?splice_length; lia). reflexivity.
Qed.

Lemma encodeVectors_Ok_inv out off p avs out' :
  encodeVectors out off p avs = Ok out' ->
  exists c, survivors p avs = Ok c /\ (length c <= levels)%nat /\
    (off + levels * sizeof_level <= length out)%nat /\
    out' = splice out off (recordBytes c).
Proof.
  intros Hok. rewrite encodeVectors_bytes in Hok.
  destruct (survivors_cases p avs) as [Herr|(c & Hc & Hlen & _)];
    [rewrite Herr in Hok; discriminate|].
  rewrite Hc in Hok. cbn [mbind result_bind] in Hok.
  pose proof (recordBytes_length c Hlen) as Hrec.
  exists c. split; [exact Hc|]. split; [exact Hlen|].
  destruct (Nat.le_gt_cases (off + levels * sizeof_level) (length out))
    as [Hroom|Hno].
  - split; [exact Hroom|].
    rewrite write_bytes_splice in Hok by (rewrite Hrec; exact Hroom).
    cbn [mbind result_bind] in Hok. injection Hok as <-. reflexivity.
  - rewrite write_bytes_no_room in Hok;
      [discriminate| |rewrite Hrec; exact Hno].
    intros Hnil. rewrite Hnil in Hrec. discriminate.
Qed.

(** X2.  [dumpPoint] never changes the length of the buffer, and what it
    writes at an offset does not depend on what the buffer held there: after
    a point was encoded at an offset, encoding a second point at the same
    offset gives the buffer that encoding the second point alone gives.  In
    particular encoding a point twice is encoding it once. *)
Theorem encodeVectors_overwrites (out out1 : list Z) (off : nat)
    (p1 p2 : Point) (avs1 avs2 : list AirspaceVector) :
  encodeVectors out off p1 avs1 = Ok out1 ->
  length out1 = length out /\
  encodeVectors out1 off p2 avs2 = encodeVectors out off p2 avs2 /\
  encodeVectors out1 off p1 avs1 = Ok out1.
Proof.
  intros H1.
  destruct (encodeVectors_Ok_inv _ _ _ _ _ H1)
    as (c1 & Hc1 & Hl1 & Hroom & ->).
  pose proof (recordBytes_length c1 Hl1) as Hr1.
  assert (length (splice out off (recordBytes c1)) = length out) as Hlen
    by (apply splice_length; rewrite Hr1; exact Hroom).
  split; [exact Hlen|].
  assert (forall p avs,
            encodeVectors (splice out off (recordBytes c1)) off p avs
            = encodeVectors out off p avs) as Hsame.
  { intros p avs.
    rewrite (encodeVectors_splice _ off p avs) by (rewrite Hlen; exact Hroom).
    rewrite (encodeVectors_splice out off p avs Hroom).
    destruct (survivors_cases p avs) as [->|(c & -> & Hl & _)];
      [reflexivity|].
    cbn [mbind result_bind]. f_equal. apply splice_overwrite.
    - rewrite Hr1, (recordBytes_length c Hl). reflexivity.
    - rewrite Hr1. exact Hroom. }
  split; [apply Hsame|].
  rewrite Hsame, (encodeVectors_splice out off p1 avs1 Hroom), Hc1.
  reflexivity.
Qed.

Lemma encodeVectors_overwrites_witness :
  length [7; 7; 128; 20; 158; 10; 0; 0; 0; 0; 0; 0; 0; 0; 0; 0; 0; 0; 0; 0;
          0; 0; 7; 7] = length (repeat 7 24) /\
  encodeVectors [7; 7; 128; 20; 158; 10; 0; 0; 0; 0; 0; 0; 0; 0; 0; 0; 0; 0;
                 0; 0; 0; 0; 7; 7] 2 origin avs_near
  = encodeVectors (repeat 7 24) 2 origin avs_near /\
  encodeVectors [7; 7; 128; 20; 158; 10; 0; 0; 0; 0; 0; 0; 0; 0; 0; 0; 0; 0;
                 0; 0; 0; 0; 7; 7] 2 origin avs_single
  = Ok [7; 7; 128; 20; 158; 10; 0; 0; 0; 0; 0; 0; 0; 0; 0; 0; 0; 0; 0; 0;
        0; 0; 7; 7].
Proof.
  apply (encodeVectors_overwrites (repeat 7 24) _ 2 origin origin
           avs_single avs_near).
  vm_compute. reflexivity.
Defined.

(** X3.  Two points encoded at cells that do not overlap can be encoded in
    either order: the buffer is the same. *)
Theorem encodeVectors_cells_commute (out o1 o2 : list Z) (off1 off2 : nat)
    (p1 p2 : Point) (avs1 avs2 : list AirspaceVector) :
  (off1 + levels * sizeof_level <= off2)%nat ->
  encodeVectors out off1 p1 avs1 = Ok o1 ->
  encodeVectors out off2 p2 avs2 = Ok o2 ->
  exists o, encodeVectors o1 off2 p2 avs2 = Ok o /\
            encodeVectors o2 off1 p1 avs1 = Ok o.
Proof.
  intros Hdis H1 H2.
  destruct (encodeVectors_Ok_inv _ _ _ _ _ H1)
    as (c1 & Hc1 & Hl1 & Hroom1 & ->).
  destruct (encodeVectors_Ok_inv _ _ _ _ _ H2)
    as (c2 & Hc2 & Hl2 & Hroom2 & ->).
  pose proof (recordBytes_length c1 Hl1) as Hr1.
  pose proof (recordBytes_length c2 Hl2) as Hr2.
  exists (splice (splice out off1 (recordBytes c1)) off2 (recordBytes c2)).
  rewrite !encodeVectors_splice
    by (rewrite splice_length; rewrite ?Hr1, ?Hr2; lia).
  rewrite Hc1, Hc2. cbn [mbind result_bind]. split; [reflexivity|].
  f_equal. symmetry. apply splice_commute; rewrite ?Hr1, ?Hr2; lia.
Qed.

Lemma encodeVectors_cells_commute_witness :
  exists o,
    encodeVectors
      [128; 20; 158; 10; 0; 0; 0; 0; 0; 0; 0; 0; 0; 0; 0; 0; 0; 0; 0; 0;
       0; 0; 0; 0; 0; 0; 0; 0; 0; 0; 0; 0; 0; 0; 0; 0; 0; 0; 0; 0]
      20 origin avs_run = Ok o /\
    encodeVectors
      [0; 0; 0; 0; 0; 0; 0; 0; 0; 0; 0; 0; 0; 0; 0; 0; 0; 0; 0; 0;
       0; 12; 0; 10; 0; 0; 0; 0; 0; 0; 0; 0; 0; 0; 0; 0; 0; 0; 0; 0]
      0 origin avs_single = Ok o.
Proof.
  apply (encodeVectors_cells_commute (repeat 0 40) _ _ 0 20 origin origin
           avs_single avs_run).
  - vm_compute. lia.
  - vm_compute. reflexivity.
  - vm_compute. reflexivity.
Defined.

(** ** The height-band map and the compactor *)

Lemma chooseBand_Some avs h v :
  chooseBand avs h = Some v ->
  In v avs /\ covers h v = true /\
  ((exists w, In w avs /\ covers h w = true /\ inside w = true) ->
   inside v = true).
Proof.
  unfold chooseBand, findAirspacesInHeight, findAirspacesInside.
  rewrite filter_filter_andb.
  pose proof (findNearest_filter (fun w => covers h w && inside w) avs) as Hin.
  pose proof (findNearest_filter (covers h) avs) as Hall.
  destruct (length (List.filter (fun w => covers h w && inside w) avs) =? 0)%nat
    eqn:Hlen; cbn [negb]; intros Hv.
  - rewrite Hv in Hall. destruct Hall as (l1 & l2 & -> & Hc & _).
    split; [apply in_or_app; right; left; reflexivity|].
    split; [exact Hc|]. intros (w & Hw & Hcw & Hiw).
    apply length_zero_nil in Hlen.
    assert (In w (List.filter (fun w => covers h w && inside w)
                              (l1 ++ v :: l2))) as Hf
      by (apply List.filter_In; rewrite Hcw, Hiw; auto).
    rewrite Hlen in Hf. destruct Hf.
  - rewrite Hv in Hin. destruct Hin as (l1 & l2 & -> & Hc & _).
    apply andb_true_iff in Hc. destruct Hc as [Hc Hi].
    split; [apply in_or_app; right; left; reflexivity|]. auto.
Qed.

Lemma band_entries_In avs visited h v :
  In (h, v) (band_entries avs visited) <->
  In h visited /\ chooseBand avs h = Some v.
Proof.
  induction visited as [|h0 rest IH]; [cbn; tauto|].
  rewrite band_entries_cons.
  destruct (chooseBand avs h0) as [v0|] eqn:Hc0; cbn [In]; rewrite ?IH.
  - split.
    + intros [Heq|[Hin Hc]]; [|auto]. injection Heq as <- <-. auto.
    + intros [[<-|Hin] Hc]; [|auto]. left. congruence.
  - split.
    + intros [Hin Hc]. auto.
    + intros [[<-|Hin] Hc]; [congruence|auto].
Qed.

Lemma sweep_chain_members avs hMax : forall rest h,
  sweep_chain avs hMax h rest ->
  forall b, In b rest -> In b (breakpoints avs).
Proof.
  induction rest as [|h' rest IH]; intros h Hc b Hb; [destruct Hb|].
  destruct Hc as (_ & (Hin & _) & Hc'). destruct Hb as [<-|Hb]; [exact Hin|].
  eapply IH; eauto.
Qed.

(** The sweep passes no breakpoint between its start and [hMax]. *)
Lemma sweep_chain_complete avs hMax : forall rest h,
  sweep_chain avs hMax h rest ->
  forall b, In b (breakpoints avs) -> ht_leb h b = true ->
    ht_ltb b hMax = true -> In b (h :: rest).
Proof.
  induction rest as [|h' rest IH]; intros h Hc b Hb Hhb HbM.
  - destruct Hc as [_ Hlast].
    destruct (ht_ltb h b) eqn:Hlt.
    + pose proof (findNext_spec avs h) as Hn.
      destruct (findNextHeightInAirspaces avs h) as [n|].
      * pose proof (Hlast n Hn) as HnM. destruct Hn as (_ & _ & Hmin).
        specialize (Hmin b Hb Hlt). ht_lia.
      * rewrite (Hn b Hb) in Hlt. discriminate.
    + left. apply hcode_inj. ht_lia.
  - destruct Hc as (_ & Hleast & Hc').
    destruct (ht_ltb h b) eqn:Hlt.
    + right. apply (IH h' Hc' b Hb); [|exact HbM].
      destruct Hleast as (_ & _ & Hmin). exact (Hmin b Hb Hlt).
    + left. apply hcode_inj. ht_lia.
Qed.

(** X4.  The sweep of [dumpPoint] always returns, with keys in strictly
    ascending order, and its map holds exactly the floors and ceilings that
    some vector covers, each with the vector the band rule chooses: that
    vector is one of the candidates, covers the altitude, and is inside
    whenever a covering candidate is. *)
Theorem heightBands_entries (avs : list AirspaceVector) :
  exists d, heightBands avs = Ok d /\ ascending (dict_keys d) /\
    (forall h v, In (h, v) d <->
       In h (breakpoints avs) /\ chooseBand avs h = Some v) /\
    (forall h v, In (h, v) d ->
       In v avs /\ covers h v = true /\
       ((exists w, In w avs /\ covers h w = true /\ inside w = true) ->
        inside v = true)).
Proof.
  destruct (heightBands_ascending avs) as (d & Hd & Hasc).
  exists d. split; [exact Hd|]. split; [exact Hasc|].
  assert (forall h v, In (h, v) d <->
            In h (breakpoints avs) /\ chooseBand avs h = Some v) as Hiff.
  { pose proof (heightBands_chain avs) as Hchain.
    pose proof (findLowest_spec avs) as Hlo.
    pose proof (findHighest_spec avs) as Hhi.
    destruct (findLowestHeightInAirspaces avs) as [hMin|],
             (findHighestHeightInAirspaces avs) as [hMax|];
      try (destruct Hchain; fail).
    - destruct Hchain as (visited & Heq & Hv). rewrite Hd in Heq.
      injection Heq as ->. intros h v. rewrite band_entries_In.
      split; intros [Hh Hc]; (split; [|exact Hc]).
      + destruct visited as [|h0 rest]; [destruct Hh|].
        destruct Hv as [-> Hch]. destruct Hh as [<-|Hh].
        * destruct Hlo as [(w & Hw & <-) _]. unfold breakpoints.
          apply in_flat_map. exists w. split; [exact Hw|left; reflexivity].
        * eapply sweep_chain_members; eauto.
      + destruct (chooseBand_Some avs h v Hc) as (Hin & Hcov & _).
        unfold covers in Hcov. apply andb_true_iff in Hcov.
        destruct Hcov as [Hfl Hce].
        destruct Hlo as [_ Hlo]. destruct Hhi as [_ Hhi].
        specialize (Hlo v Hin). specialize (Hhi v Hin).
        assert (ht_leb hMin h = true) as H1 by ht_lia.
        assert (ht_ltb h hMax = true) as H2 by ht_lia.
        destruct visited as [|h0 rest]; [ht_lia|].
        destruct Hv as [-> Hch].
        apply (sweep_chain_complete avs hMax rest hMin Hch h Hh H1 H2).
    - destruct Hchain as [-> Heq]. rewrite Hd in Heq. injection Heq as ->.
      intros h v. cbn. tauto. }
  split; [exact Hiff|].
  intros h v Hin. apply Hiff in Hin. destruct Hin as [_ Hc].
  apply chooseBand_Some, Hc.
Qed.

(** X5.  The entries that [dumpPoint] encodes for a point are at most
    [levels], in strictly ascending altitude, and each of them is an entry of
    the height-band map: a floor or ceiling with the vector chosen for that
    band, which is a candidate that covers it. *)
Theorem survivors_bands (p : Point) (avs : list AirspaceVector) (c : dict) :
  survivors p avs = Ok c ->
  (length c <= levels)%nat /\ ascending (dict_keys c) /\
  (exists d, heightBands avs = Ok d /\ c `sublist_of` d) /\
  forall h v, In (h, v) c ->
    In h (breakpoints avs) /\ chooseBand avs h = Some v /\
    In v avs /\ covers h v = true.
Proof.
  intros Hc. unfold survivors in Hc.
  destruct (heightBands_ascending avs) as (d & Hd & Hasc).
  rewrite Hd in Hc. cbn [mbind result_bind] in Hc.
  destruct (compact_cases p d Hasc) as [Herr|(c' & Hc' & Hlen & Hsub)];
    [rewrite Herr in Hc; discriminate|].
  rewrite Hc' in Hc. injection Hc as <-.
  split; [exact Hlen|].
  split; [eapply ascending_sublist;
          [apply dict_keys_sublist, Hsub|exact Hasc]|].
  split; [exists d; auto|].
  intros h v Hin. apply (sublist_In _ _ _ Hsub) in Hin.
  pose proof (heightBands_chain avs) as Hchain.
  pose proof (findLowest_spec avs) as Hlo.
  destruct (findLowestHeightInAirspaces avs) as [hMin|],
           (findHighestHeightInAirspaces avs) as [hMax|];
    try (destruct Hchain; fail).
  - destruct Hchain as (visited & Heq & Hv). rewrite Hd in Heq.
    injection Heq as ->. apply band_entries_In in Hin.
    destruct Hin as [Hh Hch].
    destruct (chooseBand_Some avs h v Hch) as (Hv1 & Hv2 & _).
    split; [|auto]. destruct visited as [|h0 rest]; [destruct Hh|].
    destruct Hv as [-> Hchn]. destruct Hh as [<-|Hh].
    + destruct Hlo as [(w & Hw & <-) _]. unfold breakpoints.
      apply in_flat_map. exists w. split; [exact Hw|left; reflexivity].
    + eapply sweep_chain_members; eauto.
  - destruct Hchain as [_ Heq]. rewrite Hd in Heq. injection Heq as ->.
    destruct Hin.
Qed.

Lemma survivors_bands_witness :
  (length (take 1 dict_run) <= levels)%nat /\
  ascending (dict_keys (take 1 dict_run)) /\
  (exists d, heightBands avs_run = Ok d /\ take 1 dict_run `sublist_of` d) /\
  forall h v, In (h, v) (take 1 dict_run) ->
    In h (breakpoints avs_run) /\ chooseBand avs_run h = Some v /\
    In v avs_run /\ covers h v = true.
Proof.
  apply (survivors_bands origin avs_run (take 1 dict_run)).
  vm_compute. reflexivity.
Defined.

Lemma spec_pass1_after_differ rest : forall s,
  differ_from s (spec_pass1_after s rest).
Proof.
  induction rest as [|[k v] rest IH]; intros s; [exact I|].
  cbn [spec_pass1_after].
  destruct (decide (airspace v = airspace s)) as [Heq|Hne]; [apply IH|].
  cbn [differ_from]. split; [congruence|apply IH].
Qed.

Lemma spec_pass1_after_length rest : forall s,
  (length (spec_pass1_after s rest) <= length rest)%nat.
Proof.
  induction rest as [|[k v] rest IH]; intros s; [reflexivity|].
  cbn [spec_pass1_after].
  destruct (decide (airspace v = airspace s)); cbn [length].
  - specialize (IH s). lia.
  - specialize (IH v). lia.
Qed.

Lemma spec_pass1_after_fixed rest : forall s,
  spec_pass1_after s rest = rest <-> differ_from s rest.
Proof.
  induction rest as [|[k v] rest IH]; intros s; [cbn; tauto|].
  cbn [spec_pass1_after differ_from].
  destruct (decide (airspace v = airspace s)) as [Heq|Hne].
  - split.
    + intros H. pose proof (spec_pass1_after_length rest s) as Hl.
      rewrite H in Hl. cbn [length] in Hl. lia.
    + intros [Hd _]. congruence.
  - split.
    + intros H. injection H as H. split; [congruence|apply IH, H].
    + intros [_ Hd]. f_equal. apply IH, Hd.
Qed.

Lemma spec_pass1_sublist d : spec_pass1 d `sublist_of` d.
Proof. rewrite <- keep_changes_spec_pass1. apply keep_changes_sublist. Qed.

(** X6.  After pass 1 no two neighbouring entries have the same airspace.
    Pass 1 leaves a map unchanged exactly when that already holds, so running
    it on its own result changes nothing. *)
Theorem pass1_separates_airspaces (d : dict) :
  ascending (dict_keys d) ->
  exists d1, pass1 d = Ok d1 /\ adjacent_differ d1 /\
    pass1 d1 = Ok d1 /\ (d1 = d <-> adjacent_differ d).
Proof.
  intros Hasc. exists (spec_pass1 d).
  assert (pass1 d = Ok (spec_pass1 d)) as H1
    by (rewrite <- keep_changes_spec_pass1; apply pass1_changes, Hasc).
  assert (adjacent_differ (spec_pass1 d)) as H2
    by (destruct d as [|[k v] rest]; [exact I|apply spec_pass1_after_differ]).
  assert (forall e : dict, spec_pass1 e = e <-> adjacent_differ e) as Hfix
    by (intros [|[k v] rest]; [cbn; tauto|];
        cbn [spec_pass1 adjacent_differ];
        rewrite <- spec_pass1_after_fixed; split;
        [intros H; injection H as H; exact H|intros H; f_equal; exact H]).
  split; [exact H1|]. split; [exact H2|]. split; [|apply Hfix].
  assert (ascending (dict_keys (spec_pass1 d))) as Hasc1
    by (eapply ascending_sublist;
        [apply dict_keys_sublist, spec_pass1_sublist|exact Hasc]).
  rewrite (pass1_changes _ Hasc1), keep_changes_spec_pass1.
  f_equal. apply Hfix, H2.
Qed.

Lemma pass1_separates_airspaces_witness :
  exists d1, pass1 dict_run = Ok d1 /\ adjacent_differ d1 /\
    pass1 d1 = Ok d1 /\ (d1 = dict_run <-> adjacent_differ dict_run).
Proof.
  assert (ascending (dict_keys dict_run)) as Hasc by solve_ascending.
  exact (pass1_separates_airspaces dict_run Hasc).
Defined.

(** X7.  When pass 1 leaves at most [levels] entries, passes 2 and 3 do
    nothing: the compactor returns the result of pass 1. *)
Theorem compact_small_is_pass1 (p : Point) (d : dict) :
  ascending (dict_keys d) ->
  (length (spec_pass1 d) <= levels)%nat ->
  pass1 d = Ok (spec_pass1 d) /\ compact p d = Ok (spec_pass1 d).
Proof.
  intros Hasc Hlen.
  assert (pass1 d = Ok (spec_pass1 d)) as H1
    by (rewrite <- keep_changes_spec_pass1; apply pass1_changes, Hasc).
  split; [exact H1|]. unfold compact. rewrite H1. cbn [mbind result_bind].
  assert (ascending (dict_keys (spec_pass1 d))) as Hasc1
    by (eapply ascending_sublist;
        [apply dict_keys_sublist, spec_pass1_sublist|exact Hasc]).
  rewrite (pass2_changes _ Hasc1).
  apply Nat.ltb_ge in Hlen. rewrite Hlen. cbn [mbind result_bind].
  unfold pass3. apply pass3_loop_done. apply Nat.ltb_ge. exact Hlen.
Qed.

Lemma compact_small_is_pass1_witness :
  pass1 dict_run = Ok (spec_pass1 dict_run) /\
  compact origin dict_run = Ok (spec_pass1 dict_run).
Proof.
  assert (ascending (dict_keys dict_run)) as Hasc by solve_ascending.
  apply (compact_small_is_pass1 origin dict_run Hasc). vm_compute. lia.
Defined.

(** ** The candidates of a point *)

Lemma collectVectors_fold (G : GeometryProvider) p airspaces : forall acc,
  fold_left
    (fun avs a =>
       if getDistanceToCenter a p <? 100 * (100 * 1000) then
         let av := getAirspaceVector a p in
         if negb (isTooFar av) then avs ++ [av] else avs
       else avs)
    airspaces acc
  = acc ++ map (fun a => getAirspaceVector a p)
               (List.filter (in_reach p) airspaces).
Proof.
  induction airspaces as [|a l IH]; intros acc; cbn [fold_left List.filter].
  - cbn. rewrite app_nil_r. reflexivity.
  - rewrite IH. unfold in_reach at 2.
    destruct (getDistanceToCenter a p <? 100 * (100 * 1000));
      cbn [andb]; [|reflexivity].
    destruct (isTooFar (getAirspaceVector a p)); cbn [negb];
      [reflexivity|].
    cbn [map]. rewrite <- app_assoc. reflexivity.
Qed.

(** X8.  The candidates of a point are the vectors of the airspaces in
    reach, one per airspace and in the order of the airspace list.  An
    airspace out of reach (its centre 100 km away or more, or its vector too
    far) has no effect on what [dumpPoint] does. *)
Theorem dumpPoint_ignores_out_of_reach (G : GeometryProvider)
    (out : list Z) (off : nat) (p : Point) (l1 l2 : list Airspace)
    (a : Airspace) :
  in_reach p a = false ->
  collectVectors p (l1 ++ a :: l2)
    = map (fun b => getAirspaceVector b p)
          (List.filter (in_reach p) (l1 ++ l2)) /\
  dumpPoint out off p (l1 ++ a :: l2) = dumpPoint out off p (l1 ++ l2).
Proof.
  intros Hout.
  assert (forall l, collectVectors p l
                    = map (fun b => getAirspaceVector b p)
                          (List.filter (in_reach p) l)) as Hcol
    by (intros l; exact (collectVectors_fold G p l [])).
  assert (List.filter (in_reach p) (l1 ++ a :: l2)
          = List.filter (in_reach p) (l1 ++ l2)) as Hf
    by (rewrite !List.filter_app; cbn [List.filter]; rewrite Hout;
        reflexivity).
  split.
  - rewrite Hcol, Hf. reflexivity.
  - unfold dumpPoint. rewrite !Hcol, Hf. reflexivity.
Qed.

Lemma dumpPoint_ignores_out_of_reach_witness :
  collectVectors (H := provider_sliver) origin ([] ++ zone 0 0 5000 :: [])
    = map (fun b => getAirspaceVector (GeometryProvider := provider_sliver)
                      b origin)
          (List.filter (in_reach (H := provider_sliver) origin) ([] ++ [])) /\
  dumpPoint (H := provider_sliver) (repeat 7 24) 2 origin
            ([] ++ zone 0 0 5000 :: [])
  = dumpPoint (H := provider_sliver) (repeat 7 24) 2 origin ([] ++ []).
Proof.
  apply (dumpPoint_ignores_out_of_reach provider_sliver (repeat 7 24) 2
           origin [] [] (zone 0 0 5000)).
  vm_compute. reflexivity.
Defined.

(** ** The decoder and the check mode *)

Lemma high_bit (raw : Z) :
  0 <= raw < 256 -> (raw >? 127) = Z.testbit raw 7.
Proof.
  intros Hraw. rewrite Z.testbit_odd, Z.shiftr_div_pow2 by lia.
  change (2 ^ 7) with 128.
  assert (raw / 128 = 0 \/ raw / 128 = 1) as [H|H]
    by (Z.div_mod_to_equations; lia); rewrite H; cbn [Z.odd];
    destruct (Z.gtb_spec raw 127); try reflexivity;
    Z.div_mod_to_equations; lia.
Qed.

(** X9.  What the decoder of [main] reads from the bytes of a level: bit 7
    of the floor and ceiling bytes is the AGL flag and bit 7 of the bearing
    byte the inside flag; the low 7 bits are the altitude in steps of 250 ft
    and the bearing in steps of 3 degrees; the distance byte counts steps of
    64. *)
Theorem decodeLevel_fields (level : nat)
    (floor_raw ceil_raw angle_raw distance_raw : Z) :
  0 <= floor_raw < 256 -> 0 <= ceil_raw < 256 -> 0 <= angle_raw < 256 ->
  decodeLevel level floor_raw ceil_raw angle_raw distance_raw
  = if Z.land ceil_raw 127 =? 0 then emptyLine level
    else levelLine level
           (Z.land floor_raw 127 * 250)
           (if Z.testbit floor_raw 7 then "AGL" else "MSL")
           (if Z.land ceil_raw 127 =? 127 then "MAX"
            else str (Z.land ceil_raw 127 * 250))
           (if Z.testbit ceil_raw 7 then "AGL" else "MSL")
           (Z.land angle_raw 127 * 3)
           (distance_raw * 64)
           (if Z.testbit angle_raw 7 then " INSIDE!" else "").
Proof.
  intros Hf Hc Ha. unfold decodeLevel. cbv zeta.
  rewrite (low7 floor_raw Hf), (low7 ceil_raw Hc), (low7 angle_raw Ha).
  rewrite (high_bit floor_raw Hf), (high_bit ceil_raw Hc),
          (high_bit angle_raw Ha).
  destruct (Z.eqb_spec (Z.land ceil_raw 127) 0) as [->|Hne]; [reflexivity|].
  destruct (Z.eqb_spec (Z.land ceil_raw 127 * 250) 0); [lia|reflexivity].
Qed.

Lemma decodeLevel_fields_witness :
  decodeLevel 0 148 255 30 10
  = "  level 0 floor=5000 AGL ceil=MAX AGL  angle=90 distance=640".
Proof.
  refine (decodeLevel_fields 0 148 255 30 10 _ _ _); lia.
Defined.

Lemma padding_zeros n :
  concat (repeat emptyBytes n) = repeat 0 (sizeof_level * n).
Proof.
  induction n as [|n IH]; [reflexivity|].
  cbn [repeat concat]. rewrite IH.
  replace (sizeof_level * S n)%nat with (4 + sizeof_level * n)%nat
    by (unfold sizeof_level; lia).
  reflexivity.
Qed.

(** Byte [j] of level [i] of a record. *)
Lemma record_lookup (c : dict) : forall n i j,
  (j < sizeof_level)%nat -> (i < length c + n)%nat ->
  (flat_map (fun e => getBytes (snd e)) c ++ concat (repeat emptyBytes n))
    !! (i * sizeof_level + j)%nat
  = match c !! i with
    | Some (_, v) => getBytes v !! j
    | None => Some 0
    end.
Proof.
  induction c as [|[k v] c IH]; intros n i j Hj Hi.
  - cbn [flat_map app lookup length] in *. rewrite lookup_nil.
    rewrite padding_zeros. apply repeat_lookup_lt.
    unfold sizeof_level in *. lia.
  - cbn [flat_map snd]. rewrite <- app_assoc. destruct i as [|i].
    + cbn [Nat.mul Nat.add]. rewrite lookup_app_l
        by (rewrite getBytes_length; exact Hj).
      reflexivity.
    + rewrite lookup_app_r by (rewrite getBytes_length; unfold sizeof_level; lia).
      rewrite getBytes_length.
      replace (S i * sizeof_level + j - sizeof_level)%nat
        with (i * sizeof_level + j)%nat by (unfold sizeof_level; lia).
      cbn [lookup list_lookup]. apply IH; [exact Hj|]. cbn [length] in Hi. lia.
Qed.

Lemma decodeAt_record (c : dict) i :
  (length c <= levels)%nat -> (i < levels)%nat ->
  decodeAt (recordBytes c) i = Ok (reportLine c i).
Proof.
  intros Hlen Hi. unfold decodeAt, recordBytes, reportLine.
  assert (i < length c + (levels - length c))%nat as Hi' by lia.
  pose proof (record_lookup c (levels - length c) i 0) as H0.
  pose proof (record_lookup c (levels - length c) i 1) as H1.
  pose proof (record_lookup c (levels - length c) i 2) as H2.
  pose proof (record_lookup c (levels - length c) i 3) as H3.
  rewrite Nat.add_0_r in H0.
  rewrite H0, H1, H2, H3 by (unfold sizeof_level; lia).
  destruct (c !! i) as [[k v]|]; reflexivity.
Qed.

(** X10.  The check mode of [main] on a point: when pass 3 is fatal the
    process exits before a line is printed; otherwise exactly [levels] lines
    are printed and no level lies beyond the buffer: line [i] shows the
    decoded bytes of the [i]-th surviving entry, in ascending altitude, and
    the levels after the last entry show the empty descriptor. *)
Theorem checkPointReport_lines (G : GeometryProvider) (p : Point)
    (airspaces : list Airspace) :
  match survivors p (collectVectors p airspaces) with
  | Ok c => checkPointReport p airspaces
            = Ok (map (reportLine c) (seq 0 levels)) /\
            forall i, (length c <= i)%nat -> reportLine c i = emptyLine i
  | Err e => checkPointReport p airspaces = Err (SystemExit p)
  end.
Proof.
  unfold checkPointReport, dumpPoint.
  rewrite encodeVectors_splice by (rewrite repeat_length; lia).
  destruct (survivors_cases p (collectVectors p airspaces))
    as [->|(c & -> & Hlen & _)]; [reflexivity|].
  cbn [mbind result_bind]. split.
  - pose proof (recordBytes_length c Hlen) as Hrec.
    assert (splice (repeat 0 (levels * sizeof_level)) 0 (recordBytes c)
            = recordBytes c) as ->.
    { unfold splice. cbn [take app]. rewrite drop_ge, app_nil_r;
        [reflexivity|]. rewrite repeat_length, Hrec. lia. }
    change (seq 0 levels) with [0; 1; 2; 3; 4]%nat.
    cbn [decodeLevels map].
    rewrite !decodeAt_record by (unfold levels in *; lia). reflexivity.
  - intros i Hi. unfold reportLine.
    rewrite (lookup_ge_None_2 c i Hi). reflexivity.
Qed.

Example checkPointReport_sliver :
  checkPointReport (H := provider_sliver)
    (mkPoint (arange_at 9 20 1) (arange_at 48 20 0)) one_zone
  = Ok [ "  level 0 floor=0 MSL ceil=5000 MSL  angle=90 distance=640 INSIDE!";
         "  level 1 ---"; "  level 2 ---"; "  level 3 ---"; "  level 4 ---" ].
Proof. vm_compute. reflexivity. Qed.

(** ** What a run of [dump] does to the files *)

Lemma dumpPoint_length (G : GeometryProvider) out off p airspaces out' :
  dumpPoint out off p airspaces = Ok out' -> length out' = length out.
Proof.
  intros H. destruct (encodeVectors_Ok_inv _ _ _ _ _ H)
    as (c & _ & Hlen & Hroom & ->).
  apply splice_length. rewrite (recordBytes_length c Hlen). exact Hroom.
Qed.

Lemma quickcheck_fold_buf (G : GeometryProvider) airspaces n pts :
  forall w r,
    match r with Ok (o, _) => length o = n | Err _ => True end ->
    match snd (fold_left (quickcheck_point airspaces) pts (w, r)) with
    | Ok (o, _) => length o = n
    | Err _ => True
    end.
Proof.
  induction pts as [|p pts IH]; intros w r Hr; [exact Hr|].
  cbn [fold_left]. destruct r as [[o e]|err].
  - cbn [quickcheck_point]. apply IH.
    destruct (dumpPoint o 0 p airspaces) as [o'|err] eqn:Hd; [|exact I].
    cbn [mbind result_bind].
    destruct (scan_record o' e); cbn [mbind result_bind]; [|exact I].
    rewrite (dumpPoint_length G _ _ _ _ _ Hd). exact Hr.
  - cbn [quickcheck_point]. rewrite quickcheck_fold_err. exact I.
Qed.

Lemma raster_point_fold (G : GeometryProvider) airspaces lon lat numPoints
    lat_i n pts :
  forall st,
    buf_ok n (snd st) ->
    files (fst (fold_left (raster_point airspaces lon lat numPoints lat_i)
                          pts st))
    = files (fst st) /\
    buf_ok n (snd (fold_left (raster_point airspaces lon lat numPoints lat_i)
                             pts st)).
Proof.
  induction pts as [|q pts IH]; intros [w r] Hr; [split; [reflexivity|exact Hr]|].
  cbn [fold_left]. destruct r as [o|err]; cbn [raster_point].
  - match goal with
    | |- context [fold_left _ pts (?w', ?r')] =>
        destruct (IH (w', r')) as [Hf Hb]
    end.
    + cbn [snd] in *.
      destruct (dumpPoint o _ _ airspaces) as [o'|e'] eqn:Hd; [|exact I].
      cbn [buf_ok] in *.
      rewrite (dumpPoint_length G _ _ _ _ _ Hd). exact Hr.
    + split; [rewrite Hf; reflexivity|exact Hb].
  - apply (IH (w, Err err)). exact I.
Qed.

Lemma raster_row_fold (G : GeometryProvider) airspaces filename lon lat
    numPoints n rows :
  forall st,
    buf_ok n (snd st) ->
    files (fst (fst (fold_left
                       (raster_row airspaces filename lon lat numPoints)
                       rows st)))
    = files (fst (fst st)) /\
    buf_ok n (snd (fold_left (raster_row airspaces filename lon lat numPoints)
                             rows st)).
Proof.
  induction rows as [|lat_i rows IH]; intros [[w pos] r] Hr;
    [split; [reflexivity|exact Hr]|].
  cbn [fold_left]. destruct r as [o|err]; cbn [raster_row].
  - destruct (raster_point_fold G airspaces lon lat numPoints lat_i n
                (arange lon numPoints)
                (emit w (Print (Progress filename (S pos))), Ok o) Hr)
      as [Hf Hb].
    destruct (fold_left (raster_point airspaces lon lat numPoints lat_i)
                (arange lon numPoints)
                (emit w (Print (Progress filename (S pos))), Ok o))
      as [w2 r2].
    destruct (IH (w2, S pos, r2) Hb) as [Hf' Hb'].
    split; [rewrite Hf'; exact Hf|exact Hb'].
  - apply (IH (w, pos, Err err)). exact I.
Qed.

(** The [try] block either opens no file and leaves the files as they were,
    or opens the tile's file, which is then empty.  A buffer it returns has
    the length of the one it was given. *)
Lemma dump_try_cases (G : GeometryProvider) airspaces filename lon lat
    numPoints w out :
  let res := dump_try airspaces filename lon lat numPoints w out in
  ((snd (fst res) = None /\ files (fst (fst res)) = files w) \/
   (snd (fst res) = Some filename /\
    files (fst (fst res)) = <[filename := []]> (files w))) /\
  buf_ok (length out) (snd res).
Proof.
  unfold dump_try, quickcheck.
  destruct (quickcheck_fold_log G airspaces (quickcheck_points lon lat)
              w (Ok (out, true))) as (k & _ & Hfiles).
  pose proof (quickcheck_fold_buf G airspaces (length out)
                (quickcheck_points lon lat) w (Ok (out, true)) eq_refl) as Hbuf.
  destruct (fold_left (quickcheck_point airspaces) (quickcheck_points lon lat)
              (w, Ok (out, true))) as [w1 [[out1 isEmpty]|err]];
    cbn [fst snd] in *.
  - destruct isEmpty; cbn [negb].
    + split; [left; split; [reflexivity|exact Hfiles]|exact Hbuf].
    + destruct (numPoints =? 0).
      * split; [right; split; [reflexivity|]|exact I].
        cbn. rewrite Hfiles. reflexivity.
      * destruct (raster_row_fold G airspaces filename lon lat numPoints
                    (length out) (arange lat numPoints)
                    (open_wb w1 filename, 0%nat, Ok out1) Hbuf) as [Hf Hb].
        destruct (fold_left (raster_row airspaces filename lon lat numPoints)
                    (arange lat numPoints)
                    (open_wb w1 filename, 0%nat, Ok out1)) as [[w3 pos] r].
        cbn [fst snd] in *.
        split; [right; split; [reflexivity|]|exact Hb].
        rewrite Hf. cbn. rewrite Hfiles. reflexivity.
  - split; [left; split; [reflexivity|exact Hfiles]|exact I].
Qed.

(** The outcomes of a run of [dump], by the files it leaves and the way it
    ends. *)
Lemma dump_cases (G : GeometryProvider) (cfg : Config) (lon lat : Z)
    (airspaces : list Airspace) (draw : bool) (w : world) :
  let res := dump cfg lon lat airspaces draw w in
  let fn := tileName lon lat in
  (files (fst res) = files w /\
   (snd res = Returned \/ snd res = Exited 1 \/
    exists e, snd res = Uncaught e)) \/
  (files (fst res) = <[fn := []]> (files w) /\
   (snd res = Returned \/ exists e, snd res = Uncaught e)) \/
  (snd res = Returned /\
   exists content, files (fst res) = <[fn := content]> (files w) /\
     length content = tileSize cfg draw /\ all_zero content = false) \/
  (snd res = Exited 1 /\ files (fst res) = delete fn (files w)).
Proof.
  cbv zeta. unfold dump.
  destruct (isfile w (tileName lon lat) && negb (force cfg));
    [left; split; [reflexivity|left; reflexivity]|].
  set (numPoints := if draw then 10 else wantedResolution cfg).
  set (filesize := numPoints * numPoints * Z.of_nat levels
                   * Z.of_nat sizeof_level).
  set (w0 := emit (emit w (Print (Computing (tileName lon lat) numPoints)))
                  (Alloc filesize)).
  pose proof (dump_try_cases G airspaces (tileName lon lat) lon lat numPoints
                w0 (repeat 0 (Z.to_nat filesize))) as [Hf Hb].
  cbv zeta in Hf, Hb. rewrite repeat_length in Hb.
  destruct (dump_try airspaces (tileName lon lat) lon lat numPoints w0
              (repeat 0 (Z.to_nat filesize))) as [[w1 f] r].
  cbn [fst snd] in Hf, Hb.
  change (files w0) with (files w) in Hf.
  destruct r as [out|err].
  - destruct (all_zero out) eqn:Hz.
    + destruct Hf as [[_ Hfiles]|[_ Hfiles]].
      * left. split; [exact Hfiles|left; reflexivity].
      * right. left. split; [exact Hfiles|left; reflexivity].
    + destruct Hf as [[-> Hfiles]|[-> Hfiles]].
      * left. split; [exact Hfiles|right; right; eexists; reflexivity].
      * right. right. left. split; [reflexivity|]. exists out.
        split; [|split; [exact Hb|exact Hz]].
        cbn. rewrite Hfiles. apply insert_insert_eq.
  - destruct Hf as [[-> Hfiles]|[-> Hfiles]].
    + left. destruct err; (split; [exact Hfiles|]);
        first [right; left; reflexivity|right; right; eexists; reflexivity].
    + destruct err;
        try (right; left; split; [exact Hfiles|right; eexists; reflexivity]).
      right. right. right. split; [reflexivity|].
      cbn. rewrite Hfiles. apply delete_insert_eq.
Qed.

(** X11.  A run of [dump] touches no file but the tile's own, however it
    ends. *)
Theorem dump_touches_own_file_only (G : GeometryProvider) (cfg : Config)
    (lon lat : Z) (airspaces : list Airspace) (draw : bool) (w : world)
    (other : string) :
  other <> tileName lon lat ->
  files (fst (dump cfg lon lat airspaces draw w)) !! other
  = files w !! other.
Proof.
  intros Hne.
  destruct (dump_cases G cfg lon lat airspaces draw w)
    as [[-> _]|[[-> _]|[(_ & c & -> & _)|[_ ->]]]].
  - reflexivity.
  - apply lookup_insert_ne. congruence.
  - apply lookup_insert_ne. congruence.
  - apply lookup_delete_ne. congruence.
Qed.

Lemma dump_touches_own_file_only_witness :
  files (fst (dump (H := provider_inside) config_coarse 9 48 one_zone false
                   world_with_tile)) !! "N47E009.air"
  = files world_with_tile !! "N47E009.air".
Proof.
  apply (dump_touches_own_file_only provider_inside config_coarse 9 48
           one_zone false world_with_tile "N47E009.air").
  vm_compute. discriminate.
Defined.

(** X12.  How a run of [dump] leaves the tile's file.  When it returns, the
    files are as before, or the tile's file is empty, or it holds a buffer
    of [numPoints * numPoints * levels * sizeof_level] bytes that are not
    all zero.  When it exits, the status is 1 and the files are as before or
    the tile's file is gone.  After an uncaught exception the files are as
    before or the tile's file is empty. *)
Theorem dump_file_outcome (G : GeometryProvider) (cfg : Config)
    (lon lat : Z) (airspaces : list Airspace) (draw : bool) (w : world) :
  match snd (dump cfg lon lat airspaces draw w) with
  | Returned =>
      files (fst (dump cfg lon lat airspaces draw w)) = files w \/
      files (fst (dump cfg lon lat airspaces draw w))
        = <[tileName lon lat := []]> (files w) \/
      exists content,
        files (fst (dump cfg lon lat airspaces draw w))
          = <[tileName lon lat := content]> (files w) /\
        length content = tileSize cfg draw /\ all_zero content = false
  | Exited code =>
      code = 1 /\
      (files (fst (dump cfg lon lat airspaces draw w)) = files w \/
       files (fst (dump cfg lon lat airspaces draw w))
         = delete (tileName lon lat) (files w))
  | Uncaught _ =>
      files (fst (dump cfg lon lat airspaces draw w)) = files w \/
      files (fst (dump cfg lon lat airspaces draw w))
        = <[tileName lon lat := []]> (files w)
  end.
Proof.
  destruct (dump_cases G cfg lon lat airspaces draw w)
    as [[Hf [->|[->|[e ->]]]]|[[Hf [->|[e ->]]]
       |[(-> & c & Hf & Hl & Hz)|[-> Hf]]]]; auto.
  right. right. exists c. auto.
Qed.

Example dump_saves_tile :
  let res := dump (H := provider_inside) config_coarse 9 48 one_zone false
                  world_empty in
  snd res = Returned /\
  exists content, files (fst res) !! "N48E009.air" = Some content /\
    length content = Z.to_nat 8000 /\ take 4 content = [0; 20; 128; 10].
Proof.
  vm_compute. split; [reflexivity|]. eexists. split; [reflexivity|].
  split; reflexivity.
Qed.

(** X13.  A run of [dump] whose quick check finds a byte that is not zero
    opens the tile's file before the raster is computed; when the buffer is
    all zero after the raster, the file is neither written nor removed.  It
    stays behind empty, and without [force] the next run skips the tile. *)
Theorem dump_leaves_empty_file (G : GeometryProvider) (cfg : Config)
    (lon lat : Z) (airspaces : list Airspace) (draw : bool) (w : world)
    (out : list Z) :
  isfile w (tileName lon lat) = false ->
  force cfg = false ->
  snd (fst (tileRun cfg lon lat airspaces draw w)) = Some (tileName lon lat) ->
  snd (tileRun cfg lon lat airspaces draw w) = Ok out ->
  all_zero out = true ->
  snd (dump cfg lon lat airspaces draw w) = Returned /\
  files (fst (dump cfg lon lat airspaces draw w)) !! tileName lon lat
    = Some [] /\
  dump cfg lon lat airspaces draw (fst (dump cfg lon lat airspaces draw w))
  = (emit (fst (dump cfg lon lat airspaces draw w))
          (Print (ExistsSkipping (tileName lon lat))), Returned).
Proof.
  intros Hfile Hforce Hf Hr Hz.
  assert (exists w1,
            dump cfg lon lat airspaces draw w
            = (emit w1 (Print (IsEmpty (tileName lon lat))), Returned) /\
            files w1 = <[tileName lon lat := []]> (files w))
    as (w1 & Hdump & Hfiles).
  { unfold dump. rewrite Hfile. cbn [andb]. unfold tileRun in Hf, Hr.
    cbv zeta in Hf, Hr.
    pose proof (dump_try_cases G airspaces (tileName lon lat) lon lat
                  (if draw then 10 else wantedResolution cfg)
                  (emit (emit w (Print (Computing (tileName lon lat)
                     (if draw then 10 else wantedResolution cfg))))
                     (Alloc ((if draw then 10 else wantedResolution cfg)
                             * (if draw then 10 else wantedResolution cfg)
                             * Z.of_nat levels * Z.of_nat sizeof_level)))
                  (repeat 0 (Z.to_nat
                     ((if draw then 10 else wantedResolution cfg)
                      * (if draw then 10 else wantedResolution cfg)
                      * Z.of_nat levels * Z.of_nat sizeof_level))))
      as [Hc _].
    cbv zeta in Hc.
    destruct (dump_try _ _ _ _ _ _ _) as [[w1 f] r]. cbn [fst snd] in *.
    subst f r. rewrite Hz. exists w1. split; [reflexivity|].
    destruct Hc as [[Hn _]|[_ Hfiles]]; [discriminate|exact Hfiles]. }
  rewrite Hdump. cbn [fst snd]. split; [reflexivity|].
  split; [cbn; rewrite Hfiles; apply lookup_insert_eq|].
  unfold dump.
  assert (isfile (emit w1 (Print (IsEmpty (tileName lon lat))))
                 (tileName lon lat) = true) as ->.
  { unfold isfile. apply bool_decide_eq_true. cbn. rewrite Hfiles.
    rewrite lookup_insert_eq. eexists. reflexivity. }
  rewrite Hforce. reflexivity.
Qed.

(** One airspace that only the sampled points at 9.1 degrees see, at
    resolution 7: the quick check finds it, the raster does not. *)
Lemma dump_leaves_empty_file_witness :
  snd (dump (H := provider_sample) config_seven 9 48 one_zone false
            world_empty) = Returned /\
  files (fst (dump (H := provider_sample) config_seven 9 48 one_zone false
                   world_empty)) !! "N48E009.air" = Some [] /\
  dump (H := provider_sample) config_seven 9 48 one_zone false
       (fst (dump (H := provider_sample) config_seven 9 48 one_zone false
                  world_empty))
  = (emit (fst (dump (H := provider_sample) config_seven 9 48 one_zone false
                     world_empty))
          (Print (ExistsSkipping "N48E009.air")), Returned).
Proof.
  apply (dump_leaves_empty_file provider_sample config_seven 9 48 one_zone
           false world_empty (repeat 0 980)); vm_compute; reflexivity.
Defined.

(** ** What the quick check decides *)

Lemma all_zero_iff (l : list Z) :
  all_zero l = true <-> l = repeat 0 (length l).
Proof.
  induction l as [|b l IH]; [cbn; tauto|].
  cbn [all_zero forallb length repeat]. fold (all_zero l).
  rewrite andb_true_iff, Z.eqb_eq, IH. split.
  - intros [-> <-]. reflexivity.
  - intros H. injection H as -> H. auto.
Qed.

Lemma zero_prefix_iff (out : list Z) :
  zero_prefix out = true <->
  forall i, (i < levels * sizeof_level)%nat -> out !! i = Some 0.
Proof.
  unfold zero_prefix. rewrite forallb_forall. split.
  - intros H i Hi. specialize (H i). rewrite in_seq in H.
    specialize (H ltac:(lia)). destruct (out !! i) as [b|]; [|discriminate].
    apply Z.eqb_eq in H. congruence.
  - intros H i Hi. apply in_seq in Hi. rewrite (H i) by lia. reflexivity.
Qed.

Lemma scan_record_fold_prefix (out : list Z) l : forall e,
  (forall i, In i l -> (i < length out)%nat) ->
  fold_left
    (fun acc offset =>
       e ← acc;
       match out !! offset with
       | Some byte => Ok (if byte =? 0 then e else false)
       | None => Err IndexError
       end) l (Ok e)
  = Ok (e && forallb (fun offset => match out !! offset with
                                    | Some byte => byte =? 0
                                    | None => false
                                    end) l).
Proof.
  induction l as [|i l IH]; intros e Hl; cbn [fold_left forallb].
  - rewrite andb_true_r. reflexivity.
  - cbn [mbind result_bind].
    destruct (lookup_lt_is_Some_2 out i (Hl i (or_introl eq_refl))) as [b Hb].
    rewrite Hb. rewrite IH by (intros j Hj; apply Hl; right; exact Hj).
    destruct (b =? 0), e; reflexivity.
Qed.

(** The scan keeps [isEmpty] exactly when the first record is zero. *)
Lemma scan_record_prefix (out : list Z) e :
  (levels * sizeof_level <= length out)%nat ->
  scan_record out e = Ok (e && zero_prefix out).
Proof.
  intros Hn. apply scan_record_fold_prefix.
  intros i Hi. apply in_seq in Hi. lia.
Qed.

Lemma zero_prefix_splice out rec :
  length rec = (levels * sizeof_level)%nat ->
  (levels * sizeof_level <= length out)%nat ->
  zero_prefix (splice out 0 rec)
  = bool_decide (rec = repeat 0 (levels * sizeof_level)).
Proof.
  intros Hrec Hroom. apply eq_true_iff_eq.
  split.
  - intros H. apply bool_decide_eq_true.
    pose proof (proj1 (zero_prefix_iff _) H) as Hz.
    apply list_eq. intros i.
    destruct (Nat.lt_ge_cases i (levels * sizeof_level)) as [Hi|Hi].
    + rewrite repeat_lookup_lt by exact Hi. rewrite <- (Hz i Hi).
      rewrite splice_lookup_inside by lia. f_equal. lia.
    + rewrite !lookup_ge_None_2; [reflexivity| |];
        rewrite ?repeat_length, ?Hrec; lia.
  - intros H. apply bool_decide_eq_true in H. subst rec.
    apply zero_prefix_iff. intros i Hi.
    rewrite splice_lookup_inside by (rewrite repeat_length; lia).
    apply repeat_lookup_lt. lia.
Qed.

Lemma pointRecord_survivors (G : GeometryProvider) p airspaces :
  pointRecord p airspaces
  = (c ← survivors p (collectVectors p airspaces); Ok (recordBytes c)).
Proof.
  unfold pointRecord, dumpPoint.
  rewrite encodeVectors_splice by (rewrite repeat_length; lia).
  destruct (survivors_cases p (collectVectors p airspaces))
    as [->|(c & -> & Hlen & _)]; [reflexivity|].
  cbn [mbind result_bind]. f_equal.
  unfold splice. cbn [take app]. rewrite drop_ge, app_nil_r; [reflexivity|].
  rewrite repeat_length, (recordBytes_length c Hlen). lia.
Qed.

Lemma quickcheck_fold_decides (G : GeometryProvider) airspaces pts :
  (forall p, In p pts -> pointRecord p airspaces <> Err (SystemExit p)) ->
  forall w out e,
    (levels * sizeof_level <= length out)%nat ->
    exists out',
      snd (fold_left (quickcheck_point airspaces) pts (w, Ok (out, e)))
      = Ok (out', e && forallb (sample_empty airspaces) pts) /\
      length out' = length out.
Proof.
  induction pts as [|p pts IH]; intros Hok w out e Hroom.
  - exists out. cbn. rewrite andb_true_r. auto.
  - cbn [fold_left quickcheck_point forallb].
    pose proof (Hok p (or_introl eq_refl)) as Hp.
    pose proof (dumpPoint_cases G out 0 p airspaces Hroom) as Hd.
    unfold sample_empty at 1.
    rewrite pointRecord_survivors in Hp |- *.
    destruct (survivors_cases p (collectVectors p airspaces))
      as [Herr|(c & Hc & Hlen & _)];
      [rewrite Herr in Hp; exfalso; apply Hp; reflexivity|].
    rewrite Hc in Hd |- *. destruct Hd as [-> Hl].
    cbn [mbind result_bind].
    rewrite scan_record_prefix by lia. cbn [mbind result_bind].
    destruct (IH (fun q Hq => Hok q (or_intror Hq))
                 (emit w (CallDumpPoint 0 p))
                 (splice out 0 (recordBytes c))
                 (e && zero_prefix (splice out 0 (recordBytes c))))
      as (out' & Heq & Hlen'); [lia|].
    exists out'. rewrite Heq. split; [|lia].
    rewrite zero_prefix_splice
      by (rewrite ?(recordBytes_length c Hlen); lia).
    assert (bool_decide (recordBytes c = repeat 0 (levels * sizeof_level))
            = bool_decide ((Ok (recordBytes c) : result (list Z))
                           = Ok (repeat 0 (levels * sizeof_level)))) as ->.
    { apply bool_decide_ext.
      split; [intros ->; reflexivity|intros H; injection H as ->; reflexivity]. }
    rewrite andb_assoc. reflexivity.
Qed.



(** ** The quick check decides from the sample *)

(** Without a fatal sampled point the quick check returns, with [isEmpty]
    true exactly when every sampled record is zero. *)
Lemma quickcheck_flag (G : GeometryProvider) (airspaces : list Airspace)
    (lon lat : Z) (w : world) (out : list Z) :
  (levels * sizeof_level <= length out)%nat ->
  (forall p, In p (quickcheck_points lon lat) ->
     pointRecord p airspaces <> Err (SystemExit p)) ->
  exists out',
    snd (quickcheck airspaces lon lat w out)
    = Ok (out', forallb (sample_empty airspaces) (quickcheck_points lon lat))
    /\ length out' = length out.
Proof.
  intros Hroom Hok. unfold quickcheck.
  destruct (quickcheck_fold_decides G airspaces (quickcheck_points lon lat)
              Hok w out true Hroom) as (out' & Heq & Hlen).
  exists out'. split; [exact Heq|exact Hlen].
Qed.

Lemma sample_not_empty (G : GeometryProvider) (airspaces : list Airspace)
    (pts : list Point) (p : Point) :
  In p pts ->
  pointRecord p airspaces <> Ok (repeat 0 (levels * sizeof_level)) ->
  forallb (sample_empty airspaces) pts = false.
Proof.
  intros Hin Hne.
  destruct (forallb (sample_empty airspaces) pts) eqn:E; [|reflexivity].
  rewrite forallb_forall in E. specialize (E p Hin).
  unfold sample_empty in E. apply bool_decide_eq_true in E.
  exfalso. apply Hne, E.
Qed.

(** A sampled point with a record that is not zero makes the [try] block of
    [dump] open the tile's file. *)
Lemma tileRun_sample_opens (G : GeometryProvider) (cfg : Config)
    (lon lat : Z) (airspaces : list Airspace) (draw : bool) (w : world)
    (p : Point) :
  (if draw then 10 else wantedResolution cfg) <> 0 ->
  (forall q, In q (quickcheck_points lon lat) ->
     pointRecord q airspaces <> Err (SystemExit q)) ->
  In p (quickcheck_points lon lat) ->
  pointRecord p airspaces <> Ok (repeat 0 (levels * sizeof_level)) ->
  snd (fst (tileRun cfg lon lat airspaces draw w)) = Some (tileName lon lat) /\
  files (fst (fst (tileRun cfg lon lat airspaces draw w)))
  = <[tileName lon lat := []]> (files w).
Proof.
  intros Hn Hok Hin Hne.
  assert (snd (fst (tileRun cfg lon lat airspaces draw w))
          = Some (tileName lon lat)) as Hopen.
  { unfold tileRun. cbv zeta.
    set (numPoints := if draw then 10 else wantedResolution cfg) in *.
    set (filesize := numPoints * numPoints * Z.of_nat levels
                     * Z.of_nat sizeof_level).
    pose proof (filesize_room numPoints Hn) as Hroom. fold filesize in Hroom.
    unfold dump_try.
    destruct (quickcheck_flag G airspaces lon lat
                (emit (emit w (Print (Computing (tileName lon lat) numPoints)))
                      (Alloc filesize))
                (repeat 0 (Z.to_nat filesize)))
      as (out' & Heq & _);
      [rewrite repeat_length; exact Hroom|exact Hok|].
    destruct (quickcheck airspaces lon lat _ _) as [w1 r].
    cbn [snd] in Heq. subst r.
    rewrite (sample_not_empty G airspaces _ p Hin Hne). cbn [negb].
    apply Z.eqb_neq in Hn. rewrite Hn.
    destruct (fold_left _ (arange lat numPoints) _) as [[w3 pos] r].
    reflexivity. }
  split; [exact Hopen|].
  pose proof (dump_try_cases G airspaces (tileName lon lat) lon lat
                (if draw then 10 else wantedResolution cfg)
                (emit (emit w (Print (Computing (tileName lon lat)
                                 (if draw then 10 else wantedResolution cfg))))
                      (Alloc ((if draw then 10 else wantedResolution cfg)
                              * (if draw then 10 else wantedResolution cfg)
                              * Z.of_nat levels * Z.of_nat sizeof_level)))
                (repeat 0 (Z.to_nat
                   ((if draw then 10 else wantedResolution cfg)
                    * (if draw then 10 else wantedResolution cfg)
                    * Z.of_nat levels * Z.of_nat sizeof_level))))
    as [Hcases _].
  cbv zeta in Hcases. fold (tileRun cfg lon lat airspaces draw w) in Hcases.
  destruct Hcases as [[Hnone _]|[_ Hfiles]].
  - rewrite Hopen in Hnone. discriminate.
  - exact Hfiles.
Qed.

(** C10.  The quick check decides from a sample: the hundred points of the
    raster at resolution 10, each encoded at offset 0 and judged by the first
    [levels * sizeof_level = 20] bytes of the buffer.  When all of them have
    an all-zero record [dump] produces no file and computes no raster, and
    this happens also for a tile whose full raster has a record that is not
    zero.  The scan after a point keeps [isEmpty] exactly when those 20
    bytes are all zero, so the check answers "empty" exactly when every
    sampled record is zero: a sampled point with a record that is not zero
    makes [dump] open the tile's file and go on to the raster. *)
Theorem quickcheck_decides_emptiness :
  (forall (G : GeometryProvider) (cfg : Config) (lon lat : Z)
          (airspaces : list Airspace) (draw : bool) (w : world),
     isfile w (tileName lon lat) && negb (force cfg) = false ->
     (if draw then 10 else wantedResolution cfg) <> 0 ->
     (forall p, In p (quickcheck_points lon lat) ->
        pointRecord p airspaces = Ok (repeat 0 (levels * sizeof_level))) ->
     dump cfg lon lat airspaces draw w
     = (mkWorld (files w)
          (log w
           ++ [ Print (Computing (tileName lon lat)
                         (if draw then 10 else wantedResolution cfg));
                Alloc ((if draw then 10 else wantedResolution cfg)
                       * (if draw then 10 else wantedResolution cfg)
                       * Z.of_nat levels * Z.of_nat sizeof_level) ]
           ++ map (CallDumpPoint 0) (quickcheck_points lon lat)
           ++ [Print (IsEmpty (tileName lon lat))]),
        Returned)) /\
  (forall lon lat,
     quickcheck_points lon lat = raster_points lon lat 10 /\
     length (quickcheck_points lon lat) = 100%nat) /\
  (forall (G : GeometryProvider) (airspaces : list Airspace) (lon lat : Z)
          (w : world) (out : list Z),
     exists k,
       log (fst (quickcheck airspaces lon lat w out))
       = log w ++ map (CallDumpPoint 0) (take k (quickcheck_points lon lat))
       /\ files (fst (quickcheck airspaces lon lat w out)) = files w) /\
  (forall (out out' : list Z) (e : bool),
     take (levels * sizeof_level) out = take (levels * sizeof_level) out' ->
     scan_record out e = scan_record out' e) /\
  (forall (out : list Z) (e : bool),
     (levels * sizeof_level <= length out)%nat ->
     scan_record out e = Ok (e && zero_prefix out) /\
     (zero_prefix out = true <->
      forall i, (i < levels * sizeof_level)%nat -> out !! i = Some 0)) /\
  (forall (G : GeometryProvider) (airspaces : list Airspace) (lon lat : Z)
          (w : world) (out : list Z),
     (levels * sizeof_level <= length out)%nat ->
     (forall p, In p (quickcheck_points lon lat) ->
        pointRecord p airspaces <> Err (SystemExit p)) ->
     exists out' isEmpty,
       snd (quickcheck airspaces lon lat w out) = Ok (out', isEmpty) /\
       length out' = length out /\
       (isEmpty = true <->
        forall p, In p (quickcheck_points lon lat) ->
          pointRecord p airspaces
          = Ok (repeat 0 (levels * sizeof_level)))) /\
  (forall (G : GeometryProvider) (cfg : Config) (lon lat : Z)
          (airspaces : list Airspace) (draw : bool) (w : world) (p : Point),
     (if draw then 10 else wantedResolution cfg) <> 0 ->
     (forall q, In q (quickcheck_points lon lat) ->
        pointRecord q airspaces <> Err (SystemExit q)) ->
     In p (quickcheck_points lon lat) ->
     pointRecord p airspaces <> Ok (repeat 0 (levels * sizeof_level)) ->
     snd (fst (tileRun cfg lon lat airspaces draw w))
     = Some (tileName lon lat) /\
     files (fst (fst (tileRun cfg lon lat airspaces draw w)))
     = <[tileName lon lat := []]> (files w)) /\
  (exists (G : GeometryProvider) (cfg : Config) (lon lat : Z)
          (airspaces : list Airspace) (w : world) (p : Point),
     In p (raster_points lon lat (wantedResolution cfg)) /\
     pointRecord p airspaces <> Ok (repeat 0 (levels * sizeof_level)) /\
     files w !! tileName lon lat = None /\
     files (fst (dump cfg lon lat airspaces false w)) = files w).
Proof.
  split; [exact dump_quickcheck_empty|].
  split; [intros lon lat; split;
          [reflexivity|apply quickcheck_points_length]|].
  split; [intros G airspaces lon lat w out; apply quickcheck_fold_log|].
  split; [exact scan_record_first_record|].
  split; [intros out e Hroom; split;
          [apply scan_record_prefix, Hroom|apply zero_prefix_iff]|].
  split.
  { intros G airspaces lon lat w out Hroom Hok.
    destruct (quickcheck_flag G airspaces lon lat w out Hroom Hok)
      as (out' & Heq & Hlen).
    exists out', (forallb (sample_empty airspaces) (quickcheck_points lon lat)).
    split; [exact Heq|]. split; [exact Hlen|].
    rewrite forallb_forall.
    split; intros H p Hp; specialize (H p Hp).
    - unfold sample_empty in H. apply bool_decide_eq_true in H. exact H.
    - unfold sample_empty. apply bool_decide_eq_true. exact H. }
  split; [exact tileRun_sample_opens|].
  exists provider_sliver, config_coarse, 9, 48, one_zone, world_empty,
         (mkPoint (arange_at 9 20 1) (arange_at 48 20 0)).
  split; [|split; [|split]].
  - unfold raster_points. apply in_flat_map.
    exists (arange_at 48 20 0). split.
    + apply (arange_In 48 20 0). vm_compute. lia.
    + apply (in_map (fun lon_i => mkPoint lon_i (arange_at 48 20 0))).
      apply (arange_In 9 20 1). vm_compute. lia.
  - vm_compute. discriminate.
  - reflexivity.
  - rewrite (dump_quickcheck_empty provider_sliver config_coarse 9 48
               one_zone false world_empty).
    + reflexivity.
    + reflexivity.
    + vm_compute. discriminate.
    + intros p Hp.
      assert (forallb (fun q => bool_decide
                (pointRecord (H := provider_sliver) q one_zone
                 = Ok (repeat 0 (levels * sizeof_level))))
                (quickcheck_points 9 48) = true) as Hall
        by (vm_compute; reflexivity).
      rewrite forallb_forall in Hall. specialize (Hall p Hp).
      apply bool_decide_eq_true in Hall. exact Hall.
Qed.

(** The tile of 48N 9E at resolution 20 with an airspace that reaches only
    the raster column at 9 + 1/20 degrees: no sampled point sees it, and no
    file is written.  With an airspace that the sampled points at 9 + 1/10
    degrees see, the file is opened. *)
Lemma quickcheck_decides_emptiness_witness :
  dump (H := provider_sliver) config_coarse 9 48 one_zone false world_empty
  = (mkWorld ∅
       ([Print (Computing "N48E009.air" 20); Alloc 8000]
        ++ map (CallDumpPoint 0) (quickcheck_points 9 48)
        ++ [Print (IsEmpty "N48E009.air")]),
     Returned) /\
  In (mkPoint (arange_at 9 10 1) (arange_at 48 10 0))
     (quickcheck_points 9 48) /\
  pointRecord (H := provider_sample)
    (mkPoint (arange_at 9 10 1) (arange_at 48 10 0)) one_zone
  <> Ok (repeat 0 (levels * sizeof_level)) /\
  snd (fst (tileRun (H := provider_sample) config_seven 9 48 one_zone false
                    world_empty)) = Some "N48E009.air" /\
  files (fst (fst (tileRun (H := provider_sample) config_seven 9 48 one_zone
                           false world_empty)))
  = <["N48E009.air" := []]> ∅.
Proof.
  destruct quickcheck_decides_emptiness
    as (Hempty & _ & _ & _ & _ & _ & Hopens & _).
  assert (In (mkPoint (arange_at 9 10 1) (arange_at 48 10 0))
             (quickcheck_points 9 48)) as Hin.
  { unfold quickcheck_points. apply in_flat_map.
    exists (arange_at 48 10 0). split.
    - apply (arange_In 48 10 0). vm_compute. lia.
    - apply (in_map (fun lon_i => mkPoint lon_i (arange_at 48 10 0))).
      apply (arange_In 9 10 1). vm_compute. lia. }
  assert (pointRecord (H := provider_sample)
            (mkPoint (arange_at 9 10 1) (arange_at 48 10 0)) one_zone
          <> Ok (repeat 0 (levels * sizeof_level))) as Hne
    by (vm_compute; discriminate).
  split; [|split; [exact Hin|split; [exact Hne|]]].
  - apply (Hempty provider_sliver config_coarse 9 48 one_zone false
             world_empty).
    + reflexivity.
    + vm_compute. discriminate.
    + intros p Hp.
      assert (forallb (fun q => bool_decide
                (pointRecord (H := provider_sliver) q one_zone
                 = Ok (repeat 0 (levels * sizeof_level))))
                (quickcheck_points 9 48) = true) as Hall
        by (vm_compute; reflexivity).
      rewrite forallb_forall in Hall. specialize (Hall p Hp).
      apply bool_decide_eq_true in Hall. exact Hall.
  - apply (Hopens provider_sample config_seven 9 48 one_zone false
             world_empty (mkPoint (arange_at 9 10 1) (arange_at 48 10 0))).
    + vm_compute. discriminate.
    + intros q Hq.
      assert (forallb (fun q => bool_decide
                (pointRecord (H := provider_sample) q one_zone
                 <> Err (SystemExit q)))
                (quickcheck_points 9 48) = true) as Hall
        by (vm_compute; reflexivity).
      rewrite forallb_forall in Hall. specialize (Hall q Hq).
      apply bool_decide_eq_true in Hall. exact Hall.
    + exact Hin.
    + exact Hne.
Defined.

(** ** The bounding box and the tiles of [main] *)

Lemma py_min_le a b : (py_min a b <= a)%Q /\ (py_min a b <= b)%Q.
Proof.
  unfold py_min. destruct (Qle_bool a b) eqn:H.
  - apply Qle_bool_iff in H. split; [apply Qle_refl|exact H].
  - split; [|apply Qle_refl].
    destruct (Qlt_le_dec b a) as [Hlt|Hle]; [apply Qlt_le_weak, Hlt|].
    apply Qle_bool_iff in Hle. congruence.
Qed.

Lemma py_max_ge a b : (a <= py_max a b)%Q /\ (b <= py_max a b)%Q.
Proof.
  unfold py_max. destruct (Qle_bool b a) eqn:H.
  - apply Qle_bool_iff in H. split; [apply Qle_refl|exact H].
  - split; [|apply Qle_refl].
    destruct (Qlt_le_dec a b) as [Hlt|Hle]; [apply Qlt_le_weak, Hlt|].
    apply Qle_bool_iff in Hle. congruence.
Qed.

(** [inner] lies within [outer]. *)
Lemma box_fold_encloses boxes : forall acc,
  let r := fold_left box_step boxes acc in
  ((bb0 r <= bb0 acc)%Q /\ (bb1 r <= bb1 acc)%Q /\
   (bb2 acc <= bb2 r)%Q /\ (bb3 acc <= bb3 r)%Q) /\
  forall b, In b boxes ->
    (bb0 r <= bb0 b)%Q /\ (bb1 r <= bb1 b)%Q /\
    (bb2 b <= bb2 r)%Q /\ (bb3 b <= bb3 r)%Q.
Proof.
  induction boxes as [|x boxes IH]; intros acc; cbn [fold_left].
  - split; [repeat split; apply Qle_refl|intros b []].
  - destruct (IH (box_step acc x)) as [(H0 & H1 & H2 & H3) Hall].
    cbn [box_step bb0 bb1 bb2 bb3] in H0, H1, H2, H3.
    pose proof (py_min_le (bb0 acc) (bb0 x)) as [A0 B0].
    pose proof (py_min_le (bb1 acc) (bb1 x)) as [A1 B1].
    pose proof (py_max_ge (bb2 acc) (bb2 x)) as [A2 B2].
    pose proof (py_max_ge (bb3 acc) (bb3 x)) as [A3 B3].
    split.
    + repeat split; eapply Qle_trans; eauto.
    + intros b [<-|Hb]; [|apply Hall, Hb].
      repeat split; eapply Qle_trans; eauto.
Qed.

Lemma py_range_In a b z : In z (py_range a b) <-> a <= z < b.
Proof.
  unfold py_range. rewrite in_map_iff. split.
  - intros (i & <- & Hi). apply in_seq in Hi. lia.
  - intros Hz. exists (Z.to_nat (z - a)). split; [lia|].
    apply in_seq. lia.
Qed.

Lemma boxTiles_In bb lon lat :
  In (lon, lat) (boxTiles bb) <->
  Qint (bb0 bb) - 1 <= lon < Qint (bb2 bb) + 2 /\
  Qint (bb1 bb) - 1 <= lat < Qint (bb3 bb) + 2.
Proof.
  unfold boxTiles. rewrite in_flat_map. split.
  - intros (la & Hla & Hin). apply in_map_iff in Hin.
    destruct Hin as (lo & Heq & Hlo). injection Heq as -> ->.
    apply py_range_In in Hla. apply py_range_In in Hlo. auto.
  - intros [Hlo Hla]. exists lat. split; [apply py_range_In, Hla|].
    apply in_map_iff. exists lon. split; [reflexivity|apply py_range_In, Hlo].
Qed.

(** [int(q)] is the floor of [q] or one more. *)
Lemma Qint_floor q : Qfloor q <= Qint q <= Qfloor q + 1.
Proof.
  destruct q as [n d]. unfold Qint, Qfloor. cbn [Qnum Qden].
  pose proof (Pos2Z.is_pos d).
  Z.to_euclidean_division_equations. nia.
Qed.

Lemma getBoundingBox_fold_encloses_all boxes b :
  In b boxes ->
  (bb0 (getBoundingBox boxes) <= bb0 b)%Q /\
  (bb1 (getBoundingBox boxes) <= bb1 b)%Q /\
  (bb2 b <= bb2 (getBoundingBox boxes))%Q /\
  (bb3 b <= bb3 (getBoundingBox boxes))%Q.
Proof.
  apply (box_fold_encloses boxes (mkBox 100 200 (-100) (-200))).
Qed.

(** X15.  The bounding box that [getBoundingBox] returns encloses the box
    of every airspace.  It starts from [[100, 200, -100, -200]] and only
    grows, so its west and south edges are never above 100 and 200 and its
    east and north edges never below -100 and -200, and without airspaces it
    is that start value. *)
Theorem getBoundingBox_encloses (boxes : list Box) :
  ((bb0 (getBoundingBox boxes) <= 100)%Q /\
   (bb1 (getBoundingBox boxes) <= 200)%Q /\
   (-100 <= bb2 (getBoundingBox boxes))%Q /\
   (-200 <= bb3 (getBoundingBox boxes))%Q) /\
  (forall b, In b boxes ->
     (bb0 (getBoundingBox boxes) <= bb0 b)%Q /\
     (bb1 (getBoundingBox boxes) <= bb1 b)%Q /\
     (bb2 b <= bb2 (getBoundingBox boxes))%Q /\
     (bb3 b <= bb3 (getBoundingBox boxes))%Q) /\
  getBoundingBox [] = mkBox 100 200 (-100) (-200).
Proof.
  split; [|split; [|reflexivity]];
    apply (box_fold_encloses boxes (mkBox 100 200 (-100) (-200))).
Qed.

Example getBoundingBox_two :
  getBoundingBox [box_stuttgart; box_zurich]
  = mkBox (17 # 2) (47 # 1) (19 # 2) (49 # 1).
Proof. reflexivity. Qed.

(** X16.  When [main] is not asked for one tile, it queues a tile for
    every point of the bounding box: the tile of a point, named by the
    floors of its coordinates, is in the list, also for negative
    coordinates, where [int] rounds towards zero.  With the box of
    [getBoundingBox], every point of every airspace's box has its tile
    queued. *)
Theorem tileJobs_cover_box (bb : Box) (boxes : list Box) (b : Box)
    (x y : Q) :
  ((bb0 bb <= x)%Q -> (x <= bb2 bb)%Q -> (bb1 bb <= y)%Q -> (y <= bb3 bb)%Q ->
   In (Qfloor x, Qfloor y) (tileJobs None bb)) /\
  (In b boxes ->
   (bb0 b <= x)%Q -> (x <= bb2 b)%Q -> (bb1 b <= y)%Q -> (y <= bb3 b)%Q ->
   In (Qfloor x, Qfloor y) (tileJobs None (getBoundingBox boxes))).
Proof.
  assert (forall bx : Box,
            (bb0 bx <= x)%Q -> (x <= bb2 bx)%Q -> (bb1 bx <= y)%Q ->
            (y <= bb3 bx)%Q -> In (Qfloor x, Qfloor y) (tileJobs None bx))
    as Hcover.
  { intros bx H0 H2 H1 H3. cbn [tileJobs]. apply boxTiles_In.
    pose proof (Qfloor_resp_le _ _ H0). pose proof (Qfloor_resp_le _ _ H2).
    pose proof (Qfloor_resp_le _ _ H1). pose proof (Qfloor_resp_le _ _ H3).
    pose proof (Qint_floor (bb0 bx)). pose proof (Qint_floor (bb1 bx)).
    pose proof (Qint_floor (bb2 bx)). pose proof (Qint_floor (bb3 bx)).
    lia. }
  split; [apply Hcover|].
  intros Hb H0 H2 H1 H3.
  destruct (getBoundingBox_fold_encloses_all boxes b Hb) as (E0 & E1 & E2 & E3).
  apply Hcover; eapply Qle_trans; eauto.
Qed.
Lemma Qint_nonneg n d : 0 <= n -> Qint (n # d) = n / Z.pos d.
Proof.
  intros Hn. unfold Qint. cbn [Qnum Qden].
  apply Z.quot_div_nonneg; lia.
Qed.

Lemma Qint_neg n d : n <= 0 -> Qint (n # d) = - ((- n) / Z.pos d).
Proof.
  intros Hn. unfold Qint. cbn [Qnum Qden].
  rewrite <- Z.quot_div_nonneg by lia.
  rewrite Z.quot_opp_l by lia. lia.
Qed.

Lemma div_cross_le n d m e :
  0 <= n -> n * Z.pos e <= m * Z.pos d -> n / Z.pos d <= m / Z.pos e.
Proof.
  intros Hn H.
  apply Z.div_le_lower_bound; [lia|].
  pose proof (Z.mul_div_le n (Z.pos d) ltac:(lia)).
  assert (Z.pos d * (Z.pos e * (n / Z.pos d)) <= Z.pos d * m) as H1; [nia|].
  apply Z.mul_le_mono_pos_l in H1; lia.
Qed.

Lemma Qint_mono q r : (q <= r)%Q -> Qint q <= Qint r.
Proof.
  destruct q as [n d], r as [m e]. unfold Qle. cbn [Qnum Qden]. intros H.
  destruct (Z_lt_le_dec n 0) as [Hn|Hn], (Z_lt_le_dec m 0) as [Hm|Hm].
  - rewrite !Qint_neg by lia.
    pose proof (div_cross_le (- m) e (- n) d ltac:(lia) ltac:(lia)). lia.
  - rewrite Qint_neg, Qint_nonneg by lia.
    pose proof (Z.div_pos m (Z.pos e) Hm ltac:(lia)).
    pose proof (Z.div_pos (- n) (Z.pos d) ltac:(lia) ltac:(lia)). lia.
  - nia.
  - rewrite !Qint_nonneg by lia. apply div_cross_le; lia.
Qed.

Lemma py_range_length a b : length (py_range a b) = Z.to_nat (b - a).
Proof. unfold py_range. rewrite length_map, length_seq. reflexivity. Qed.

Lemma boxTiles_length bb :
  length (boxTiles bb)
  = (Z.to_nat (Qint (bb3 bb) - Qint (bb1 bb) + 3)
     * Z.to_nat (Qint (bb2 bb) - Qint (bb0 bb) + 3))%nat.
Proof.
  unfold boxTiles.
  set (lons := py_range (Qint (bb0 bb) - 1) (Qint (bb2 bb) + 2)).
  assert (length lons = Z.to_nat (Qint (bb2 bb) - Qint (bb0 bb) + 3)) as <-.
  { unfold lons. rewrite py_range_length. f_equal. lia. }
  assert (Z.to_nat (Qint (bb3 bb) - Qint (bb1 bb) + 3)
          = length (py_range (Qint (bb1 bb) - 1) (Qint (bb3 bb) + 2))) as ->.
  { rewrite py_range_length. f_equal. lia. }
  induction (py_range (Qint (bb1 bb) - 1) (Qint (bb3 bb) + 2)) as [|x l IH];
    [reflexivity|].
  cbn [flat_map length]. rewrite length_app, length_map, IH. reflexivity.
Qed.

(** X17.  A tile given on the command line is the only one queued, unless
    its longitude is 0: the test [lonOnly != 0] then fails and [main]
    queues the tiles of the whole bounding box, which are at least nine
    when the box is not empty.  Without airspaces the bounding box is the
    start value of [getBoundingBox], whose east edge is west of its west
    edge, and no tile is queued. *)
Theorem tileJobs_longitude_zero (latOnly lonOnly : Z) (bb : Box) :
  (lonOnly <> 0 ->
   tileJobs (Some (latOnly, lonOnly)) bb = [(lonOnly, latOnly)]) /\
  tileJobs (Some (latOnly, 0)) bb = tileJobs None bb /\
  ((bb0 bb <= bb2 bb)%Q -> (bb1 bb <= bb3 bb)%Q ->
   (9 <= length (tileJobs (Some (latOnly, 0%Z)) bb))%nat) /\
  tileJobs None (getBoundingBox []) = [].
Proof.
  split; [|split; [reflexivity|split; [|reflexivity]]].
  - intros Hlon. cbn [tileJobs].
    destruct (lonOnly =? 0) eqn:E; [apply Z.eqb_eq in E; lia|reflexivity].
  - intros H02 H13. cbn [tileJobs Z.eqb negb]. rewrite boxTiles_length.
    apply Qint_mono in H02, H13.
    change 9%nat with (3 * 3)%nat.
    apply Nat.mul_le_mono; lia.
Qed.

Lemma tileJobs_longitude_zero_witness :
  9 <> 0 /\ (bb0 box_stuttgart <= bb2 box_stuttgart)%Q /\
  (bb1 box_stuttgart <= bb3 box_stuttgart)%Q /\
  tileJobs (Some (48, 9)) box_stuttgart = [(9, 48)] /\
  (9 <= length (tileJobs (Some (48%Z, 0%Z)) box_stuttgart))%nat.
Proof.
  assert (9 <> 0) as H9 by lia.
  assert (bb0 box_stuttgart <= bb2 box_stuttgart)%Q as H02
    by (unfold Qle; cbn; lia).
  assert (bb1 box_stuttgart <= bb3 box_stuttgart)%Q as H13
    by (unfold Qle; cbn; lia).
  destruct (tileJobs_longitude_zero 48 9 box_stuttgart) as (H1 & _ & H3 & _).
  exact (conj H9 (conj H02 (conj H13 (conj (H1 H9) (H3 H02 H13))))).
Defined.

Lemma getBoundingBox_encloses_witness :
  In box_zurich [box_stuttgart; box_zurich] /\
  (bb0 (getBoundingBox [box_stuttgart; box_zurich]) <= bb0 box_zurich)%Q /\
  (bb1 (getBoundingBox [box_stuttgart; box_zurich]) <= bb1 box_zurich)%Q /\
  (bb2 box_zurich <= bb2 (getBoundingBox [box_stuttgart; box_zurich]))%Q /\
  (bb3 box_zurich <= bb3 (getBoundingBox [box_stuttgart; box_zurich]))%Q.
Proof.
  assert (In box_zurich [box_stuttgart; box_zurich]) as Hin
    by (right; left; reflexivity).
  split; [exact Hin|].
  exact (proj1 (proj2 (getBoundingBox_encloses [box_stuttgart; box_zurich]))
               box_zurich Hin).
Defined.

Lemma tileJobs_cover_box_witness :
  In box_zurich [box_stuttgart; box_zurich] /\
  (bb0 box_zurich <= 35 # 4)%Q /\ (35 # 4 <= bb2 box_zurich)%Q /\
  (bb1 box_zurich <= 95 # 2)%Q /\ (95 # 2 <= bb3 box_zurich)%Q /\
  In (8, 47) (tileJobs None box_zurich) /\
  In (8, 47) (tileJobs None (getBoundingBox [box_stuttgart; box_zurich])).
Proof.
  assert (In box_zurich [box_stuttgart; box_zurich]) as Hin
    by (right; left; reflexivity).
  assert (bb0 box_zurich <= 35 # 4)%Q as H0 by (unfold Qle; cbn; lia).
  assert (35 # 4 <= bb2 box_zurich)%Q as H2 by (unfold Qle; cbn; lia).
  assert (bb1 box_zurich <= 95 # 2)%Q as H1 by (unfold Qle; cbn; lia).
  assert (95 # 2 <= bb3 box_zurich)%Q as H3 by (unfold Qle; cbn; lia).
  destruct (tileJobs_cover_box box_zurich [box_stuttgart; box_zurich]
              box_zurich (35 # 4) (95 # 2)) as [Ha Hb].
  exact (conj Hin (conj H0 (conj H2 (conj H1 (conj H3
           (conj (Ha H0 H2 H1 H3) (Hb Hin H0 H2 H1 H3))))))).
Defined.

(** ** The process scheduler of [main] *)

Lemma start_procs_spec {P : Type} par (ps : list P) : forall rs st,
  (length rs <= par)%nat ->
  exists k, (k <= length ps)%nat /\
    start_procs par ps rs st = (drop k ps, rs ++ take k ps, st ++ take k ps) /\
    (length (rs ++ take k ps) <= par)%nat /\
    (k = length ps \/ length (rs ++ take k ps) = par).
Proof.
  induction ps as [|p ps IH]; intros rs st Hle; cbn [start_procs].
  - exists 0%nat. cbn. rewrite !app_nil_r. split; [lia|]. split; [reflexivity|].
    split; [exact Hle|left; reflexivity].
  - destruct (length rs <? par)%nat eqn:E.
    + apply Nat.ltb_lt in E.
      destruct (IH (rs ++ [p]) (st ++ [p])) as (k & Hk & Heq & Hlen & Hor).
      { rewrite length_app. cbn. lia. }
      exists (S k). cbn [drop take length].
      rewrite <- !app_assoc in Hlen, Hor. cbn [app] in Hlen, Hor.
      split; [lia|].
      split; [rewrite Heq, <- !app_assoc; reflexivity|].
      split; [exact Hlen|].
      destruct Hor as [->|Hor]; [left; reflexivity|right; exact Hor].
    + apply Nat.ltb_ge in E. exists 0%nat. cbn [drop take].
      rewrite !app_nil_r. split; [lia|]. split; [reflexivity|].
      split; [exact Hle|right; lia].
Qed.

Lemma join_first_spec {P : Type} (is_alive : P -> bool) (rs : list P) :
  match join_first is_alive rs with
  | (rs', Some p) => p :: rs' ≡ₚ rs /\ is_alive p = false
  | (rs', None) => rs' = rs /\ forall p, In p rs -> is_alive p = true
  end.
Proof.
  induction rs as [|r rs IH]; cbn [join_first].
  - split; [reflexivity|intros p []].
  - destruct (is_alive r) eqn:E.
    + destruct (join_first is_alive rs) as [rs' [p|]].
      * destruct IH as [Hp Hd]. split; [|exact Hd].
        rewrite <- Hp. apply Permutation_swap.
      * destruct IH as [-> Hall]. split; [reflexivity|].
        intros p [<-|Hp]; [exact E|apply Hall, Hp].
    + split; [reflexivity|exact E].
Qed.

Lemma sched_turn_ok {P : Type} par (jobs : list P) is_alive s :
  sched_ok par jobs s -> sched_ok par jobs (sched_turn par is_alive s).
Proof.
  intros (Hjobs & Hlen & Hperm). unfold sched_turn.
  destruct (start_procs_spec par (procs s) (running s) (started s) Hlen)
    as (k & Hk & -> & Hlen' & _).
  pose proof (join_first_spec is_alive (running s ++ take k (procs s))) as Hj.
  destruct (join_first is_alive (running s ++ take k (procs s)))
    as [rs' [p|]]; unfold sched_ok; cbn [procs running started joined].
  - destruct Hj as [Hp _]. split; [|split].
    + rewrite <- app_assoc, take_drop. exact Hjobs.
    + apply Permutation_length in Hp. cbn [length] in Hp. lia.
    + rewrite <- app_assoc. cbn [app]. rewrite Hp, app_assoc, Hperm.
      reflexivity.
  - destruct Hj as [-> _]. split; [|split].
    + rewrite <- app_assoc, take_drop. exact Hjobs.
    + exact Hlen'.
    + rewrite app_nil_r, app_assoc, Hperm. reflexivity.
Qed.

Lemma sched_turn_joined {P : Type} par (is_alive : P -> bool) s :
  (length (joined (sched_turn par is_alive s)) <= S (length (joined s)))%nat.
Proof.
  unfold sched_turn.
  destruct (start_procs par (procs s) (running s) (started s)) as [[ps rs] st].
  destruct (join_first is_alive rs) as [rs' [p|]]; cbn [joined];
    rewrite length_app; cbn [length]; lia.
Qed.

Lemma sched_loop_ok {P : Type} par (jobs : list P) answers : forall s,
  sched_ok par jobs s ->
  Forall (sched_ok par jobs) (fst (sched_loop par answers s)).
Proof.
  induction answers as [|a answers IH]; intros s Hs; cbn [sched_loop].
  - destruct (sched_busy s); cbn [fst]; (constructor; [exact Hs|constructor]).
  - destruct (sched_busy s); [|cbn [fst]; constructor; [exact Hs|constructor]].
    specialize (IH _ (sched_turn_ok par jobs a s Hs)).
    destruct (sched_loop par answers (sched_turn par a s)) as [states ended].
    cbn [fst] in *. constructor; [exact Hs|exact IH].
Qed.

Lemma sched_loop_last {P : Type} par answers : forall (s : Sched P),
  exists s', last (fst (sched_loop par answers s)) = Some s' /\
    (length (joined s') + 1
     <= length (joined s) + length (fst (sched_loop par answers s)))%nat /\
    (length (fst (sched_loop par answers s)) <= S (length answers))%nat /\
    (snd (sched_loop par answers s) = true -> sched_busy s' = false).
Proof.
  induction answers as [|a answers IH]; intros s; cbn [sched_loop].
  - destruct (sched_busy s) eqn:E; cbn [fst snd]; exists s;
      (split; [reflexivity|]); cbn [length]; (split; [lia|]);
      (split; [lia|]); [discriminate|intros _; exact E].
  - destruct (sched_busy s) eqn:E.
    + destruct (IH (sched_turn par a s)) as (s' & Hlast & Hj & Hn & Hend).
      pose proof (sched_turn_joined par a s) as Hone.
      destruct (sched_loop par answers (sched_turn par a s))
        as [states ended].
      cbn [fst snd] in *. exists s'.
      split; [|split; [cbn [length]; lia|split; [cbn [length]; lia|exact Hend]]].
      destruct states as [|x states]; [discriminate|].
      rewrite last_cons, Hlast. reflexivity.
    + cbn [fst snd]. exists s. split; [reflexivity|]. cbn [length].
      split; [lia|]. split; [lia|]. intros _; exact E.
Qed.

Lemma sched_busy_false {P : Type} (s : Sched P) :
  sched_busy s = false <-> procs s = [] /\ running s = [].
Proof.
  unfold sched_busy. rewrite orb_false_iff, !Nat.ltb_ge.
  destruct (procs s), (running s); cbn [length]; split;
    intros [? ?]; split; try reflexivity; try discriminate; lia.
Qed.

Lemma sched_init_ok {P : Type} par (jobs : list P) :
  sched_ok par jobs (mkSched jobs [] [] []).
Proof.
  unfold sched_ok. cbn [procs running started joined length app].
  split; [reflexivity|]. split; [lia|reflexivity].
Qed.

Lemma join_first_dead {P : Type} (r : P) (rs : list P) :
  join_first (fun _ => false) (r :: rs) = (rs, Some r).
Proof. reflexivity. Qed.

Lemma sched_loop_all_ended {P : Type} par : forall n (s : Sched P),
  (1 <= par)%nat -> (length (running s) <= par)%nat ->
  (length (procs s) + length (running s))%nat = n ->
  snd (sched_loop par (repeat (fun _ => false) n) s) = true /\
  length (fst (sched_loop par (repeat (fun _ => false) n) s)) = S n /\
  exists s', last (fst (sched_loop par (repeat (fun _ => false) n) s))
             = Some s' /\
             joined s' = joined s ++ running s ++ procs s.
Proof.
  induction n as [|n IH]; intros s Hpar Hlen Hn.
  - assert (procs s = [] /\ running s = []) as [Hp Hr]
      by (destruct (procs s), (running s); cbn [length] in Hn;
          split; try reflexivity; lia).
    cbn [repeat sched_loop].
    assert (sched_busy s = false) as ->
      by (apply sched_busy_false; split; assumption).
    cbn [fst snd length]. split; [reflexivity|]. split; [reflexivity|].
    exists s. split; [reflexivity|]. rewrite Hp, Hr, !app_nil_r. reflexivity.
  - cbn [repeat sched_loop].
    assert (sched_busy s = true) as ->.
    { destruct (sched_busy s) eqn:E; [reflexivity|].
      apply sched_busy_false in E. destruct E as [Hp Hr].
      rewrite Hp, Hr in Hn. cbn [length] in Hn. lia. }
    destruct (start_procs_spec par (procs s) (running s) (started s) Hlen)
      as (k & Hk & Hstart & Hlen' & Hfull).
    assert (exists r rs, running s ++ take k (procs s) = r :: rs)
      as (r & rs & Hrs).
    { destruct (running s ++ take k (procs s)) as [|r rs] eqn:E;
        [|exists r, rs; reflexivity].
      apply app_eq_nil in E. destruct E as [Hr Ht].
      rewrite Hr in Hn. cbn [length] in Hn.
      destruct Hfull as [->|Hfull]; [|cbn [length] in Hfull; lia].
      rewrite firstn_all in Ht. rewrite Ht in Hn. cbn [length] in Hn. lia. }
    assert (sched_turn par (fun _ => false) s
            = mkSched (drop k (procs s)) rs (started s ++ take k (procs s))
                      (joined s ++ [r])) as Hturn.
    { unfold sched_turn. rewrite Hstart, Hrs, join_first_dead. reflexivity. }
    rewrite Hturn.
    assert (length (running s) + k = S (length rs))%nat as Hcount.
    { apply (f_equal length) in Hrs.
      rewrite length_app, length_take in Hrs. cbn [length] in Hrs. lia. }
    destruct (IH (mkSched (drop k (procs s)) rs
                          (started s ++ take k (procs s)) (joined s ++ [r])))
      as (Hend & Hcnt & s' & Hlast & Hj).
    + exact Hpar.
    + cbn [running]. rewrite Hrs in Hlen'. cbn [length] in Hlen'. lia.
    + cbn [procs running]. rewrite length_drop. lia.
    + destruct (sched_loop par (repeat (fun _ => false) n)
                  (mkSched (drop k (procs s)) rs
                     (started s ++ take k (procs s)) (joined s ++ [r])))
        as [states ended].
      cbn [fst snd] in *. split; [exact Hend|]. cbn [length].
      split; [lia|]. exists s'. split.
      * destruct states as [|x states]; [discriminate|].
        rewrite last_cons, Hlast. reflexivity.
      * rewrite Hj. cbn [joined running procs].
        rewrite <- app_assoc. cbn [app].
        change (r :: rs ++ drop k (procs s))
          with ((r :: rs) ++ drop k (procs s)).
        rewrite <- Hrs, <- app_assoc, take_drop. reflexivity.
Qed.

(** X18.  At the head of every turn of the scheduler of [main], the
    processes started so far are a first part of the job list, in its order,
    and the rest are still waiting; at most [parallelism] processes are
    running; and every started process is either running or joined, once. *)
Theorem schedule_invariants {P : Type} (parallelism : nat)
    (answers : list (P -> bool)) (jobs : list P) :
  Forall (fun s => started s ++ procs s = jobs /\
                   (length (running s) <= parallelism)%nat /\
                   joined s ++ running s ≡ₚ started s)
         (fst (schedule parallelism answers jobs)).
Proof.
  apply (sched_loop_ok parallelism jobs answers), sched_init_ok.
Qed.

(** X19.  When the scheduler ends, every job was started, in the order of
    the list, and joined, each once, and nothing is left running.  A turn
    joins at most one process, so the loop takes at least as many turns
    (each with its [time.sleep(1)]) as there are jobs. *)
Theorem schedule_ends {P : Type} (parallelism : nat)
    (answers : list (P -> bool)) (jobs : list P) :
  snd (schedule parallelism answers jobs) = true ->
  exists s, last (fst (schedule parallelism answers jobs)) = Some s /\
    procs s = [] /\ running s = [] /\ started s = jobs /\ joined s ≡ₚ jobs /\
    (length jobs + 1 <= length (fst (schedule parallelism answers jobs)))%nat /\
    (length jobs <= length answers)%nat.
Proof.
  intros Hend. unfold schedule in *.
  destruct (sched_loop_last parallelism answers (mkSched jobs [] [] []))
    as (s & Hlast & Hj & Hn & Hidle).
  specialize (Hidle Hend). apply sched_busy_false in Hidle.
  destruct Hidle as [Hp Hr].
  pose proof (sched_loop_ok parallelism jobs answers _
                (sched_init_ok parallelism jobs)) as Hall.
  assert (sched_ok parallelism jobs s) as (Hjobs & _ & Hperm).
  { rewrite Forall_forall in Hall. apply Hall.
    eapply last_Some_elem_of, Hlast. }
  rewrite Hp, app_nil_r in Hjobs. rewrite Hr, app_nil_r, Hjobs in Hperm.
  exists s. split; [exact Hlast|]. split; [exact Hp|]. split; [exact Hr|].
  split; [exact Hjobs|]. split; [exact Hperm|].
  apply Permutation_length in Hperm. cbn [joined length] in Hj.
  split; lia.
Qed.

(** X20.  When every process has ended by the time the scheduler asks it,
    the loop still joins one process per turn: with [parallelism] at least 1
    it ends after exactly as many turns as there are jobs, having started
    and joined the jobs in the order of the list. *)
Theorem schedule_all_ended {P : Type} (parallelism : nat) (jobs : list P) :
  (1 <= parallelism)%nat ->
  snd (schedule parallelism (repeat (fun _ => false) (length jobs)) jobs)
  = true /\
  length (fst (schedule parallelism
                 (repeat (fun _ => false) (length jobs)) jobs))
  = S (length jobs) /\
  exists s,
    last (fst (schedule parallelism
                 (repeat (fun _ => false) (length jobs)) jobs)) = Some s /\
    started s = jobs /\ joined s = jobs.
Proof.
  intros Hpar. unfold schedule.
  destruct (sched_loop_all_ended parallelism (length jobs)
              (mkSched jobs [] [] []) Hpar)
    as (Hend & Hcnt & s & Hlast & Hj).
  { cbn [running length]. lia. }
  { cbn [procs running length]. lia. }
  split; [exact Hend|]. split; [exact Hcnt|].
  exists s. split; [exact Hlast|].
  cbn [joined running procs app] in Hj. split; [|exact Hj].
  destruct (sched_loop_last parallelism (repeat (fun _ => false) (length jobs))
              (mkSched jobs [] [] [])) as (s2 & Hlast2 & _ & _ & Hidle).
  rewrite Hlast in Hlast2. injection Hlast2 as <-.
  specialize (Hidle Hend). apply sched_busy_false in Hidle.
  pose proof (sched_loop_ok parallelism jobs
                (repeat (fun _ => false) (length jobs)) _
                (sched_init_ok parallelism jobs)) as Hall.
  assert (sched_ok parallelism jobs s) as (Hjobs & _ & _).
  { rewrite Forall_forall in Hall. apply Hall.
    eapply last_Some_elem_of, Hlast. }
  destruct Hidle as [Hp _]. rewrite Hp, app_nil_r in Hjobs. exact Hjobs.
Qed.

Lemma schedule_ends_witness :
  snd (schedule 2 answers_staggered tiles_three) = true /\
  exists s, last (fst (schedule 2 answers_staggered tiles_three)) = Some s /\
    procs s = [] /\ running s = [] /\ started s = tiles_three /\
    joined s ≡ₚ tiles_three /\
    (length tiles_three + 1
     <= length (fst (schedule 2 answers_staggered tiles_three)))%nat /\
    (length tiles_three <= length answers_staggered)%nat.
Proof.
  assert (snd (schedule 2 answers_staggered tiles_three) = true) as H
    by reflexivity.
  exact (conj H (schedule_ends 2 answers_staggered tiles_three H)).
Defined.

Lemma schedule_all_ended_witness :
  (1 <= 2)%nat /\
  snd (schedule 2 (repeat (fun _ => false) (length tiles_three)) tiles_three)
  = true /\
  length (fst (schedule 2 (repeat (fun _ => false) (length tiles_three))
                 tiles_three))
  = S (length tiles_three) /\
  exists s,
    last (fst (schedule 2 (repeat (fun _ => false) (length tiles_three))
                 tiles_three)) = Some s /\
    started s = tiles_three /\ joined s = tiles_three.
Proof.
  assert (1 <= 2)%nat as H by lia.
  exact (conj H (schedule_all_ended 2 tiles_three H)).
Defined.

Example schedule_staggered_joins_out_of_order :
  exists s, last (fst (schedule 2 answers_staggered tiles_three)) = Some s /\
    joined s = [(9, 48); (8, 48); (8, 47)].
Proof. eexists. split; [vm_compute; reflexivity|reflexivity]. Qed.
